(** * Topology-aware balanced placement (kueue, package scheduler)

    A shallow embedding of the balanced-placement functions
    [simulateGreedy], [balanceThresholdValue],
    [selectOptimalDomainSetToFit] and [placeSlicesOnDomainsBalanced],
    together with the properties the specification states about them.

    Go values of type [int32] are integers in [Z] with the wrap-around of
    every arithmetic operation written out.  Domains are heap objects
    reached through pointers ([[]*domain] in the source): the heap is a
    finite map from locations to records and a candidate list is a list of
    locations, so that the in-place writes of the balancer are visible
    through every alias. *)

From Stdlib Require Import ZArith List Lia Bool String.
From stdpp Require Import base numbers option list sorting gmap strings.

Local Open Scope Z_scope.

(** ** 32-bit signed arithmetic *)

Module Int32.

Definition min_int : Z := - 2 ^ 31.
Definition max_int : Z := 2 ^ 31 - 1.

Definition in_range (z : Z) : Prop := min_int <= z <= max_int.

(** Two's-complement reduction of an integer to 32 bits. *)
Definition wrap (z : Z) : Z := (z + 2 ^ 31) mod 2 ^ 32 - 2 ^ 31.

Definition add (a b : Z) : Z := wrap (a + b).
Definition sub (a b : Z) : Z := wrap (a - b).
Definition mul (a b : Z) : Z := wrap (a * b).

(** Go's [/] truncates toward zero; the divisor is checked by the caller. *)
Definition quot (a b : Z) : Z := wrap (Z.quot a b).

(** [int32(len(s))]. *)
Definition of_len {A} (l : list A) : Z := wrap (Z.of_nat (length l)).

End Int32.

(** ** Domains and the heap *)

Definition loc := nat.

(** Modelled from the spec: the declaration of the struct [domain] is
    missing from the sources; these are the fields the placement functions
    read and write, as section 3 lists them, all of type [int32] except
    [children]. *)
Record domain := mkDomain {
  sliceState : Z;
  sliceStateWithLeader : Z;
  leaderState : Z;
  state : Z;
  stateWithLeader : Z;
  children : list loc
}.

Global Instance domain_inhabited : Inhabited domain :=
  populate (mkDomain 0 0 0 0 0 []).

Definition domain_in_range (d : domain) : Prop :=
  Int32.in_range (sliceState d) /\ Int32.in_range (sliceStateWithLeader d) /\
  Int32.in_range (leaderState d) /\ Int32.in_range (state d) /\
  Int32.in_range (stateWithLeader d).

(** Dereferencing: [h !!! p] is the record [p] points to. *)
Definition deref (h : gmap loc domain) (p : loc) : domain := h !!! p.

(** Every candidate points to an object whose fields are [int32] values. *)
Definition typed (h : gmap loc domain) (ds : list loc) : Prop :=
  Forall (fun p => domain_in_range (deref h p)) ds.

(** Data-model invariant 1 of the specification. *)
Definition capacity_inv (d : domain) : Prop :=
  0 <= sliceStateWithLeader d <= sliceState d.

(** Modelled from the spec: the method [grandchildren] is missing from
    the sources; section 4.1 gives it as the union, in order, of the
    children of the children. *)
Definition grandchildren (h : gmap loc domain) (d : domain) : list loc :=
  flat_map (fun c => children (deref h c)) (children d).

(** ** Sorting helpers *)

Section StableSort.
Context {A : Type} (before : A -> A -> bool).

Fixpoint insert_sorted (x : A) (l : list A) : list A :=
  match l with
  | [] => [x]
  | y :: l' => if before x y then x :: l else y :: insert_sorted x l'
  end.

(** Insertion from the right keeps equal elements in input order when
    [before] is reflexive on equal keys. *)
Definition stable_sort (l : list A) : list A :=
  foldr insert_sorted [] l.

End StableSort.

(** Modelled from the spec: the function [sortedDomains] is missing from
    the sources; section 4.2 gives it as a stable sort by [slice_state],
    the flag choosing ascending order.  The result is a fresh slice. *)
Definition sortedDomains (h : gmap loc domain) (ds : list loc) (ascending : bool)
  : list loc :=
  stable_sort
    (fun p q =>
       if ascending then sliceState (deref h p) <=? sliceState (deref h q)
       else sliceState (deref h q) <=? sliceState (deref h p))
    ds.

(** Modelled from the spec: the function [sortedDomainsWithLeader] is
    missing from the sources; section 4.2 gives it as a stable sort by
    [slice_state_with_leader], ties broken by [slice_state]. *)
Definition sortedDomainsWithLeader (h : gmap loc domain) (ds : list loc)
  (ascending : bool) : list loc :=
  stable_sort
    (fun p q =>
       let a := deref h p in
       let b := deref h q in
       let '(lo, hi) := if ascending then (a, b) else (b, a) in
       (sliceStateWithLeader lo <? sliceStateWithLeader hi) ||
       ((sliceStateWithLeader lo =? sliceStateWithLeader hi) &&
        (sliceState lo <=? sliceState hi)))
    ds.

(** ** The feasibility simulator *)

(** State of [simulateGreedy] while it walks a sorted slice. *)
Record greedy := mkGreedy {
  g_rest : list loc;            (* the part of the slice not yet visited *)
  g_count : Z;                  (* selectedDomainsCount *)
  g_leaders : Z;                (* remainingLeaderCount *)
  g_slices : Z;                 (* remainingSliceCount *)
  g_last : option loc           (* last domain taken by this loop *)
}.

(** The first loop: domains taken together with a leader. *)
Fixpoint takeLeaders (h : gmap loc domain) (sorted : list loc)
  (count remL remS : Z) (last : option loc) : greedy :=
  match sorted with
  | [] => mkGreedy [] count remL remS last
  | p :: rest =>
      if (0 <? remL) && (0 <? leaderState (deref h p)) then
        takeLeaders h rest (Int32.add count 1)
          (Int32.sub remL (leaderState (deref h p)))
          (Int32.sub remS (sliceStateWithLeader (deref h p)))
          (Some p)
      else mkGreedy sorted count remL remS last
  end.

(** The second loop: domains taken without a leader. *)
Fixpoint takeSlices (h : gmap loc domain) (sorted : list loc)
  (count remS : Z) (last : option loc) : Z * Z * option loc :=
  match sorted with
  | [] => (count, remS, last)
  | p :: rest =>
      if (0 <? remS) && (0 <? sliceState (deref h p)) then
        takeSlices h rest (Int32.add count 1)
          (Int32.sub remS (sliceState (deref h p))) (Some p)
      else (count, remS, last)
  end.

(** The leader phase as [simulateGreedy] runs it when [leaderCount > 0]. *)
Definition leaderPhase (h : gmap loc domain) (domains : list loc)
  (sliceCount leaderCount : Z) : greedy :=
  takeLeaders h (sortedDomainsWithLeader h domains false)
    0 leaderCount sliceCount None.

(** Result: (fits, selectedDomainsCount, lastDomainWithLeader, lastDomain). *)
Definition simulateGreedy (h : gmap loc domain) (domains : list loc)
  (sliceCount leaderCount : Z) : bool * Z * option loc * option loc :=
  let g :=
    if 0 <? leaderCount then
      let g := leaderPhase h domains sliceCount leaderCount in
      mkGreedy (sortedDomains h (g_rest g) false)
        (g_count g) (g_leaders g) (g_slices g) (g_last g)
    else
      mkGreedy (sortedDomains h domains false) 0 leaderCount sliceCount None in
  if 0 <? g_leaders g then (false, 0, None, None)
  else
    let '(count, remS, lastDomain) :=
      takeSlices h (g_rest g) (g_count g) (g_slices g) None in
    if 0 <? remS then (false, 0, None, None)
    else (true, count, g_last g, lastDomain).

(** ** The threshold solver *)

(** What a Go call does: it returns, or the run-time system panics. *)
Inductive outcome (A : Type) : Type :=
| Returns (a : A)
| Panics.
Arguments Returns {A} a.
Arguments Panics {A}.

(** The level the request is balanced on. *)
Definition domainsToBalance (h : gmap loc domain) (startingDomain : domain)
  (balanceOnChildren : bool) : list loc :=
  if balanceOnChildren then children startingDomain
  else grandchildren h startingDomain.

Definition balanceThresholdValue (h : gmap loc domain) (startingDomain : domain)
  (sliceCount leaderCount : Z) (balanceOnChildren : bool) : outcome (Z * bool) :=
  if (sliceCount =? 0) && (leaderCount =? 0) then Returns (0, true)
  else if (sliceStateWithLeader startingDomain <? sliceCount) ||
          (leaderState startingDomain <? leaderCount) then Returns (0, false)
  else
    let '(fits, selectedDomainsCount, lastDomainWithLeader, lastDomain) :=
      simulateGreedy h (domainsToBalance h startingDomain balanceOnChildren)
        sliceCount leaderCount in
    if negb fits then Returns (0, false)
    else if selectedDomainsCount =? 0 then Panics   (* integer divide by zero *)
    else
      let threshold := Int32.quot sliceCount selectedDomainsCount in
      let threshold :=
        match lastDomainWithLeader with
        | Some p => Z.min threshold (sliceStateWithLeader (deref h p))
        | None => threshold
        end in
      let threshold :=
        match lastDomain with
        | Some p => Z.min threshold (sliceState (deref h p))
        | None => threshold
        end in
      Returns (threshold, true).

(** ** The placement dynamic program *)

(** [slices.Sorted(maps.Keys(m))]: the keys in ascending order. *)
Definition sortedKeys {V} (m : gmap Z V) : list Z :=
  merge_sort Z.le (map_to_list m).*1.

(** [domainPlacements[i]]: leaders left, then slice units left, then the
    list of domains taken so far. *)
Definition writeIfAbsent (cur : gmap Z (gmap Z (list loc))) (leader st : Z)
  (placement : list loc) : gmap Z (gmap Z (list loc)) :=
  match cur !! leader with
  | None => <[leader := {[st := placement]}]> cur
  | Some inner =>
      match inner !! st with
      | Some _ => cur
      | None => <[leader := <[st := placement]> inner]> cur
      end
  end.

(** The body of the innermost loop for the cell
    [(beforeLeader, beforeState)] holding [beforePlacement]. *)
Definition extendCell (h : gmap loc domain) (p : loc)
  (beforeLeader beforeState : Z) (beforePlacement : list loc)
  (cur : gmap Z (gmap Z (list loc))) : gmap Z (gmap Z (list loc)) :=
  if (beforeLeader <=? 0) && (beforeState <=? 0) then cur
  else
    let d := deref h p in
    let newPlacement := beforePlacement ++ [p] in
    let cur :=
      if (0 <? beforeLeader) && (0 <? leaderState d) then
        writeIfAbsent cur (Int32.sub beforeLeader (leaderState d))
          (Int32.sub beforeState (stateWithLeader d)) newPlacement
      else cur in
    if 0 <? sliceState d then
      writeIfAbsent cur beforeLeader (Int32.sub beforeState (state d))
        newPlacement
    else cur.

(** The two loops over the sorted keys of [domainPlacements[i-1]],
    writing into [domainPlacements[i]]. *)
Definition extendLayer (h : gmap loc domain) (p : loc)
  (prev cur : gmap Z (gmap Z (list loc))) : gmap Z (gmap Z (list loc)) :=
  foldl
    (fun cur beforeLeader =>
       let inner := default ∅ (prev !! beforeLeader) in
       foldl
         (fun cur beforeState =>
            extendCell h p beforeLeader beforeState
              (default [] (inner !! beforeState)) cur)
         cur (sortedKeys inner))
    cur (sortedKeys prev).

(** [for i := optimalNumberOfDomains; i > 0; i--], on the table in place. *)
Fixpoint forEachCount (h : gmap loc domain) (p : loc) (i : nat)
  (tbl : list (gmap Z (gmap Z (list loc)))) : list (gmap Z (gmap Z (list loc))) :=
  match i with
  | O => tbl
  | S j =>
      forEachCount h p j
        (<[i := extendLayer h p (tbl !!! j) (tbl !!! i)]> tbl)
  end.

(** [for _, d := range domains]. *)
Definition fillTable (h : gmap loc domain) (domains : list loc) (optimal : nat)
  (tbl : list (gmap Z (gmap Z (list loc)))) : list (gmap Z (gmap Z (list loc))) :=
  foldl (fun tbl p => forEachCount h p optimal tbl) tbl domains.

(** The table before the first domain: [optimal + 1] empty maps and the
    seed cell. *)
Definition initTable (optimal : nat) (sliceCount leaderCount sliceSize : Z)
  : list (gmap Z (gmap Z (list loc))) :=
  <[O := {[leaderCount := {[Int32.mul sliceCount sliceSize := []]}]}]>
    (replicate (S optimal) ∅).

(** The loop choosing [bestLeader].  It ranges over the sorted key slice
    with a single loop variable, which in Go is the index. *)
Definition pickLeader (layer : gmap Z (gmap Z (list loc)))
  : Z * gmap Z (list loc) :=
  foldl
    (fun best j =>
       let leadersLeft := Int32.wrap (Z.of_nat j) in
       if (best.1 <? leadersLeft) && (leadersLeft <=? 0) then
         (leadersLeft, default ∅ (layer !! leadersLeft))
       else best)
    (Int32.min_int, ∅) (seq 0 (length (sortedKeys layer))).

(** The loop choosing [bestSlice]; it ranges over the key values. *)
Definition pickSlice (bestLeaderPlacement : gmap Z (list loc))
  : Z * option (list loc) :=
  foldl
    (fun best slicesLeft =>
       if (best.1 <? slicesLeft) && (slicesLeft <=? 0) then
         (slicesLeft, bestLeaderPlacement !! slicesLeft)
       else best)
    (Int32.min_int, None) (sortedKeys bestLeaderPlacement).

Section Placement.

(** [sortDomainsByCapacityAndEntropy] compares floating-point entropies;
    the order it leaves the slice in is taken as given. *)
Variable sortDomainsByCapacityAndEntropy :
  gmap loc domain -> list loc -> list loc.

(** The table once every domain has been visited. *)
Definition placementTable (h : gmap loc domain) (domains : list loc)
  (optimal sliceCount leaderCount sliceSize : Z) (priorizeByEntropy : bool)
  : list (gmap Z (gmap Z (list loc))) :=
  let domains :=
    if priorizeByEntropy then sortDomainsByCapacityAndEntropy h domains
    else domains in
  fillTable h domains (Z.to_nat optimal)
    (initTable (Z.to_nat optimal) sliceCount leaderCount sliceSize).

(** A [nil] result is [None]; the empty, non-nil slice is [Some []]. *)
Definition selectOptimalDomainSetToFit (h : gmap loc domain)
  (domains : list loc) (sliceCount leaderCount sliceSize : Z)
  (priorizeByEntropy : bool) : outcome (option (list loc)) :=
  let '(fit, optimalNumberOfDomains, _, _) :=
    simulateGreedy h domains sliceCount leaderCount in
  if negb fit then Returns None
  else if Int32.add optimalNumberOfDomains 1 <=? 0 then
    Panics   (* make with a negative length, or index 0 of an empty slice *)
  else
    let tbl :=
      placementTable h domains optimalNumberOfDomains
        sliceCount leaderCount sliceSize priorizeByEntropy in
    let bestLeaderPlacement :=
      (pickLeader (tbl !!! Z.to_nat optimalNumberOfDomains)).2 in
    Returns (pickSlice bestLeaderPlacement).2.

(** ** The balancer *)

(** One iteration of the loop over the sorted selection: the record
    written to the domain, and the counters after it. *)
Definition balanceStep (d : domain) (sliceSize threshold : Z)
  (extraSlicesLeft leadersLeft : Z) : domain * Z * Z :=
  let '(extraSlicesToTake, leader, leadersLeft') :=
    if 0 <? leadersLeft then
      (Z.min (Int32.sub (sliceStateWithLeader d) threshold) extraSlicesLeft,
       1, Int32.sub leadersLeft 1)
    else if 0 <? extraSlicesLeft then
      (Z.min (Int32.sub (sliceState d) threshold) extraSlicesLeft,
       0, leadersLeft)
    else (0, 0, leadersLeft) in
  let st := Int32.mul (Int32.add threshold extraSlicesToTake) sliceSize in
  let ss := Int32.add threshold extraSlicesToTake in
  (mkDomain ss (Int32.sub ss leader) leader st (Int32.sub st leader)
     (children d),
   Int32.sub extraSlicesLeft extraSlicesToTake, leadersLeft').

Fixpoint balanceLoop (h : gmap loc domain) (resultDomains : list loc)
  (sliceSize threshold extraSlicesLeft leadersLeft : Z)
  : gmap loc domain * Z * Z :=
  match resultDomains with
  | [] => (h, extraSlicesLeft, leadersLeft)
  | p :: rest =>
      let '(d', extraSlicesLeft', leadersLeft') :=
        balanceStep (deref h p) sliceSize threshold
          extraSlicesLeft leadersLeft in
      balanceLoop (<[p := d']> h) rest sliceSize threshold
        extraSlicesLeft' leadersLeft'
  end.

(** Result: the heap after the call, the returned slice ([None] is [nil])
    and the diagnostic. *)
Definition placeSlicesOnDomainsBalanced (h : gmap loc domain)
  (domains : list loc) (sliceCount leaderCount sliceSize threshold : Z)
  : outcome (gmap loc domain * option (list loc) * string) :=
  match selectOptimalDomainSetToFit h domains sliceCount leaderCount
          sliceSize false with
  | Panics => Panics
  | Returns None =>
      Returns (h, None,
        "TAS Balanced Placement Error: Cannot find optimal domain set to fit"%string)
  | Returns (Some resultDomains) =>
      if sliceCount <? Int32.mul (Int32.of_len resultDomains) threshold then
        Returns (h, None,
          "TAS Balanced Placement Error: Not enough slices to meet the threshold"%string)
      else
        let resultDomains := sortedDomainsWithLeader h resultDomains false in
        let extraSlicesLeft :=
          Int32.sub sliceCount
            (Int32.mul (Int32.of_len resultDomains) threshold) in
        let '(h', extraSlicesLeft, leadersLeft) :=
          balanceLoop h resultDomains sliceSize threshold
            extraSlicesLeft leaderCount in
        if (0 <? extraSlicesLeft) || (0 <? leadersLeft) then
          Returns (h', None,
            "TAS Balanced Placement Error: Not all slices or leaders could be placed"%string)
        else Returns (h', Some resultDomains, EmptyString)
  end.

End Placement.

(** * Definitions of the properties *)

(** ** Invariants of the placement table *)

(** Every placement stored in a layer satisfies [P]. *)
Definition cells_all (P : list loc -> Prop) (c : gmap Z (gmap Z (list loc)))
  : Prop :=
  forall leader inner st pl,
    c !! leader = Some inner -> inner !! st = Some pl -> P pl.

(** What holds of a placement stored in layer [i] once the domains
    [seen] have been visited. *)
Definition placement_inv (seen : list loc) (i : nat) (pl : list loc) : Prop :=
  length pl = i /\ pl `sublist_of` seen.

Definition table_inv (seen : list loc)
  (tbl : list (gmap Z (gmap Z (list loc)))) : Prop :=
  forall i c, tbl !! i = Some c -> cells_all (placement_inv seen i) c.

(** ** Reading the result of the simulator *)

Definition greedy_fits (r : bool * Z * option loc * option loc) : bool := r.1.1.1.
Definition greedy_count (r : bool * Z * option loc * option loc) : Z := r.1.1.2.
Definition greedy_lastWithLeader (r : bool * Z * option loc * option loc)
  : option loc := r.1.2.
Definition greedy_last (r : bool * Z * option loc * option loc) : option loc := r.2.

(** Sum of a field over a list of domains. *)
Definition total (h : gmap loc domain) (f : domain -> Z) (l : list loc) : Z :=
  foldr (fun p acc => f (deref h p) + acc) 0 l.

(** ** Threshold, candidates and balancer *)

(** The threshold as the specification words it: the floor of the mean,
    clamped to the capacity of the last domain taken with a leader and of
    the last domain taken without one, where present. *)
Definition threshold_spec (h : gmap loc domain) (sliceCount : Z)
  (r : bool * Z * option loc * option loc) : Z :=
  let t := sliceCount / greedy_count r in
  let t := match greedy_lastWithLeader r with
           | Some p => Z.min t (sliceStateWithLeader (deref h p))
           | None => t
           end in
  match greedy_last r with
  | Some p => Z.min t (sliceState (deref h p))
  | None => t
  end.

(** The starting domain covers the request. *)
Definition covers (d : domain) (sliceCount leaderCount : Z) : Prop :=
  sliceCount <= sliceStateWithLeader d /\ leaderCount <= leaderState d.

(** The path condition of the division in [balanceThresholdValue]: none
    of the three early returns was taken. *)
Definition divisionReached (h : gmap loc domain) (startingDomain : domain)
  (sliceCount leaderCount : Z) (balanceOnChildren : bool) : Prop :=
  (sliceCount =? 0) && (leaderCount =? 0) = false /\
  (sliceStateWithLeader startingDomain <? sliceCount) ||
    (leaderState startingDomain <? leaderCount) = false /\
  greedy_fits
    (simulateGreedy h (domainsToBalance h startingDomain balanceOnChildren)
       sliceCount leaderCount) = true.

(** What the loop has written to a selected domain. *)
Definition balanced (threshold : Z) (before after : domain) : Prop :=
  Z.min threshold (Z.min (sliceStateWithLeader before) (sliceState before))
    <= sliceState after /\
  0 <= sliceState after /\
  (leaderState after = 0 \/ leaderState after = 1) /\
  sliceStateWithLeader after = sliceState after - leaderState after.

Definition msgNoDomainSet : string :=
  "TAS Balanced Placement Error: Cannot find optimal domain set to fit".
Definition msgThreshold : string :=
  "TAS Balanced Placement Error: Not enough slices to meet the threshold".
Definition msgNotPlaced : string :=
  "TAS Balanced Placement Error: Not all slices or leaders could be placed".

(** The candidates as the balancer theorems need them: pairwise distinct,
    with 32-bit fields and the capacities of data-model invariant 1. *)
Definition candidates_ok (h : gmap loc domain) (domains : list loc) : Prop :=
  NoDup domains /\ typed h domains /\
  Forall (fun p => capacity_inv (deref h p)) domains.

(** The threshold is non-negative and its product with the optimal domain
    count, the [len * threshold] of the balancer, fits 32 bits. *)
Definition threshold_ok (h : gmap loc domain) (domains : list loc)
  (sliceCount leaderCount threshold : Z) : Prop :=
  0 <= threshold /\
  threshold * greedy_count (simulateGreedy h domains sliceCount leaderCount)
    <= Int32.max_int.

(** What remains of data-model invariant 1 after the balancer has
    written a domain: the capacity with a leader does not exceed the
    capacity, the capacity is non-negative, and the capacity with a leader
    is negative only on a domain made leader with no slice, where it is
    [-1]. *)
Definition capacity_inv_after (d : domain) : Prop :=
  sliceStateWithLeader d <= sliceState d /\ 0 <= sliceState d /\
  -1 <= sliceStateWithLeader d /\
  (sliceStateWithLeader d < 0 -> leaderState d = 1 /\ sliceState d = 0).

(** ** The winner cell *)

(** The largest key that is at most zero, if any. *)
Definition largestNonPositive (keys : list Z) : option Z :=
  foldl
    (fun best k =>
       if k <=? 0 then
         match best with
         | Some b => Some (Z.max b k)
         | None => Some k
         end
       else best)
    None keys.

(** The winning cell as the specification words it (section 4.5, step 5):
    the largest [l <= 0] among the reached leader counts, then, within it,
    the largest [s <= 0]; the list stored there. *)
Definition winner_spec (layer : gmap Z (gmap Z (list loc)))
  : option (list loc) :=
  match largestNonPositive (sortedKeys layer) with
  | None => None
  | Some leader =>
      let inner := default ∅ (layer !! leader) in
      match largestNonPositive (sortedKeys inner) with
      | None => None
      | Some st => inner !! st
      end
  end.

(** ** Scenarios *)

(** A leaf domain for slices of size one. *)
Definition leaf (ss sswl ls : Z) : domain := mkDomain ss sswl ls ss sswl [].

(** The heap holding the given domains at locations [0], [1], ... *)
Definition heap_of (l : list domain) : gmap loc domain :=
  list_to_map (zip (seq 0 (length l)) l).

(** A reordering that keeps the slice as it is. *)
Definition keepOrder (h : gmap loc domain) (l : list loc) : list loc := l.

Definition heap_after
  (o : outcome (gmap loc domain * option (list loc) * string))
  : gmap loc domain :=
  match o with
  | Returns (h', _, _) => h'
  | Panics => ∅
  end.

(** Four children of capacity four; ten slices, no leader (scenario S3). *)
Definition fourEqual : gmap loc domain :=
  heap_of [leaf 4 4 1; leaf 4 4 1; leaf 4 4 1; leaf 4 4 1].
Definition fourEqualRoot : domain := mkDomain 16 16 1 16 16 [0; 1; 2; 3]%nat.

(** Two children of capacity two; five slices (scenario S5). *)
Definition twoSmall : gmap loc domain := heap_of [leaf 2 2 1; leaf 2 2 1].

(** One domain able to host two leaders. *)
Definition twoLeaders : gmap loc domain := heap_of [leaf 3 3 2].


(** Three domains that no two sort keys tie on: the first two can host
    the leader, the third has room for slices only; thirteen slices and
    one leader are requested. *)
Definition tieFree : gmap loc domain :=
  heap_of [leaf 3 3 1; leaf 10 4 1; leaf 9 0 0].
Definition tieFreeRoot : domain := mkDomain 22 22 1 22 22 [0; 1; 2]%nat.

(** Five slices over domains of capacity one, two and four. *)
Definition oneTwoFour : gmap loc domain :=
  heap_of [leaf 1 1 0; leaf 2 0 0; leaf 4 0 0].
Definition oneTwoFourRoot : domain := mkDomain 7 7 0 7 7 [0; 1; 2]%nat.

(** A domain with room for slices only when it hosts no leader. *)
Definition leaderOnly : gmap loc domain := heap_of [leaf 5 0 1].
Definition leaderOnlyRoot : domain := mkDomain 5 0 1 5 0 [0%nat].

(** A domain that can host the leader and one that cannot (scenario S4). *)
Definition leaderAndFollower : gmap loc domain :=
  heap_of [leaf 5 4 1; leaf 5 0 0].

(** * Definitions of further properties *)

(** The capacity of a domain that counts for slices: its [sliceState]
    when positive. *)
Definition positiveSlices (d : domain) : Z := Z.max 0 (sliceState d).

(** How the slices a domain ends with compare with what it could hold
    before the call: a domain made leader holds at most its capacity with
    a leader; another holds at most its capacity, or exactly the
    threshold. *)
Definition within_capacity (threshold : Z) (before after : domain) : Prop :=
  (leaderState after = 1 /\
   sliceState after <= sliceStateWithLeader before) \/
  (leaderState after = 0 /\
   (sliceState after <= sliceState before \/ sliceState after = threshold)).

(** Every cell of a layer satisfies [P], keys included. *)
Definition cells_keyed (P : Z -> Z -> list loc -> Prop)
  (c : gmap Z (gmap Z (list loc))) : Prop :=
  forall leader inner st pl,
    c !! leader = Some inner -> inner !! st = Some pl -> P leader st pl.

(** A selection with the role of each domain: [true] when the domain is
    taken with a leader.  The leaders the roles account for, and the
    capacity in units they offer. *)
Definition leadersUsed (h : gmap loc domain) (roles : list (loc * bool)) : Z :=
  foldr (fun (pb : loc * bool) (acc : Z) =>
           (if pb.2 then leaderState (deref h pb.1) else 0) + acc) 0 roles.

Definition unitsUsed (h : gmap loc domain) (roles : list (loc * bool)) : Z :=
  foldr (fun (pb : loc * bool) (acc : Z) =>
           (if pb.2 then stateWithLeader (deref h pb.1)
            else state (deref h pb.1)) + acc) 0 roles.

(** The dynamic program takes a domain with a leader only if it can host
    one, and without a leader only if it has room for a slice. *)
Definition role_ok (h : gmap loc domain) (pb : loc * bool) : Prop :=
  if pb.2 then 0 < leaderState (deref h pb.1)
  else 0 < sliceState (deref h pb.1).

(** What the keys of a cell say about the list stored in it: the leaders
    left and the units left are the request less what the domains of the
    list account for under some assignment of roles. *)
Definition cell_inv (h : gmap loc domain) (leaderCount units : Z)
  (leader st : Z) (pl : list loc) : Prop :=
  exists roles,
    roles.*1 = pl /\ Forall (role_ok h) roles /\
    Int32.in_range leader /\
    leader = leaderCount - leadersUsed h roles /\
    st = Int32.wrap (units - unitsUsed h roles).

(** The larger of the two capacities in units. *)
Definition unitCapacity (d : domain) : Z := Z.max (state d) (stateWithLeader d).

(** How the balancer derives three capacity fields of a domain it writes
    from the slices and the leader it assigns. *)
Definition derived_fields (sliceSize : Z) (d : domain) : Prop :=
  state d = Int32.mul (sliceState d) sliceSize /\
  sliceStateWithLeader d = Int32.sub (sliceState d) (leaderState d) /\
  stateWithLeader d = Int32.sub (state d) (leaderState d).

(** ** The comparator of [sortDomainsByCapacityAndEntropy]

    The function pairs every domain with the entropy of its children, a
    [float64], and sorts the pairs with the comparator below.  The two
    comparisons of entropies are kept abstract: [greater x y] is [x > y]
    and [less x y] is [x < y] on the entropies.  The difference of the
    capacities is an [int32] and is widened to [int] as it is. *)
Section Comparator.
Context {E : Type} (greater less : E -> E -> bool).

Record domainWithEntropy : Type :=
  mkDomainWithEntropy { dwe_d : loc; dwe_entropy : E }.

Definition compareDomainsWithEntropy (h : gmap loc domain)
  (a b : domainWithEntropy) : Z :=
  let r := Int32.sub (sliceState (deref h (dwe_d b)))
             (sliceState (deref h (dwe_d a))) in
  if negb (r =? 0) then r
  else if greater (dwe_entropy b) (dwe_entropy a) then 1
  else if less (dwe_entropy b) (dwe_entropy a) then -1
  else 0.

End Comparator.

(** ** The winner cell and the threshold floor *)



(** The floor the balancer keeps under the slices of a domain it
    returns: the threshold, or the capacity the domain had for the role
    it was given when that is less. *)
Definition threshold_floor (threshold : Z) (before after : domain) : Prop :=
  (leaderState after = 1 /\
   Z.min threshold (sliceStateWithLeader before) <= sliceState after) \/
  (leaderState after = 0 /\
   Z.min threshold (sliceState before) <= sliceState after).

(** * Properties *)

(** ** 32-bit arithmetic *)

Lemma wrap_in_range z : Int32.in_range (Int32.wrap z).
Proof.
  unfold Int32.in_range, Int32.wrap, Int32.min_int, Int32.max_int.
  pose proof (Z.mod_pos_bound (z + 2 ^ 31) (2 ^ 32) ltac:(lia)). lia.
Qed.

Lemma wrap_small z : Int32.in_range z -> Int32.wrap z = z.
Proof.
  unfold Int32.in_range, Int32.wrap, Int32.min_int, Int32.max_int. intros H.
  rewrite Z.mod_small by lia. lia.
Qed.

Lemma wrap_congr a b : (a - b) mod 2 ^ 32 = 0 -> Int32.wrap a = Int32.wrap b.
Proof.
  unfold Int32.wrap. intros H.
  assert (E : (a + 2 ^ 31) mod 2 ^ 32 = (b + 2 ^ 31) mod 2 ^ 32).
  { apply Z.mod_divide in H; [|lia]. destruct H as [k Hk].
    replace (a + 2 ^ 31) with (b + 2 ^ 31 + k * 2 ^ 32) by lia.
    apply Z.mod_add. lia. }
  lia.
Qed.

Lemma wrap_sub_wrap_l a b : Int32.wrap (Int32.wrap a - b) = Int32.wrap (a - b).
Proof.
  apply wrap_congr. unfold Int32.wrap.
  pose proof (Z.div_mod (a + 2 ^ 31) (2 ^ 32) ltac:(lia)) as E.
  replace ((a + 2 ^ 31) mod 2 ^ 32 - 2 ^ 31 - b - (a - b))
    with (- ((a + 2 ^ 31) / 2 ^ 32) * 2 ^ 32) by lia.
  apply Z.mod_mul. lia.
Qed.

Lemma wrap_add_wrap_l a b : Int32.wrap (Int32.wrap a + b) = Int32.wrap (a + b).
Proof.
  replace (Int32.wrap a + b) with (Int32.wrap a - (- b)) by lia.
  rewrite wrap_sub_wrap_l. f_equal. lia.
Qed.

(** ** The stable sort is a permutation *)

Section StableSortPerm.
Context {A : Type} (before : A -> A -> bool).

Lemma insert_sorted_perm x l : insert_sorted before x l ≡ₚ x :: l.
Proof.
  induction l as [|y l IH]; simpl; [done|].
  destruct (before x y); [done|].
  rewrite IH. apply Permutation_swap.
Qed.

Lemma stable_sort_perm l : stable_sort before l ≡ₚ l.
Proof.
  induction l as [|x l IH]; simpl; [done|].
  rewrite insert_sorted_perm. by rewrite IH.
Qed.

End StableSortPerm.

(** ** Invariants of the placement table *)

Lemma elem_of_sortedKeys {V} (m : gmap Z V) (k : Z) :
  k ∈ sortedKeys m -> is_Some (m !! k).
Proof.
  unfold sortedKeys. rewrite merge_sort_Permutation.
  intros [[k' v] [-> Hin]]%list_elem_of_fmap.
  apply elem_of_map_to_list in Hin. eauto.
Qed.

Lemma foldl_invariant {A B} (I : A -> Prop) (f : A -> B -> A) (l : list B) a :
  I a -> (forall a b, b ∈ l -> I a -> I (f a b)) -> I (foldl f a l).
Proof.
  revert a. induction l as [|b l IH]; intros a Ha Hf; simpl; [done|].
  apply IH.
  - apply Hf; [left | done].
  - intros a' b' Hb'. apply Hf. by right.
Qed.

Lemma cells_all_empty P : cells_all P ∅.
Proof. intros leader inner st pl H. by rewrite lookup_empty in H. Qed.

Lemma cells_all_mono (P Q : list loc -> Prop) c :
  (forall pl, P pl -> Q pl) -> cells_all P c -> cells_all Q c.
Proof. intros HPQ Hc leader inner st pl H1 H2. eauto. Qed.

Lemma writeIfAbsent_all P cur leader st pl :
  cells_all P cur -> P pl -> cells_all P (writeIfAbsent cur leader st pl).
Proof.
  intros Hcur Hpl. unfold writeIfAbsent.
  destruct (cur !! leader) as [inner|] eqn:E.
  - destruct (inner !! st) eqn:E'; [done|].
    intros l' inner' s' pl'. rewrite lookup_insert.
    case_decide as Hl; [|by apply Hcur].
    subst l'. intros [= <-]. rewrite lookup_insert.
    case_decide; [by intros [= <-] | by apply (Hcur leader inner)].
  - intros l' inner' s' pl'. rewrite lookup_insert.
    case_decide as Hl; [|by apply Hcur].
    intros [= <-]. rewrite lookup_singleton_Some. by intros [_ <-].
Qed.

Lemma extendCell_all P h p bl bs before cur :
  cells_all P cur -> P (before ++ [p]) ->
  cells_all P (extendCell h p bl bs before cur).
Proof.
  intros Hcur Hnew. unfold extendCell.
  destruct ((bl <=? 0) && (bs <=? 0)); [done|].
  destruct ((0 <? bl) && (0 <? leaderState (deref h p)));
    destruct (0 <? sliceState (deref h p));
    auto using writeIfAbsent_all.
Qed.

Lemma extendLayer_all (P Q : list loc -> Prop) h p prev cur :
  cells_all P prev -> (forall pl, P pl -> Q (pl ++ [p])) ->
  cells_all Q cur -> cells_all Q (extendLayer h p prev cur).
Proof.
  intros Hprev Hstep Hcur. unfold extendLayer.
  apply foldl_invariant; [done|].
  intros c bl [inner Hinner]%elem_of_sortedKeys Hc. rewrite Hinner. simpl.
  apply foldl_invariant; [done|].
  intros c' bs [pl Hpl]%elem_of_sortedKeys Hc'. rewrite Hpl. simpl.
  apply extendCell_all; [done|]. apply Hstep. by apply (Hprev bl inner bs).
Qed.

Lemma forEachCount_length h p k tbl :
  length (forEachCount h p k tbl) = length tbl.
Proof.
  revert tbl. induction k as [|j IH]; intros tbl; simpl; [done|].
  by rewrite IH, length_insert.
Qed.

(** While the layers are updated from the top down, the layers not yet
    visited still satisfy the old invariant [P] and the others the new
    one [Q]. *)
Lemma forEachCount_all (P Q : nat -> list loc -> Prop) h p k tbl :
  (forall i pl, P i pl -> Q i pl) ->
  (forall i pl, P i pl -> Q (S i) (pl ++ [p])) ->
  (forall i c, tbl !! i = Some c -> (i <= k)%nat -> cells_all (P i) c) ->
  (forall i c, tbl !! i = Some c -> (k < i)%nat -> cells_all (Q i) c) ->
  forall i c, forEachCount h p k tbl !! i = Some c -> cells_all (Q i) c.
Proof.
  intros Hweak Hstep. revert tbl.
  induction k as [|j IH]; intros tbl Hlow Hhigh i c Hi; simpl in Hi.
  - destruct (decide (i = O)) as [->|Hne].
    + eapply cells_all_mono; [apply Hweak|]. eapply Hlow; [done|lia].
    + eapply Hhigh; [done|lia].
  - eapply IH; [| |exact Hi].
    + intros i' c' Hi' Hle.
      rewrite list_lookup_insert_ne in Hi' by lia.
      eapply Hlow; [done|lia].
    + intros i' c' Hi' Hlt.
      destruct (decide (i' = S j)) as [->|Hne].
      * apply list_lookup_insert_Some in Hi' as [(_ & <- & _)|(? & _)]; [|done].
        apply (extendLayer_all (P j)); [|apply Hstep|].
        -- rewrite list_lookup_total_alt.
           destruct (tbl !! j) as [cj|] eqn:Ej; simpl.
           ++ eapply Hlow; [done|lia].
           ++ apply cells_all_empty.
        -- rewrite list_lookup_total_alt.
           destruct (tbl !! S j) as [cj|] eqn:Ej; simpl.
           ++ eapply cells_all_mono; [apply Hweak|]. eapply Hlow; [done|lia].
           ++ apply cells_all_empty.
      * rewrite list_lookup_insert_ne in Hi' by lia.
        eapply Hhigh; [done|lia].
Qed.

Lemma initTable_inv k sliceCount leaderCount sliceSize :
  table_inv [] (initTable k sliceCount leaderCount sliceSize).
Proof.
  intros i c Hi. unfold initTable in Hi.
  apply list_lookup_insert_Some in Hi as [(<- & <- & _)|(Hne & Hi)].
  - intros leader inner st pl.
    rewrite lookup_singleton_Some. intros [_ <-].
    rewrite lookup_singleton_Some. intros [_ <-]. by split.
  - apply lookup_replicate in Hi as [-> _]. apply cells_all_empty.
Qed.

Lemma fillTable_inv h domains k seen tbl :
  table_inv seen tbl -> table_inv (seen ++ domains) (fillTable h domains k tbl).
Proof.
  unfold fillTable. revert seen tbl.
  induction domains as [|p ds IH]; intros seen tbl Htbl; simpl.
  - by rewrite app_nil_r.
  - replace (seen ++ p :: ds) with ((seen ++ [p]) ++ ds)
      by (by rewrite <- app_assoc).
    apply IH. intros i c Hi.
    eapply (forEachCount_all (placement_inv seen) (placement_inv (seen ++ [p])));
      [| | | |exact Hi].
    + intros j pl [Hlen Hsub]. split; [done|]. by apply sublist_inserts_r.
    + intros j pl [Hlen Hsub]. split.
      * rewrite length_app. simpl. lia.
      * by apply sublist_app.
    + intros j c' Hj _. by apply Htbl.
    + intros j c' Hj _. eapply cells_all_mono; [|by apply Htbl].
      intros pl [Hlen Hsub]. split; [done|]. by apply sublist_inserts_r.
Qed.

Lemma fillTable_length h domains k tbl :
  length (fillTable h domains k tbl) = length tbl.
Proof.
  unfold fillTable. revert tbl.
  induction domains as [|p ds IH]; intros tbl; simpl; [done|].
  by rewrite IH, forEachCount_length.
Qed.

(** The winner loops only ever return a placement stored in the layer. *)
Lemma pickLeader_stored layer :
  (pickLeader layer).2 = ∅ \/
  exists leader, layer !! leader = Some (pickLeader layer).2.
Proof.
  unfold pickLeader.
  apply (foldl_invariant
           (fun best : Z * gmap Z (list loc) =>
              best.2 = ∅ \/ exists leader, layer !! leader = Some best.2));
    [by left|].
  intros best j _ Hbest.
  destruct ((best.1 <? Int32.wrap (Z.of_nat j)) && (Int32.wrap (Z.of_nat j) <=? 0));
    [|done].
  simpl. destruct (layer !! Int32.wrap (Z.of_nat j)) eqn:E; simpl; eauto.
Qed.

Lemma pickSlice_stored (m : gmap Z (list loc)) pl :
  (pickSlice m).2 = Some pl -> exists st, m !! st = Some pl.
Proof.
  unfold pickSlice.
  apply (foldl_invariant
           (fun best : Z * option (list loc) =>
              best.2 = Some pl -> exists st, m !! st = Some pl)); [done|].
  intros best s _ Hbest.
  destruct ((best.1 <? s) && (s <=? 0)); [|done]. simpl. eauto.
Qed.

Lemma total_app h f l k : total h f (l ++ k) = total h f l + total h f k.
Proof. induction l as [|p l IH]; simpl; [done|]. rewrite IH. lia. Qed.

Lemma typed_perm h l k : l ≡ₚ k -> typed h l -> typed h k.
Proof. unfold typed. intros Hp. by rewrite Hp. Qed.

Lemma typed_app h l k : typed h (l ++ k) <-> typed h l /\ typed h k.
Proof. unfold typed. apply Forall_app. Qed.

Lemma sortedDomains_perm h ds asc : sortedDomains h ds asc ≡ₚ ds.
Proof. apply stable_sort_perm. Qed.

Lemma sortedDomainsWithLeader_perm h ds asc :
  sortedDomainsWithLeader h ds asc ≡ₚ ds.
Proof. apply stable_sort_perm. Qed.

Lemma wrap_zero_iff k : 0 <= k < 2 ^ 32 -> Int32.wrap k = 0 -> k = 0.
Proof.
  unfold Int32.wrap. intros Hk H.
  destruct (Z_lt_le_dec k (2 ^ 31)).
  - rewrite Z.mod_small in H by lia. lia.
  - replace (k + 2 ^ 31) with (k - 2 ^ 31 + 1 * 2 ^ 32) in H by lia.
    rewrite Z.mod_add in H by lia. rewrite Z.mod_small in H by lia. lia.
Qed.

(** ** The feasibility simulator *)

(** The leader loop, step by step: the domains it takes form a prefix of
    the sorted slice; each was taken while leaders were still missing and
    is leader-eligible; the loop stops when no leader is missing, when the
    slice is exhausted, or at the first domain that is not eligible. *)
Lemma takeLeaders_spec h sorted count remL remS last0 :
  typed h sorted ->
  Int32.in_range count -> Int32.in_range remL -> Int32.in_range remS ->
  let g := takeLeaders h sorted count remL remS last0 in
  exists taken,
    sorted = taken ++ g_rest g /\
    Forall (fun p => 0 < leaderState (deref h p)) taken /\
    (forall pre p post, taken = pre ++ p :: post ->
       0 < remL - total h leaderState pre) /\
    g_count g = Int32.wrap (count + Z.of_nat (length taken)) /\
    g_leaders g = remL - total h leaderState taken /\
    g_slices g = Int32.wrap (remS - total h sliceStateWithLeader taken) /\
    g_last g = from_option Some last0 (last taken) /\
    (g_leaders g <= 0 \/ g_rest g = [] \/
     exists p rest, g_rest g = p :: rest /\ leaderState (deref h p) <= 0).
Proof.
  intros Hty. revert count remL remS last0.
  assert (Hnil : forall l count remL remS last0,
    Int32.in_range count -> Int32.in_range remS ->
    (remL <= 0 \/ l = [] \/
     exists p rest, l = p :: rest /\ leaderState (deref h p) <= 0) ->
    exists taken,
      l = taken ++ l /\
      Forall (fun p => 0 < leaderState (deref h p)) taken /\
      (forall pre p post, taken = pre ++ p :: post ->
         0 < remL - total h leaderState pre) /\
      count = Int32.wrap (count + Z.of_nat (length taken)) /\
      remL = remL - total h leaderState taken /\
      remS = Int32.wrap (remS - total h sliceStateWithLeader taken) /\
      last0 = from_option Some last0 (last taken) /\
      (remL <= 0 \/ l = [] \/
       exists p rest, l = p :: rest /\ leaderState (deref h p) <= 0)).
  { intros l count remL remS last0 Hc Hs Hstop. exists []. simpl.
    repeat split; auto.
    - intros pre q post E. by destruct pre.
    - rewrite Z.add_0_r. symmetry. by apply wrap_small.
    - lia.
    - rewrite Z.sub_0_r. symmetry. by apply wrap_small. }
  induction sorted as [|p rest IH]; intros count remL remS last0 Hc HL HS; simpl.
  - apply Hnil; auto.
  - apply Forall_cons in Hty as [Hp Hty].
    destruct (0 <? remL) eqn:E1; simpl.
    + destruct (0 <? leaderState (deref h p)) eqn:E2; simpl.
      * apply Z.ltb_lt in E1, E2.
        destruct Hp as (_ & _ & Hls & _).
        assert (Hsub : Int32.sub remL (leaderState (deref h p))
                       = remL - leaderState (deref h p)).
        { apply wrap_small. unfold Int32.in_range, Int32.min_int,
            Int32.max_int in *. lia. }
        rewrite Hsub.
        destruct (IH Hty (Int32.add count 1) (remL - leaderState (deref h p))
                    (Int32.sub remS (sliceStateWithLeader (deref h p)))
                    (Some p))
          as (taken & Eq & Hel & Hpre & Hc' & Hl & Hs & Hlast & Hstop).
        { apply wrap_in_range. }
        { unfold Int32.in_range, Int32.min_int, Int32.max_int in *. lia. }
        { apply wrap_in_range. }
        exists (p :: taken). simpl. repeat split.
        -- by f_equal.
        -- by constructor.
        -- intros pre q post E. destruct pre as [|x pre]; simpl in *.
           ++ lia.
           ++ injection E as -> ->.
              specialize (Hpre pre q post eq_refl). lia.
        -- rewrite Hc'. unfold Int32.add. rewrite wrap_add_wrap_l.
           f_equal. lia.
        -- rewrite Hl. lia.
        -- rewrite Hs. unfold Int32.sub. rewrite wrap_sub_wrap_l.
           f_equal. lia.
        -- rewrite Hlast. destruct taken as [|q taken']; [done|].
           change (last (p :: q :: taken')) with (last (q :: taken')).
           destruct (last (q :: taken')) eqn:El; [done|].
           by apply last_None in El.
        -- exact Hstop.
      * apply Z.ltb_ge in E2. apply Hnil; auto.
        right. right. exists p, rest. by split.
    + apply Z.ltb_ge in E1. apply Hnil; auto.
Qed.

Lemma takeSlices_spec h sorted count remS last0 :
  typed h sorted -> Int32.in_range count -> Int32.in_range remS ->
  exists taken rest,
    sorted = taken ++ rest /\
    Forall (fun p => 0 < sliceState (deref h p)) taken /\
    (forall pre p post, taken = pre ++ p :: post ->
       0 < remS - total h sliceState pre) /\
    takeSlices h sorted count remS last0 =
      (Int32.wrap (count + Z.of_nat (length taken)),
       remS - total h sliceState taken,
       from_option Some last0 (last taken)).
Proof.
  intros Hty. revert count remS last0.
  assert (Hnil : forall l count remS last0,
    Int32.in_range count ->
    exists taken rest,
      l = taken ++ rest /\
      Forall (fun p => 0 < sliceState (deref h p)) taken /\
      (forall pre p post, taken = pre ++ p :: post ->
         0 < remS - total h sliceState pre) /\
      (count, remS, last0) =
        (Int32.wrap (count + Z.of_nat (length taken)),
         remS - total h sliceState taken,
         from_option Some last0 (last taken))).
  { intros l count remS last0 Hc. exists [], l. simpl. repeat split; auto.
    - intros pre q post E. by destruct pre.
    - rewrite Z.add_0_r, Z.sub_0_r. by rewrite wrap_small. }
  induction sorted as [|p rest IH]; intros count remS last0 Hc HS; simpl.
  - by apply Hnil.
  - apply Forall_cons in Hty as [Hp Hty].
    destruct (0 <? remS) eqn:E1; simpl; [|by apply Hnil].
    destruct (0 <? sliceState (deref h p)) eqn:E2; simpl; [|by apply Hnil].
    apply Z.ltb_lt in E1, E2.
    destruct Hp as (Hss & _).
    assert (Hsub : Int32.sub remS (sliceState (deref h p))
                   = remS - sliceState (deref h p)).
    { apply wrap_small. unfold Int32.in_range, Int32.min_int,
        Int32.max_int in *. lia. }
    rewrite Hsub.
    destruct (IH Hty (Int32.add count 1) (remS - sliceState (deref h p))
                (Some p))
      as (taken & rest' & Eq & Hel & Hpre & Hres).
    { apply wrap_in_range. }
    { unfold Int32.in_range, Int32.min_int, Int32.max_int in *. lia. }
    exists (p :: taken), rest'. simpl. repeat split.
    + by f_equal.
    + by constructor.
    + intros pre q post E. destruct pre as [|x pre]; simpl in *.
      * lia.
      * injection E as -> ->. specialize (Hpre pre q post eq_refl). lia.
    + rewrite Hres. f_equal; [f_equal|].
      * unfold Int32.add. rewrite wrap_add_wrap_l. f_equal. lia.
      * lia.
      * destruct taken as [|q taken']; [done|].
        change (last (p :: q :: taken')) with (last (q :: taken')).
        destruct (last (q :: taken')) eqn:El; [done|].
        by apply last_None in El.
Qed.

Lemma total_ge_length h (f : domain -> Z) l :
  Forall (fun p => 0 < f (deref h p)) l -> Z.of_nat (length l) <= total h f l.
Proof.
  induction 1 as [|p l Hp _ IH]; simpl; lia.
Qed.

(** A loop that takes a domain only while the remaining amount is positive,
    and lowers it by at least one each time, takes at most that many. *)
Lemma taken_bound h (f : domain -> Z) taken rem :
  Forall (fun p => 0 < f (deref h p)) taken ->
  (forall pre p post, taken = pre ++ p :: post -> 0 < rem - total h f pre) ->
  Z.of_nat (length taken) <= Z.max rem 0.
Proof.
  intros Hel Hpre.
  destruct taken as [|p taken' _] using rev_ind; [simpl; lia|].
  specialize (Hpre taken' p [] eq_refl).
  apply Forall_app in Hel as [Hel _].
  pose proof (total_ge_length h f taken' Hel).
  rewrite length_app. simpl. lia.
Qed.

(** The number of domains the simulator takes, before the counter is
    reduced to 32 bits. *)
Lemma simulateGreedy_count h domains sliceCount leaderCount :
  typed h domains ->
  Int32.in_range sliceCount -> Int32.in_range leaderCount ->
  greedy_fits (simulateGreedy h domains sliceCount leaderCount) = true ->
  exists k : nat,
    greedy_count (simulateGreedy h domains sliceCount leaderCount)
      = Int32.wrap (Z.of_nat k) /\
    (k <= length domains)%nat /\
    Z.of_nat k <= 2 * Int32.max_int /\
    (0 < leaderCount \/ 0 < sliceCount -> (1 <= k)%nat).
Proof.
  intros Hty HS HL. unfold simulateGreedy.
  assert (Hmax : forall z, Int32.in_range z -> Z.max z 0 <= Int32.max_int).
  { unfold Int32.in_range, Int32.max_int. lia. }
  destruct (0 <? leaderCount) eqn:EL.
  - apply Z.ltb_lt in EL. unfold leaderPhase.
    pose proof (sortedDomainsWithLeader_perm h domains false) as Hperm.
    destruct (takeLeaders_spec h (sortedDomainsWithLeader h domains false)
                0 leaderCount sliceCount None)
      as (taken1 & Eq1 & Hel1 & Hpre1 & Hc1 & Hl1 & Hs1 & _ & _).
    { by eapply typed_perm. }
    { unfold Int32.in_range, Int32.min_int, Int32.max_int. lia. }
    { done. } { done. }
    set (g := takeLeaders h (sortedDomainsWithLeader h domains false)
                0 leaderCount sliceCount None) in *.
    simpl. destruct (0 <? g_leaders g) eqn:EG; [done|].
    apply Z.ltb_ge in EG.
    assert (Hrest : typed h (g_rest g)).
    { eapply typed_perm in Hty; [|symmetry; exact Hperm].
      rewrite Eq1 in Hty. by apply typed_app in Hty as [_ ?]. }
    destruct (takeSlices_spec h (sortedDomains h (g_rest g) false)
                (g_count g) (g_slices g) None)
      as (taken2 & rest2 & Eq2 & Hel2 & Hpre2 & ->).
    { eapply typed_perm; [symmetry; apply sortedDomains_perm|done]. }
    { rewrite Hc1. apply wrap_in_range. }
    { rewrite Hs1. apply wrap_in_range. }
    destruct (0 <? g_slices g - total h sliceState taken2); [done|].
    intros _. exists (length taken1 + length taken2)%nat.
    unfold greedy_count. simpl.
    assert (Hlen : (length taken1 + length taken2 <= length domains)%nat).
    { rewrite <- Hperm, Eq1, length_app.
      rewrite <- (sortedDomains_perm h (g_rest g) false), Eq2, length_app. lia. }
    pose proof (taken_bound h leaderState taken1 leaderCount Hel1 Hpre1).
    pose proof (taken_bound h sliceState taken2 (g_slices g) Hel2 Hpre2).
    assert (Int32.in_range (g_slices g))
      by (rewrite Hs1; apply wrap_in_range).
    pose proof (Hmax _ HL). pose proof (Hmax (g_slices g) ltac:(done)).
    repeat split.
    + rewrite Hc1, wrap_add_wrap_l. f_equal. lia.
    + done.
    + lia.
    + intros _. destruct taken1; [|simpl; lia]. simpl in Hl1. lia.
  - apply Z.ltb_ge in EL. simpl.
    destruct (0 <? leaderCount) eqn:EL'; [apply Z.ltb_lt in EL'; lia|].
    destruct (takeSlices_spec h (sortedDomains h domains false)
                0 sliceCount None)
      as (taken2 & rest2 & Eq2 & Hel2 & Hpre2 & ->).
    { eapply typed_perm; [symmetry; apply sortedDomains_perm|done]. }
    { unfold Int32.in_range, Int32.min_int, Int32.max_int. lia. }
    { done. }
    destruct (0 <? sliceCount - total h sliceState taken2) eqn:ES; [done|].
    apply Z.ltb_ge in ES.
    intros _. exists (length taken2). unfold greedy_count. simpl.
    pose proof (taken_bound h sliceState taken2 sliceCount Hel2 Hpre2).
    pose proof (Hmax _ HS).
    repeat split.
    + rewrite <- (sortedDomains_perm h domains false), Eq2, length_app. lia.
    + unfold Int32.max_int in *. lia.
    + intros [?|Hpos]; [lia|]. destruct taken2; [|simpl; lia].
      simpl in ES. lia.
Qed.

Lemma simulateGreedy_count_nonzero h domains sliceCount leaderCount :
  typed h domains ->
  0 <= sliceCount <= Int32.max_int -> 0 <= leaderCount <= Int32.max_int ->
  sliceCount <> 0 \/ leaderCount <> 0 ->
  greedy_fits (simulateGreedy h domains sliceCount leaderCount) = true ->
  exists k : nat,
    (1 <= k <= length domains)%nat /\
    greedy_count (simulateGreedy h domains sliceCount leaderCount)
      = Int32.wrap (Z.of_nat k) /\
    greedy_count (simulateGreedy h domains sliceCount leaderCount) <> 0.
Proof.
  intros Hty HS HL Hnz Hfit.
  destruct (simulateGreedy_count h domains sliceCount leaderCount)
    as (k & Hc & Hlen & Hk & Hpos); auto.
  { unfold Int32.in_range, Int32.min_int, Int32.max_int in *. lia. }
  { unfold Int32.in_range, Int32.min_int, Int32.max_int in *. lia. }
  assert (1 <= k)%nat by (apply Hpos; lia).
  exists k. repeat split; [done|done|done|].
  rewrite Hc. intros H0. apply wrap_zero_iff in H0.
  - lia.
  - unfold Int32.max_int in Hk. lia.
Qed.

(** C10.  In [balanceThresholdValue], for a request with non-negative
    slice and leader counts, the division [sliceCount /
    selectedDomainsCount] never divides by zero: the call does not panic,
    and whenever the division is reached the request is not all-zero, the
    simulator has reported a fit, and it has taken at least one domain, so
    that its 32-bit counter is not zero. *)
Theorem balanceThresholdValue_no_division_by_zero
  (h : gmap loc domain) (startingDomain : domain)
  (sliceCount leaderCount : Z) (balanceOnChildren : bool) :
  typed h (domainsToBalance h startingDomain balanceOnChildren) ->
  0 <= sliceCount <= Int32.max_int -> 0 <= leaderCount <= Int32.max_int ->
  balanceThresholdValue h startingDomain sliceCount leaderCount
    balanceOnChildren <> Panics /\
  (divisionReached h startingDomain sliceCount leaderCount balanceOnChildren ->
   ~ (sliceCount = 0 /\ leaderCount = 0) /\
   let r := simulateGreedy h
              (domainsToBalance h startingDomain balanceOnChildren)
              sliceCount leaderCount in
   greedy_fits r = true /\
   (exists k : nat, (1 <= k)%nat /\ greedy_count r = Int32.wrap (Z.of_nat k)) /\
   greedy_count r <> 0).
Proof.
  intros Hty HS HL.
  assert (Hreach :
    divisionReached h startingDomain sliceCount leaderCount balanceOnChildren ->
    ~ (sliceCount = 0 /\ leaderCount = 0) /\
    let r := simulateGreedy h
               (domainsToBalance h startingDomain balanceOnChildren)
               sliceCount leaderCount in
    greedy_fits r = true /\
    (exists k : nat, (1 <= k)%nat /\ greedy_count r = Int32.wrap (Z.of_nat k)) /\
    greedy_count r <> 0).
  { intros (Hz & _ & Hfit).
    assert (Hnz : sliceCount <> 0 \/ leaderCount <> 0).
    { apply andb_false_iff in Hz as [Hz|Hz]; apply Z.eqb_neq in Hz; auto. }
    split; [lia|]. simpl. split; [done|].
    destruct (simulateGreedy_count_nonzero _ _ _ _ Hty HS HL Hnz Hfit)
      as (k & [Hk _] & Hc & Hne).
    split; [|done]. exists k. by split. }
  split; [|exact Hreach].
  unfold balanceThresholdValue.
  destruct ((sliceCount =? 0) && (leaderCount =? 0)) eqn:Ez; [done|].
  destruct ((sliceStateWithLeader startingDomain <? sliceCount) ||
            (leaderState startingDomain <? leaderCount)) eqn:Ec; [done|].
  destruct (simulateGreedy h
              (domainsToBalance h startingDomain balanceOnChildren)
              sliceCount leaderCount) as [[[fits cnt] lwl] ld] eqn:Er.
  destruct fits; simpl; [|done].
  destruct Hreach as (_ & _ & _ & Hne).
  { unfold divisionReached. by rewrite Ez, Ec, ?Er. }
  rewrite ?Er in Hne. unfold greedy_count in Hne. simpl in Hne.
  apply Z.eqb_neq in Hne. by rewrite Hne.
Qed.

(** The three ways [balanceThresholdValue] returns. *)
Lemma balanceThresholdValue_cases
  (h : gmap loc domain) (startingDomain : domain)
  (sliceCount leaderCount : Z) (balanceOnChildren : bool) :
  let candidates := domainsToBalance h startingDomain balanceOnChildren in
  let r := simulateGreedy h candidates sliceCount leaderCount in
  typed h candidates ->
  Z.of_nat (length candidates) <= Int32.max_int ->
  0 <= sliceCount <= Int32.max_int -> 0 <= leaderCount <= Int32.max_int ->
  (sliceCount = 0 /\ leaderCount = 0 ->
   balanceThresholdValue h startingDomain sliceCount leaderCount
     balanceOnChildren = Returns (0, true)) /\
  (0 < sliceCount \/ 0 < leaderCount ->
   covers startingDomain sliceCount leaderCount -> greedy_fits r = true ->
   balanceThresholdValue h startingDomain sliceCount leaderCount
     balanceOnChildren = Returns (threshold_spec h sliceCount r, true)) /\
  (0 < sliceCount \/ 0 < leaderCount ->
   ~ (covers startingDomain sliceCount leaderCount /\ greedy_fits r = true) ->
   balanceThresholdValue h startingDomain sliceCount leaderCount
     balanceOnChildren = Returns (0, false)).
Proof.
  intros candidates r Hty Hlen HS HL. subst r candidates.
  unfold balanceThresholdValue.
  split; [|split].
  - intros [-> ->]. done.
  - intros Hpos [Hc1 Hc2] Hfit.
    destruct ((sliceCount =? 0) && (leaderCount =? 0)) eqn:Ez.
    { apply andb_true_iff in Ez as [?%Z.eqb_eq ?%Z.eqb_eq]. lia. }
    destruct ((sliceStateWithLeader startingDomain <? sliceCount) ||
              (leaderState startingDomain <? leaderCount)) eqn:Ec.
    { apply orb_true_iff in Ec as [?%Z.ltb_lt|?%Z.ltb_lt]; lia. }
    destruct (simulateGreedy_count_nonzero h
                (domainsToBalance h startingDomain balanceOnChildren)
                sliceCount leaderCount)
      as (k & Hk & Hc & Hne); auto; [lia|].
    unfold threshold_spec.
    unfold greedy_fits, greedy_count, greedy_lastWithLeader, greedy_last in *.
    destruct (simulateGreedy h
                (domainsToBalance h startingDomain balanceOnChildren)
                sliceCount leaderCount) as [[[fits cnt] lwl] ld].
    simpl in *. subst fits. simpl.
    apply Z.eqb_neq in Hne. rewrite Hne.
    assert (Hcnt : 0 < cnt).
    { rewrite Hc, wrap_small; [lia|].
      unfold Int32.in_range, Int32.min_int, Int32.max_int in *. lia. }
    assert (Hq : Int32.quot sliceCount cnt = sliceCount / cnt).
    { unfold Int32.quot. rewrite Z.quot_div_nonneg by lia.
      apply wrap_small.
      pose proof (Z.div_pos sliceCount cnt ltac:(lia) Hcnt).
      pose proof (Z.div_le_upper_bound sliceCount cnt sliceCount Hcnt
                    ltac:(nia)).
      unfold Int32.in_range, Int32.min_int, Int32.max_int in *. lia. }
    rewrite Hq. done.
  - intros Hpos Hnot.
    destruct ((sliceCount =? 0) && (leaderCount =? 0)) eqn:Ez.
    { apply andb_true_iff in Ez as [?%Z.eqb_eq ?%Z.eqb_eq]. lia. }
    destruct ((sliceStateWithLeader startingDomain <? sliceCount) ||
              (leaderState startingDomain <? leaderCount)) eqn:Ec; [done|].
    apply orb_false_iff in Ec as [?%Z.ltb_ge ?%Z.ltb_ge].
    unfold greedy_fits in Hnot.
    destruct (simulateGreedy h
                (domainsToBalance h startingDomain balanceOnChildren)
                sliceCount leaderCount) as [[[fits cnt] lwl] ld].
    simpl in *. destruct fits; [|done].
    exfalso. apply Hnot. unfold covers. split; [lia|done].
Qed.

(** C6.  For a request that is not all-zero, if the starting domain
    covers it and the simulator fits it on the chosen children or
    grandchildren, [balanceThresholdValue] returns the floor of
    [sliceCount / selectedDomainsCount] clamped to the capacities of the
    last domains taken, with [true]; in every other case it returns
    [(0, false)]; the all-zero request gives [(0, true)]. *)
Theorem balanceThresholdValue_spec
  (h : gmap loc domain) (startingDomain : domain)
  (sliceCount leaderCount : Z) (balanceOnChildren : bool) :
  let candidates := domainsToBalance h startingDomain balanceOnChildren in
  let r := simulateGreedy h candidates sliceCount leaderCount in
  typed h candidates ->
  Z.of_nat (length candidates) <= Int32.max_int ->
  0 <= sliceCount <= Int32.max_int -> 0 <= leaderCount <= Int32.max_int ->
  (sliceCount = 0 /\ leaderCount = 0 ->
   balanceThresholdValue h startingDomain sliceCount leaderCount
     balanceOnChildren = Returns (0, true)) /\
  (0 < sliceCount \/ 0 < leaderCount ->
   covers startingDomain sliceCount leaderCount -> greedy_fits r = true ->
   balanceThresholdValue h startingDomain sliceCount leaderCount
     balanceOnChildren = Returns (threshold_spec h sliceCount r, true)) /\
  (0 < sliceCount \/ 0 < leaderCount ->
   ~ (covers startingDomain sliceCount leaderCount /\ greedy_fits r = true) ->
   balanceThresholdValue h startingDomain sliceCount leaderCount
     balanceOnChildren = Returns (0, false)).
Proof. apply balanceThresholdValue_cases. Qed.

Lemma takeLeaders_count_in_range h sorted count remL remS last0 :
  Int32.in_range count ->
  Int32.in_range (g_count (takeLeaders h sorted count remL remS last0)).
Proof.
  revert count remL remS last0.
  induction sorted as [|p rest IH]; intros count remL remS last0 Hc; simpl;
    [done|].
  destruct ((0 <? remL) && (0 <? leaderState (deref h p))); [|done].
  apply IH, wrap_in_range.
Qed.

Lemma takeSlices_count_in_range h sorted count remS last0 :
  Int32.in_range count ->
  Int32.in_range (takeSlices h sorted count remS last0).1.1.
Proof.
  revert count remS last0.
  induction sorted as [|p rest IH]; intros count remS last0 Hc; simpl;
    [done|].
  destruct ((0 <? remS) && (0 <? sliceState (deref h p))); [|done].
  apply IH, wrap_in_range.
Qed.

Lemma simulateGreedy_count_in_range h domains sliceCount leaderCount :
  Int32.in_range (greedy_count (simulateGreedy h domains sliceCount leaderCount)).
Proof.
  assert (H0 : Int32.in_range 0)
    by (unfold Int32.in_range, Int32.min_int, Int32.max_int; lia).
  unfold simulateGreedy, greedy_count.
  set (g := if 0 <? leaderCount then _ else _).
  assert (Hg : Int32.in_range (g_count g)).
  { subst g. destruct (0 <? leaderCount); simpl; [|done].
    by apply takeLeaders_count_in_range. }
  destruct (0 <? g_leaders g); [done|].
  pose proof (takeSlices_count_in_range h (g_rest g) (g_count g) (g_slices g)
                None Hg) as Hc.
  destruct (takeSlices h (g_rest g) (g_count g) (g_slices g) None)
    as [[c s] l]. simpl in Hc.
  by destruct (0 <? s).
Qed.

(** ** The placement dynamic program *)

(** What is known of a non-nil result of [selectOptimalDomainSetToFit]:
    the simulator fitted the request, and the result is a placement stored
    in the layer of the optimal count. *)
Lemma selectOptimalDomainSetToFit_stored
  (f : gmap loc domain -> list loc -> list loc) h domains
  sliceCount leaderCount sliceSize priorizeByEntropy sel :
  selectOptimalDomainSetToFit f h domains sliceCount leaderCount sliceSize
    priorizeByEntropy = Returns (Some sel) ->
  let r := simulateGreedy h domains sliceCount leaderCount in
  greedy_fits r = true /\ 0 <= greedy_count r /\
  placement_inv (if priorizeByEntropy then f h domains else domains)
    (Z.to_nat (greedy_count r)) sel.
Proof.
  unfold selectOptimalDomainSetToFit.
  pose proof (simulateGreedy_count_in_range h domains sliceCount leaderCount)
    as Hrange.
  unfold greedy_fits, greedy_count in *.
  destruct (simulateGreedy h domains sliceCount leaderCount)
    as [[[fit opt] lwl] ld]. simpl in *.
  destruct fit; simpl; [|done].
  destruct (Int32.add opt 1 <=? 0) eqn:Eo; [done|].
  apply Z.leb_gt in Eo. intros [= Hsel].
  assert (Hopt : 0 <= opt).
  { destruct (Z_lt_le_dec opt 0) as [Hneg|]; [|done].
    unfold Int32.add in Eo. rewrite wrap_small in Eo; [lia|].
    unfold Int32.in_range, Int32.min_int, Int32.max_int in *. lia. }
  split; [done|]. split; [done|].
  apply pickSlice_stored in Hsel as [st Hst].
  unfold placementTable in Hst.
  set (ds := if priorizeByEntropy then f h domains else domains) in *.
  set (tbl := fillTable h ds (Z.to_nat opt)
                (initTable (Z.to_nat opt) sliceCount leaderCount sliceSize))
    in *.
  assert (Htbl : table_inv ds tbl).
  { apply (fillTable_inv h ds (Z.to_nat opt) []), initTable_inv. }
  destruct (pickLeader_stored (tbl !!! Z.to_nat opt)) as [HE|[leader Hl]].
  - rewrite HE in Hst. by rewrite lookup_empty in Hst.
  - rewrite list_lookup_total_alt in Hl, Hst.
    destruct (tbl !! Z.to_nat opt) as [layer|] eqn:El; simpl in Hl, Hst.
    + exact (Htbl _ _ El leader _ st _ Hl Hst).
    + by rewrite lookup_empty in Hl.
Qed.

(** C9.  On pairwise-distinct candidates, a placement returned by
    [selectOptimalDomainSetToFit] holds every domain at most once: no
    domain is taken twice, be it with and without a leader. *)
Theorem selectOptimalDomainSetToFit_NoDup
  (f : gmap loc domain -> list loc -> list loc) (h : gmap loc domain)
  (domains : list loc) (sliceCount leaderCount sliceSize : Z)
  (priorizeByEntropy : bool) (sel : list loc) :
  (forall l, f h l ≡ₚ l) ->
  NoDup domains ->
  selectOptimalDomainSetToFit f h domains sliceCount leaderCount sliceSize
    priorizeByEntropy = Returns (Some sel) ->
  NoDup sel /\ sel ⊆ domains.
Proof.
  intros Hf Hnd Hsel.
  apply selectOptimalDomainSetToFit_stored in Hsel as (_ & _ & _ & Hsub).
  assert (Hnd' : NoDup (if priorizeByEntropy then f h domains else domains)).
  { destruct priorizeByEntropy; [by rewrite Hf|done]. }
  split.
  - by eapply sublist_NoDup.
  - intros p Hp. eapply sublist_submseteq, elem_of_submseteq in Hsub; [|done].
    destruct priorizeByEntropy; [by rewrite Hf in Hsub|done].
Qed.

(** ** The balancer *)

Ltac int32_exact :=
  unfold Int32.add, Int32.sub;
  rewrite ?wrap_small
    by (unfold Int32.in_range, Int32.min_int, Int32.max_int in *; lia);
  try lia.

(** One iteration, on a domain with non-negative capacities, while the
    extra slices and the threshold still fit 32 bits together. *)
Lemma balanceStep_spec d sliceSize threshold e l d' e' l' :
  0 <= threshold ->
  0 <= sliceStateWithLeader d <= Int32.max_int ->
  0 <= sliceState d <= Int32.max_int ->
  0 <= e -> e + threshold <= Int32.max_int -> 0 <= l <= Int32.max_int ->
  balanceStep d sliceSize threshold e l = (d', e', l') ->
  0 <= e' <= e + threshold /\
  sliceState d' = threshold + e - e' /\
  Z.min threshold (Z.min (sliceStateWithLeader d) (sliceState d))
    <= sliceState d' /\
  0 <= sliceState d' /\
  leaderState d' = (if 0 <? l then 1 else 0) /\
  l' = l - leaderState d' /\
  sliceStateWithLeader d' = sliceState d' - leaderState d'.
Proof.
  intros HT Hwl Hss He HeT Hl. unfold balanceStep.
  destruct (0 <? l) eqn:El; [|destruct (0 <? e) eqn:Ee];
    intros [= <- <- <-]; simpl;
    try apply Z.ltb_lt in El; try apply Z.ltb_ge in El;
    try apply Z.ltb_lt in Ee; try apply Z.ltb_ge in Ee.
  - assert (E1 : Int32.sub (sliceStateWithLeader d) threshold
                 = sliceStateWithLeader d - threshold) by int32_exact.
    rewrite E1.
    set (t := Z.min (sliceStateWithLeader d - threshold) e).
    assert (Ht : - threshold <= t <= e) by (subst t; lia).
    assert (Ht' : t <= sliceStateWithLeader d - threshold) by (subst t; lia).
    assert (Ht'' : t = sliceStateWithLeader d - threshold \/ t = e)
      by (subst t; lia).
    assert (E2 : Int32.add threshold t = threshold + t) by int32_exact.
    assert (E3 : Int32.sub e t = e - t) by int32_exact.
    assert (E4 : Int32.sub l 1 = l - 1) by int32_exact.
    rewrite E2, E3, E4.
    assert (E5 : Int32.sub (threshold + t) 1 = threshold + t - 1)
      by int32_exact.
    rewrite E5. lia.
  - assert (E1 : Int32.sub (sliceState d) threshold
                 = sliceState d - threshold) by int32_exact.
    rewrite E1.
    set (t := Z.min (sliceState d - threshold) e).
    assert (Ht : - threshold <= t <= e) by (subst t; lia).
    assert (Ht'' : t = sliceState d - threshold \/ t = e) by (subst t; lia).
    assert (E2 : Int32.add threshold t = threshold + t) by int32_exact.
    assert (E3 : Int32.sub e t = e - t) by int32_exact.
    rewrite E2, E3.
    assert (E5 : Int32.sub (threshold + t) 0 = threshold + t) by int32_exact.
    rewrite E5. lia.
  - assert (E2 : Int32.add threshold 0 = threshold) by int32_exact.
    assert (E3 : Int32.sub e 0 = e) by int32_exact.
    rewrite E2, E3.
    assert (E5 : Int32.sub threshold 0 = threshold) by int32_exact.
    rewrite E5. lia.
Qed.

Lemma deref_insert_eq (h : gmap loc domain) p d : deref (<[p := d]> h) p = d.
Proof. unfold deref. apply lookup_total_insert_eq. Qed.

Lemma deref_insert_ne (h : gmap loc domain) p q d :
  p <> q -> deref (<[p := d]> h) q = deref h q.
Proof. unfold deref. apply lookup_total_insert_ne. Qed.

Lemma deref_frame (h h' : gmap loc domain) p :
  h' !! p = h !! p -> deref h' p = deref h p.
Proof. unfold deref. rewrite !lookup_total_alt. by intros ->. Qed.

Lemma total_frame (h h' : gmap loc domain) f l :
  (forall p, p ∈ l -> h' !! p = h !! p) -> total h' f l = total h f l.
Proof.
  induction l as [|p l IH]; intros Hfr; simpl; [done|].
  rewrite IH by (intros q Hq; apply Hfr; by right).
  rewrite (deref_frame h h' p) by (apply Hfr; left). done.
Qed.

Lemma balanceLoop_spec h sel sliceSize threshold e l h' e' l' :
  NoDup sel -> 0 <= threshold ->
  Forall (fun p => 0 <= sliceStateWithLeader (deref h p) <= Int32.max_int /\
                   0 <= sliceState (deref h p) <= Int32.max_int) sel ->
  0 <= e -> e + threshold * Z.of_nat (length sel) <= Int32.max_int ->
  0 <= l <= Int32.max_int ->
  balanceLoop h sel sliceSize threshold e l = (h', e', l') ->
  (forall q, q ∉ sel -> h' !! q = h !! q) /\
  0 <= e' /\ 0 <= l' /\
  total h' sliceState sel = threshold * Z.of_nat (length sel) + e - e' /\
  total h' leaderState sel = l - l' /\
  Forall (fun p => balanced threshold (deref h p) (deref h' p)) sel.
Proof.
  intros Hnd HT. revert h e l.
  induction sel as [|p rest IH]; intros h e l Hcap He HeT Hl.
  - simpl. intros [= <- <- <-]. repeat split; auto; lia.
  - change (length (p :: rest)) with (S (length rest)) in *.
    rewrite Nat2Z.inj_succ in *. simpl.
    apply NoDup_cons in Hnd as [Hp Hnd].
    apply Forall_cons in Hcap as [[Hwl Hss] Hcap].
    destruct (balanceStep (deref h p) sliceSize threshold e l)
      as [[d1 e1] l1] eqn:Estep.
    apply balanceStep_spec in Estep
      as (He1 & Hss1 & Hmin1 & Hpos1 & Hls1 & Hl1 & Hwl1); auto; [|nia].
    intros Hloop.
    assert (Hls01 : leaderState d1 = 0 \/ leaderState d1 = 1)
      by (rewrite Hls1; destruct (0 <? l); auto).
    assert (Hl1' : 0 <= l1 <= Int32.max_int).
    { rewrite Hl1, Hls1. destruct (0 <? l) eqn:El; [apply Z.ltb_lt in El|];
        lia. }
    apply IH in Hloop as (Hfr & He' & Hl' & Hsum & Hlsum & Hall); auto.
    + assert (Hp' : deref h' p = d1).
      { rewrite (deref_frame (<[p := d1]> h) h' p) by (by apply Hfr).
        apply deref_insert_eq. }
      repeat split; auto.
      * intros q Hq. apply not_elem_of_cons in Hq as [Hqp Hq].
        rewrite Hfr by done. by apply lookup_insert_ne.
      * rewrite Hp', Hsum, Hss1. lia.
      * rewrite Hp', Hlsum. lia.
      * constructor.
        -- rewrite Hp'. by repeat split.
        -- eapply Forall_impl; [apply Forall_and; split;
             [exact Hall|apply Forall_forall; intros q Hq; exact Hq]|].
           intros q [Hb Hq]. simpl in *.
           rewrite deref_insert_ne in Hb by (intros ->; done). done.
    + eapply Forall_impl; [apply Forall_and; split;
        [exact Hcap|apply Forall_forall; intros q Hq; exact Hq]|].
      intros q [Hc Hq]. simpl in *.
      rewrite deref_insert_ne by (intros ->; done). done.
    + lia.
    + nia.
Qed.

(** The ways [placeSlicesOnDomainsBalanced] returns: before the loop, with
    the heap as it was, or after the loop has run over the sorted
    selection. *)
Lemma placeSlicesOnDomainsBalanced_inv
  (f : gmap loc domain -> list loc -> list loc) h domains
  sliceCount leaderCount sliceSize threshold h' res diag :
  placeSlicesOnDomainsBalanced f h domains sliceCount leaderCount sliceSize
    threshold = Returns (h', res, diag) ->
  (h' = h /\ res = None /\ (diag = msgNoDomainSet \/ diag = msgThreshold)) \/
  exists sel e' l',
    selectOptimalDomainSetToFit f h domains sliceCount leaderCount sliceSize
      false = Returns (Some sel) /\
    Int32.mul (Int32.of_len sel) threshold <= sliceCount /\
    balanceLoop h (sortedDomainsWithLeader h sel false) sliceSize threshold
      (Int32.sub sliceCount
         (Int32.mul (Int32.of_len (sortedDomainsWithLeader h sel false))
            threshold))
      leaderCount = (h', e', l') /\
    ((res = None /\ diag = msgNotPlaced /\ (0 < e' \/ 0 < l')) \/
     (res = Some (sortedDomainsWithLeader h sel false) /\ diag = EmptyString /\
      e' <= 0 /\ l' <= 0)).
Proof.
  unfold placeSlicesOnDomainsBalanced.
  destruct (selectOptimalDomainSetToFit f h domains sliceCount leaderCount
              sliceSize false) as [[sel|]|] eqn:Esel; [| |done].
  - destruct (sliceCount <? Int32.mul (Int32.of_len sel) threshold) eqn:Eg.
    + intros [= <- <- <-]. left. auto.
    + apply Z.ltb_ge in Eg.
      destruct (balanceLoop h (sortedDomainsWithLeader h sel false) sliceSize
                  threshold _ leaderCount) as [[h1 e1] l1] eqn:Eloop.
      destruct ((0 <? e1) || (0 <? l1)) eqn:Ef; intros [= <- <- <-]; right;
        exists sel, e1, l1; repeat split; auto.
      * left. repeat split; auto.
        apply orb_true_iff in Ef as [?%Z.ltb_lt|?%Z.ltb_lt]; auto.
      * right. apply orb_false_iff in Ef as [?%Z.ltb_ge ?%Z.ltb_ge]. auto.
  - intros [= <- <- <-]. left. auto.
Qed.

(** C7.  When [placeSlicesOnDomainsBalanced] succeeds, the number of
    domains it returns is the optimal domain count [simulateGreedy]
    reports for the same candidates and counts. *)
Theorem placement_length_is_optimal_count
  (f : gmap loc domain -> list loc -> list loc) (h : gmap loc domain)
  (domains : list loc) (sliceCount leaderCount sliceSize threshold : Z)
  (h' : gmap loc domain) (placed : list loc) (diag : string) :
  placeSlicesOnDomainsBalanced f h domains sliceCount leaderCount sliceSize
    threshold = Returns (h', Some placed, diag) ->
  greedy_fits (simulateGreedy h domains sliceCount leaderCount) = true /\
  Z.of_nat (length placed)
    = greedy_count (simulateGreedy h domains sliceCount leaderCount).
Proof.
  intros Hrun.
  apply placeSlicesOnDomainsBalanced_inv in Hrun
    as [(_ & [=] & _)|(sel & e' & l' & Hsel & _ & _ & Hres)].
  destruct Hres as [([=] & _)|([= ->] & _)].
  apply selectOptimalDomainSetToFit_stored in Hsel as (Hfit & Hopt & Hlen & _).
  split; [done|].
  rewrite sortedDomainsWithLeader_perm, Hlen. lia.
Qed.

(** C3, amended.  When [placeSlicesOnDomainsBalanced] fails with a
    diagnostic other than "Not all slices or leaders could be placed",
    the heap is as it was before the call: no field of any domain has
    changed. *)
Theorem early_failure_leaves_domains_unchanged
  (f : gmap loc domain -> list loc -> list loc) (h : gmap loc domain)
  (domains : list loc) (sliceCount leaderCount sliceSize threshold : Z)
  (h' : gmap loc domain) (diag : string) :
  placeSlicesOnDomainsBalanced f h domains sliceCount leaderCount sliceSize
    threshold = Returns (h', None, diag) ->
  diag <> msgNotPlaced ->
  h' = h /\ (diag = msgNoDomainSet \/ diag = msgThreshold).
Proof.
  intros Hrun Hdiag.
  apply placeSlicesOnDomainsBalanced_inv in Hrun
    as [(-> & _ & Hd)|(sel & e' & l' & _ & _ & _ & Hres)]; [done|].
  destruct Hres as [(_ & -> & _)|([=] & _)]. done.
Qed.

(** What the loop leaves behind, whenever it has run. *)
Lemma placeSlicesOnDomainsBalanced_ran
  (f : gmap loc domain -> list loc -> list loc) h domains
  sliceCount leaderCount sliceSize threshold h' res diag :
  candidates_ok h domains ->
  threshold_ok h domains sliceCount leaderCount threshold ->
  0 <= sliceCount <= Int32.max_int -> 0 <= leaderCount <= Int32.max_int ->
  placeSlicesOnDomainsBalanced f h domains sliceCount leaderCount sliceSize
    threshold = Returns (h', res, diag) ->
  (h' = h /\ res = None) \/
  exists placed e' l',
    NoDup placed /\ placed ⊆ domains /\
    (forall q, q ∉ placed -> h' !! q = h !! q) /\
    0 <= e' /\ 0 <= l' /\
    total h' sliceState placed = sliceCount - e' /\
    total h' leaderState placed = leaderCount - l' /\
    Forall (fun p => balanced threshold (deref h p) (deref h' p)) placed /\
    (res = None \/ (res = Some placed /\ e' = 0 /\ l' = 0)).
Proof.
  intros (Hnd & Hty & Hcap) (HT & HTn) HS HL Hrun.
  apply placeSlicesOnDomainsBalanced_inv in Hrun
    as [(-> & -> & _)|(sel & e' & l' & Hsel & Hguard & Hloop & Hres)];
    [by left|right].
  pose proof Hsel as Hstored.
  apply selectOptimalDomainSetToFit_stored in Hstored
    as (_ & Hopt & Hlen & Hsub).
  pose proof (simulateGreedy_count_in_range h domains sliceCount leaderCount)
    as Hrange.
  set (opt := greedy_count (simulateGreedy h domains sliceCount leaderCount))
    in *.
  pose proof (sortedDomainsWithLeader_perm h sel false) as Hperm.
  set (placed := sortedDomainsWithLeader h sel false) in *.
  assert (Hnd' : NoDup placed).
  { rewrite Hperm. by eapply sublist_NoDup. }
  assert (Hin : placed ⊆ domains).
  { intros p Hp. rewrite Hperm in Hp.
    by eapply elem_of_submseteq, sublist_submseteq. }
  assert (Hlen' : Z.of_nat (length placed) = opt).
  { rewrite Hperm, Hlen. lia. }
  assert (Hmul : Int32.mul (Int32.of_len placed) threshold
                 = threshold * Z.of_nat (length placed)).
  { unfold Int32.mul, Int32.of_len. rewrite Hlen'.
    rewrite (wrap_small opt) by done.
    rewrite Z.mul_comm. apply wrap_small.
    unfold Int32.in_range, Int32.min_int, Int32.max_int in *. nia. }
  assert (Hmul' : Int32.mul (Int32.of_len sel) threshold
                  = threshold * Z.of_nat (length placed)).
  { rewrite <- Hmul. unfold Int32.of_len. by rewrite Hperm. }
  rewrite Hmul in Hloop. rewrite Hmul' in Hguard.
  assert (He0 : Int32.sub sliceCount (threshold * Z.of_nat (length placed))
                = sliceCount - threshold * Z.of_nat (length placed)).
  { apply wrap_small.
    unfold Int32.in_range, Int32.min_int, Int32.max_int in *. nia. }
  rewrite He0 in Hloop.
  apply balanceLoop_spec in Hloop
    as (Hfr & He' & Hl' & Hsum & Hlsum & Hall); auto; [| |lia|lia].
  - exists placed, e', l'. repeat split; auto; try lia.
    destruct Hres as [(-> & _)|(-> & _ & ? & ?)]; [by left|].
    right. repeat split; auto; lia.
  - apply Forall_forall. intros p Hp. apply Hin in Hp.
    pose proof (proj1 (Forall_forall _ _) Hty p Hp) as (Hr1 & Hr2 & _).
    pose proof (proj1 (Forall_forall _ _) Hcap p Hp) as Hc.
    unfold capacity_inv, Int32.in_range in *. lia.
Qed.

(** On pairwise-distinct candidates with non-negative capacities, for
    non-negative counts and a non-negative threshold whose product with
    the optimal domain count fits 32 bits: when
    [placeSlicesOnDomainsBalanced] succeeds, the final [sliceState] of the
    returned domains add up to [sliceCount] and their final [leaderState]
    to [leaderCount]. *)
Lemma conservation_without_overflow
  (f : gmap loc domain -> list loc -> list loc) (h : gmap loc domain)
  (domains : list loc) (sliceCount leaderCount sliceSize threshold : Z)
  (h' : gmap loc domain) (placed : list loc) (diag : string) :
  candidates_ok h domains ->
  threshold_ok h domains sliceCount leaderCount threshold ->
  0 <= sliceCount <= Int32.max_int -> 0 <= leaderCount <= Int32.max_int ->
  1 <= sliceSize <= Int32.max_int ->
  placeSlicesOnDomainsBalanced f h domains sliceCount leaderCount sliceSize
    threshold = Returns (h', Some placed, diag) ->
  total h' sliceState placed = sliceCount /\
  total h' leaderState placed = leaderCount.
Proof.
  intros Hc HT HS HL _ Hrun.
  eapply placeSlicesOnDomainsBalanced_ran in Hrun
    as [(_ & [=])|(placed' & e' & l' & _ & _ & _ & _ & _ & Hs & Hl & _ & Hres)];
    eauto.
  destruct Hres as [[=]|([= ->] & -> & ->)].
  rewrite Hs, Hl. lia.
Qed.

(** C8, amended.  Under the same conditions, whatever
    [placeSlicesOnDomainsBalanced] returns, every domain that satisfied
    [0 <= sliceStateWithLeader <= sliceState] before the call satisfies
    [sliceStateWithLeader <= sliceState] and [0 <= sliceState] after it;
    [sliceStateWithLeader] is at least [-1], and negative only on a domain
    that was made leader and given no slice. *)
Theorem capacity_order_preserved
  (f : gmap loc domain -> list loc -> list loc) (h : gmap loc domain)
  (domains : list loc) (sliceCount leaderCount sliceSize threshold : Z)
  (h' : gmap loc domain) (res : option (list loc)) (diag : string) :
  candidates_ok h domains ->
  threshold_ok h domains sliceCount leaderCount threshold ->
  0 <= sliceCount <= Int32.max_int -> 0 <= leaderCount <= Int32.max_int ->
  1 <= sliceSize <= Int32.max_int ->
  placeSlicesOnDomainsBalanced f h domains sliceCount leaderCount sliceSize
    threshold = Returns (h', res, diag) ->
  forall p, capacity_inv (deref h p) -> capacity_inv_after (deref h' p).
Proof.
  intros Hc HT HS HL _ Hrun p Hp.
  assert (Hsame : deref h' p = deref h p -> capacity_inv_after (deref h' p)).
  { intros ->. unfold capacity_inv, capacity_inv_after in *. lia. }
  eapply placeSlicesOnDomainsBalanced_ran in Hrun
    as [(-> & _)|(placed & e' & l' & _ & _ & Hfr & _ & _ & _ & _ & Hall & _)];
    eauto.
  destruct (decide (p ∈ placed)) as [Hin|Hout].
  - pose proof (proj1 (Forall_forall _ _) Hall p Hin) as (_ & Hpos & Hls & Hwl).
    unfold capacity_inv_after. lia.
  - apply Hsame, deref_frame. by apply Hfr.
Qed.

Lemma classic_fits (r : bool * Z * option loc * option loc) (d : domain)
  (sliceCount leaderCount : Z) :
  (covers d sliceCount leaderCount /\ greedy_fits r = true) \/
  ~ (covers d sliceCount leaderCount /\ greedy_fits r = true).
Proof.
  unfold covers.
  destruct (greedy_fits r); [|right; intros [_ [=]]].
  destruct (Z_le_dec sliceCount (sliceStateWithLeader d));
    destruct (Z_le_dec leaderCount (leaderState d));
    first [by left | right; intros [[? ?] _]; lia].
Qed.

(** ** The threshold of the solver suits the balancer *)

Lemma last_elem_of {A} (l : list A) (x : A) : last l = Some x -> x ∈ l.
Proof.
  intros [l' ->]%last_Some. apply elem_of_app. right. by left.
Qed.

(** The two domains the simulator reports are candidates. *)
Lemma simulateGreedy_last_elem_of h domains sliceCount leaderCount p :
  typed h domains ->
  Int32.in_range sliceCount -> Int32.in_range leaderCount ->
  greedy_lastWithLeader (simulateGreedy h domains sliceCount leaderCount)
    = Some p \/
  greedy_last (simulateGreedy h domains sliceCount leaderCount) = Some p ->
  p ∈ domains.
Proof.
  intros Hty HS HL. unfold simulateGreedy.
  assert (H0 : Int32.in_range 0)
    by (unfold Int32.in_range, Int32.min_int, Int32.max_int; lia).
  destruct (0 <? leaderCount) eqn:EL.
  - unfold leaderPhase.
    pose proof (sortedDomainsWithLeader_perm h domains false) as Hperm.
    destruct (takeLeaders_spec h (sortedDomainsWithLeader h domains false)
                0 leaderCount sliceCount None)
      as (taken1 & Eq1 & _ & _ & Hc1 & _ & Hs1 & Hlast1 & _); auto.
    { by eapply typed_perm. }
    set (g := takeLeaders h (sortedDomainsWithLeader h domains false)
                0 leaderCount sliceCount None) in *.
    simpl. destruct (0 <? g_leaders g); [by intros [[=]|[=]]|].
    assert (Hrest : typed h (g_rest g)).
    { eapply typed_perm in Hty; [|symmetry; exact Hperm].
      rewrite Eq1 in Hty. by apply typed_app in Hty as [_ ?]. }
    destruct (takeSlices_spec h (sortedDomains h (g_rest g) false)
                (g_count g) (g_slices g) None)
      as (taken2 & rest2 & Eq2 & _ & _ & ->).
    { eapply typed_perm; [symmetry; apply sortedDomains_perm|done]. }
    { rewrite Hc1. apply wrap_in_range. }
    { rewrite Hs1. apply wrap_in_range. }
    destruct (0 <? g_slices g - total h sliceState taken2);
      [by intros [[=]|[=]]|].
    unfold greedy_lastWithLeader, greedy_last. simpl.
    intros [Hp|Hp].
    + rewrite Hlast1 in Hp. destruct (last taken1) as [q|] eqn:El; [|done].
      simpl in Hp. injection Hp as ->. apply last_elem_of in El.
      rewrite <- Hperm, Eq1. apply elem_of_app. by left.
    + destruct (last taken2) as [q|] eqn:El; [|done].
      simpl in Hp. injection Hp as ->. apply last_elem_of in El.
      rewrite <- Hperm, Eq1. apply elem_of_app. right.
      rewrite <- (sortedDomains_perm h (g_rest g) false), Eq2.
      apply elem_of_app. by left.
  - simpl. destruct (0 <? leaderCount); [by intros [[=]|[=]]|].
    destruct (takeSlices_spec h (sortedDomains h domains false)
                0 sliceCount None)
      as (taken2 & rest2 & Eq2 & _ & _ & ->); auto.
    { eapply typed_perm; [symmetry; apply sortedDomains_perm|done]. }
    destruct (0 <? sliceCount - total h sliceState taken2);
      [by intros [[=]|[=]]|].
    unfold greedy_lastWithLeader, greedy_last. simpl.
    intros [[=]|Hp].
    destruct (last taken2) as [q|] eqn:El; [|done].
    simpl in Hp. injection Hp as ->. apply last_elem_of in El.
    rewrite <- (sortedDomains_perm h domains false), Eq2.
    apply elem_of_app. by left.
Qed.

(** A threshold that [balanceThresholdValue] returns for the candidates
    meets the condition the balancer theorems put on it. *)
Lemma balanceThresholdValue_threshold_ok
  (h : gmap loc domain) (startingDomain : domain)
  (sliceCount leaderCount : Z) (balanceOnChildren : bool) (threshold : Z) :
  let candidates := domainsToBalance h startingDomain balanceOnChildren in
  typed h candidates ->
  Forall (fun p => capacity_inv (deref h p)) candidates ->
  Z.of_nat (length candidates) <= Int32.max_int ->
  0 <= sliceCount <= Int32.max_int -> 0 <= leaderCount <= Int32.max_int ->
  balanceThresholdValue h startingDomain sliceCount leaderCount
    balanceOnChildren = Returns (threshold, true) ->
  threshold_ok h candidates sliceCount leaderCount threshold.
Proof.
  intros candidates Hty Hcap Hlen HS HL Hrun. subst candidates.
  set (candidates := domainsToBalance h startingDomain balanceOnChildren) in *.
  set (r := simulateGreedy h candidates sliceCount leaderCount).
  pose proof (simulateGreedy_count_in_range h candidates sliceCount leaderCount)
    as Hrange. fold r in Hrange.
  destruct (balanceThresholdValue_cases h startingDomain sliceCount
              leaderCount balanceOnChildren Hty Hlen HS HL)
    as (Hzero & Hfit & Hnot).
  fold candidates in Hfit, Hnot. fold r in Hfit, Hnot.
  destruct (decide (sliceCount = 0 /\ leaderCount = 0)) as [Hz|Hnz].
  { rewrite (Hzero Hz) in Hrun. injection Hrun as <-.
    unfold threshold_ok. fold r.
    unfold Int32.in_range, Int32.max_int in *. lia. }
  assert (Hpos : 0 < sliceCount \/ 0 < leaderCount) by lia.
  destruct (classic_fits r startingDomain sliceCount leaderCount)
    as [[Hc Hf]|Hno].
  2: { rewrite (Hnot Hpos Hno) in Hrun. done. }
  rewrite (Hfit Hpos Hc Hf) in Hrun. injection Hrun as <-.
  pose proof (simulateGreedy_count_nonzero h candidates sliceCount leaderCount
                Hty HS HL ltac:(lia) Hf) as (k & Hk & Hck & _).
  fold r in Hck.
  assert (Hcnt : 0 < greedy_count r <= Int32.max_int).
  { rewrite Hck, wrap_small;
      unfold Int32.in_range, Int32.min_int, Int32.max_int in *; lia. }
  assert (Hin : forall p,
            greedy_lastWithLeader r = Some p \/ greedy_last r = Some p ->
            capacity_inv (deref h p)).
  { intros p Hp.
    apply (proj1 (Forall_forall (fun p => capacity_inv (deref h p)) _) Hcap).
    eapply simulateGreedy_last_elem_of; [exact Hty| | |exact Hp];
      unfold Int32.in_range, Int32.min_int, Int32.max_int in *; lia. }
  pose proof (Z.div_pos sliceCount (greedy_count r) ltac:(lia) ltac:(lia))
    as Hdiv0.
  pose proof (Z.mul_div_le sliceCount (greedy_count r) ltac:(lia)) as Hdiv.
  unfold threshold_ok, threshold_spec. fold r.
  destruct (greedy_lastWithLeader r) as [p|] eqn:E1;
    destruct (greedy_last r) as [q|] eqn:E2;
    try (pose proof (Hin p (or_introl eq_refl)) as [? ?]);
    try (pose proof (Hin q (or_intror eq_refl)) as [? ?]);
    split; nia.
Qed.

(** C5.  For non-negative counts and [sliceSize >= 1], on the candidates
    of a starting domain (its children or grandchildren, pairwise
    distinct, with [0 <= sliceStateWithLeader <= sliceState]) and with
    the threshold [balanceThresholdValue] returns for them: when
    [placeSlicesOnDomainsBalanced] succeeds, the final [sliceState] of the
    returned domains add up to [sliceCount] and their final [leaderState]
    to [leaderCount]. *)
Theorem conservation_of_slices_and_leaders
  (f : gmap loc domain -> list loc -> list loc) (h : gmap loc domain)
  (startingDomain : domain) (balanceOnChildren : bool)
  (sliceCount leaderCount sliceSize threshold : Z)
  (h' : gmap loc domain) (placed : list loc) (diag : string) :
  let candidates := domainsToBalance h startingDomain balanceOnChildren in
  candidates_ok h candidates ->
  Z.of_nat (length candidates) <= Int32.max_int ->
  0 <= sliceCount <= Int32.max_int -> 0 <= leaderCount <= Int32.max_int ->
  1 <= sliceSize <= Int32.max_int ->
  balanceThresholdValue h startingDomain sliceCount leaderCount
    balanceOnChildren = Returns (threshold, true) ->
  placeSlicesOnDomainsBalanced f h candidates sliceCount leaderCount sliceSize
    threshold = Returns (h', Some placed, diag) ->
  total h' sliceState placed = sliceCount /\
  total h' leaderState placed = leaderCount.
Proof.
  intros candidates Hc Hlen HS HL Hsize HT Hrun.
  pose proof Hc as (_ & Hty & Hcap).
  pose proof (balanceThresholdValue_threshold_ok h startingDomain sliceCount
                leaderCount balanceOnChildren threshold Hty Hcap Hlen HS HL HT)
    as Hok.
  by eapply conservation_without_overflow.
Qed.

(** ** The order the leader phase walks *)

Section StableSortSorted.
Context {A : Type} (before : A -> A -> bool).
Hypothesis before_total : forall x y, before x y = false -> before y x = true.
Hypothesis before_trans :
  forall x y z, before x y = true -> before y z = true -> before x z = true.

Lemma insert_sorted_StronglySorted x l :
  StronglySorted (fun a b => before a b = true) l ->
  StronglySorted (fun a b => before a b = true) (insert_sorted before x l).
Proof.
  induction 1 as [|y l Hl IH Hy]; simpl.
  - repeat constructor.
  - destruct (before x y) eqn:E.
    + constructor; [by constructor|].
      constructor; [done|].
      eapply Forall_impl; [exact Hy|]. intros z Hz. by eapply before_trans.
    + constructor; [done|].
      rewrite insert_sorted_perm. constructor; [|done].
      by apply before_total.
Qed.

Lemma stable_sort_StronglySorted l :
  StronglySorted (fun a b => before a b = true) (stable_sort before l).
Proof.
  induction l as [|x l IH]; simpl; [constructor|].
  by apply insert_sorted_StronglySorted.
Qed.
End StableSortSorted.

Lemma StronglySorted_weaken {A} (R R' : A -> A -> Prop) l :
  (forall a b, R a b -> R' a b) -> StronglySorted R l -> StronglySorted R' l.
Proof.
  intros HR. induction 1 as [|x l Hl IH Hx]; constructor; [done|].
  eapply Forall_impl; [exact Hx|]. auto.
Qed.

Lemma sortedDomainsWithLeader_descending h ds :
  StronglySorted
    (fun p q => sliceStateWithLeader (deref h q)
                <= sliceStateWithLeader (deref h p))
    (sortedDomainsWithLeader h ds false).
Proof.
  unfold sortedDomainsWithLeader.
  eapply StronglySorted_weaken; [|apply stable_sort_StronglySorted].
  - intros p q. simpl. lia.
  - intros p q. simpl. lia.
  - intros p q r. simpl. lia.
Qed.

(** For a request with [leaderCount > 0], the leader phase
    of [simulateGreedy] walks the candidates in descending
    [sliceStateWithLeader] order from the front: each domain it takes has
    [leaderState > 0] and was reached with leaders still missing, and
    lowers the remaining leader count by its [leaderState] and the
    remaining slice count by its [sliceStateWithLeader].  The phase ends
    when the remaining leader count is at most zero, when the slice is
    exhausted, or at the first domain in that order with [leaderState <=
    0]; [(false, 0, nil, nil)] is returned from it when the remaining
    leader count is still positive at that point. *)
Lemma leader_phase_takes_eligible_prefix
  (h : gmap loc domain) (domains : list loc) (sliceCount leaderCount : Z) :
  typed h domains ->
  Int32.in_range sliceCount -> 0 < leaderCount <= Int32.max_int ->
  let sorted := sortedDomainsWithLeader h domains false in
  let g := leaderPhase h domains sliceCount leaderCount in
  StronglySorted
    (fun p q => sliceStateWithLeader (deref h q)
                <= sliceStateWithLeader (deref h p)) sorted /\
  (exists taken,
     sorted = taken ++ g_rest g /\
     Forall (fun p => 0 < leaderState (deref h p)) taken /\
     (forall pre p post, taken = pre ++ p :: post ->
        0 < leaderCount - total h leaderState pre) /\
     g_leaders g = leaderCount - total h leaderState taken /\
     g_slices g
       = Int32.wrap (sliceCount - total h sliceStateWithLeader taken) /\
     g_last g = last taken) /\
  (g_leaders g <= 0 \/ g_rest g = [] \/
   exists p rest, g_rest g = p :: rest /\ leaderState (deref h p) <= 0) /\
  (0 < g_leaders g ->
   simulateGreedy h domains sliceCount leaderCount = (false, 0, None, None)).
Proof.
  intros Hty HS HL sorted g. subst sorted g. unfold leaderPhase.
  split; [apply sortedDomainsWithLeader_descending|].
  destruct (takeLeaders_spec h (sortedDomainsWithLeader h domains false)
              0 leaderCount sliceCount None)
    as (taken & Eq & Hel & Hpre & _ & Hl & Hs & Hlast & Hstop).
  { eapply typed_perm; [symmetry; apply sortedDomainsWithLeader_perm|done]. }
  { unfold Int32.in_range, Int32.min_int, Int32.max_int. lia. }
  { unfold Int32.in_range, Int32.min_int, Int32.max_int in *. lia. }
  { done. }
  split; [|split; [done|]].
  - exists taken. repeat split; auto.
    rewrite Hlast. by destruct (last taken).
  - intros Hpos. unfold simulateGreedy, leaderPhase.
    destruct (0 <? leaderCount) eqn:EL; [|apply Z.ltb_ge in EL; lia].
    simpl.
    destruct (0 <? g_leaders _) eqn:EG; [done|]. apply Z.ltb_ge in EG. lia.
Qed.

(** The guard of the loop takes for granted that the domains able to host
    a leader come first in the sorted slice.  When they do, the phase ends
    only with the leaders placed or with no eligible domain left. *)
Lemma leader_phase_complete_when_eligible_first
  (h : gmap loc domain) (domains : list loc) (sliceCount leaderCount : Z)
  (eligible ineligible : list loc) :
  typed h domains ->
  Int32.in_range sliceCount -> 0 < leaderCount <= Int32.max_int ->
  sortedDomainsWithLeader h domains false = eligible ++ ineligible ->
  Forall (fun p => 0 < leaderState (deref h p)) eligible ->
  Forall (fun p => leaderState (deref h p) <= 0) ineligible ->
  let g := leaderPhase h domains sliceCount leaderCount in
  g_leaders g <= 0 \/
  Forall (fun p => leaderState (deref h p) <= 0) (g_rest g).
Proof.
  intros Hty HS HL Hsorted Hel Hinel g. subst g. unfold leaderPhase.
  destruct (takeLeaders_spec h (sortedDomainsWithLeader h domains false)
              0 leaderCount sliceCount None)
    as (taken & Eq & Htaken & _ & _ & _ & _ & _ & Hstop).
  { eapply typed_perm; [symmetry; apply sortedDomainsWithLeader_perm|done]. }
  { unfold Int32.in_range, Int32.min_int, Int32.max_int. lia. }
  { unfold Int32.in_range, Int32.min_int, Int32.max_int in *. lia. }
  { done. }
  destruct Hstop as [Hdone|[Hnil|(p & rest & Hrest & Hp)]]; [by left| |].
  - right. rewrite Hnil. constructor.
  - right.
    assert (Eq' : eligible ++ ineligible
                  = taken ++ g_rest (takeLeaders h
                                       (sortedDomainsWithLeader h domains false)
                                       0 leaderCount sliceCount None))
      by (by rewrite <- Hsorted).
    apply app_eq_inv in Eq' as [(k & Hk & Hr)|(k & _ & Hk)].
    + rewrite Hrest in Hr. destruct k as [|q k]; simpl in Hr.
      * rewrite Hrest, Hr. done.
      * injection Hr as <- Hr. rewrite Hk in Hel.
        apply Forall_app in Hel as [_ Hel].
        apply Forall_cons in Hel as [Hq _]. lia.
    + rewrite Hk in Hinel. by apply Forall_app in Hinel as [_ Hinel].
Qed.

Ltac solve_typed :=
  unfold typed;
  repeat (apply Forall_cons; split;
          [vm_compute; repeat split; discriminate|]);
  constructor.

Ltac solve_capacities :=
  repeat (apply Forall_cons; split;
          [vm_compute; repeat split; discriminate|]);
  constructor.

Ltac solve_candidates :=
  split; [apply (bool_decide_unpack _); vm_compute; exact I|
          split; [solve_typed|solve_capacities]].

(** Outside the data model, on one domain able to host two leaders
    ([leaderState = 2]) and a request of one slice and one leader: the
    only cells of layer 1 have [-1] and [1] leaders left, the largest
    [l <= 0] is [-1], and its cell holds the domain; the loop choosing
    [bestLeader] compares the indices of the sorted keys, settles on [0],
    which is no key, and the function returns [nil].  With [leaderState]
    in [{0, 1}] no key is negative and the two agree. *)
Remark winner_loop_reads_indices_not_keys :
  simulateGreedy twoLeaders [0%nat] 1 1 = (true, 1, Some 0%nat, None) /\
  sortedKeys (placementTable keepOrder twoLeaders [0%nat] 1 1 1 1 false
                !!! 1%nat) = [-1; 1] /\
  winner_spec (placementTable keepOrder twoLeaders [0%nat] 1 1 1 1 false
                 !!! 1%nat) = Some [0%nat] /\
  selectOptimalDomainSetToFit keepOrder twoLeaders [0%nat] 1 1 1 false
    = Returns None.
Proof. vm_compute. repeat split. Qed.

(** The loop choosing [bestLeader] settles on zero as soon as the layer
    has a key, whatever the keys are. *)
Lemma pickLeader_closed_form (layer : gmap Z (gmap Z (list loc))) :
  pickLeader layer =
    match sortedKeys layer with
    | [] => (Int32.min_int, ∅)
    | _ :: _ => (0, default ∅ (layer !! 0))
    end.
Proof.
  unfold pickLeader.
  destruct (sortedKeys layer) as [|k keys]; [done|].
  change (length (k :: keys)) with (S (length keys)). simpl.
  change (Int32.wrap (Z.of_nat 0)) with 0.
  generalize (default ∅ (layer !! 0)) as m. intros m.
  generalize 1%nat as start.
  induction (length keys) as [|n IH]; intros start; simpl; [done|].
  destruct (0 <? Int32.wrap (Z.of_nat start)) eqn:E1; simpl; [|apply IH].
  destruct (Int32.wrap (Z.of_nat start) <=? 0) eqn:E2; simpl; [|apply IH].
  apply Z.ltb_lt in E1. apply Z.leb_le in E2. lia.
Qed.

(** ** Where the code departs from the claims as stated *)


(** C3 as stated fails: with the threshold the solver computes, the call
    below returns no placement, with the diagnostic of the last check,
    after the loop has rewritten the domains at locations [0] and [1].
    No two of the domains tie on [sliceStateWithLeader] or on
    [sliceState], so the order of the sorts is the same however ties are
    broken. *)
Lemma late_failure_changes_domains :
  balanceThresholdValue tieFree tieFreeRoot 13 1 true = Returns (4, true) /\
  exists h',
    placeSlicesOnDomainsBalanced keepOrder tieFree [0; 1; 2]%nat 13 1 1 4
      = Returns (h', None, msgNotPlaced) /\
    deref tieFree 1%nat = leaf 10 4 1 /\
    deref h' 1%nat = mkDomain 4 3 1 4 3 [] /\
    h' <> tieFree.
Proof.
  split; [by vm_compute|].
  exists (heap_after
            (placeSlicesOnDomainsBalanced keepOrder tieFree [0; 1; 2]%nat
               13 1 1 4)).
  by vm_compute.
Qed.

(** C4 as stated fails: the threshold the solver computes is two, the
    call succeeds, and the returned domain at location [0] ends with one
    slice. *)
Lemma threshold_floor_fails_below_capacity :
  balanceThresholdValue oneTwoFour oneTwoFourRoot 5 0 true = Returns (2, true) /\
  exists h',
    placeSlicesOnDomainsBalanced keepOrder oneTwoFour [0; 1; 2]%nat 5 0 1 2
      = Returns (h', Some [0; 2]%nat, EmptyString) /\
    sliceState (deref h' 0%nat) = 1.
Proof.
  split; [by vm_compute|].
  exists (heap_after
            (placeSlicesOnDomainsBalanced keepOrder oneTwoFour [0; 1; 2]%nat
               5 0 1 2)).
  by vm_compute.
Qed.

(** C8 as stated fails: a domain made leader and given no slice ends with
    [sliceStateWithLeader = -1]. *)
Lemma leader_without_slices_breaks_capacity_inv :
  capacity_inv (deref leaderOnly 0%nat) /\
  balanceThresholdValue leaderOnly leaderOnlyRoot 0 1 true = Returns (0, true) /\
  exists h',
    placeSlicesOnDomainsBalanced keepOrder leaderOnly [0%nat] 0 1 1 0
      = Returns (h', Some [0%nat], EmptyString) /\
    ~ capacity_inv (deref h' 0%nat).
Proof.
  split; [by vm_compute|]. split; [by vm_compute|].
  exists (heap_after
            (placeSlicesOnDomainsBalanced keepOrder leaderOnly [0%nat]
               0 1 1 0)).
  split; [by vm_compute|].
  intros [H _]. vm_compute in H. by apply H.
Qed.

(** ** The theorems at work on the scenarios *)

Ltac solve_bounds :=
  unfold Int32.in_range, Int32.min_int, Int32.max_int; lia.

Ltac solve_threshold :=
  unfold threshold_ok; split; [lia|vm_compute; discriminate].


(** The leader phase on scenario S4, seven slices and one leader. *)
Lemma leader_phase_witness :
  typed leaderAndFollower [0; 1]%nat /\
  let g := leaderPhase leaderAndFollower [0; 1]%nat 7 1 in
  g_leaders g <= 0 \/ g_rest g = [] \/
  exists p rest,
    g_rest g = p :: rest /\ leaderState (deref leaderAndFollower p) <= 0.
Proof.
  split; [solve_typed|].
  pose proof (leader_phase_takes_eligible_prefix leaderAndFollower
                [0; 1]%nat 7 1
                ltac:(solve_typed) ltac:(solve_bounds) ltac:(solve_bounds))
    as (_ & _ & H & _).
  exact H.
Defined.

(** Scenario S5: no domain set fits, and the heap is left as it was. *)
Lemma early_failure_witness :
  heap_after
    (placeSlicesOnDomainsBalanced keepOrder twoSmall [0; 1]%nat 5 0 1 2)
  = twoSmall.
Proof.
  pose proof (early_failure_leaves_domains_unchanged keepOrder twoSmall
                [0; 1]%nat 5 0 1 2
                (heap_after
                   (placeSlicesOnDomainsBalanced keepOrder twoSmall
                      [0; 1]%nat 5 0 1 2))
                msgNoDomainSet
                ltac:(vm_compute; reflexivity) ltac:(discriminate))
    as [H _].
  exact H.
Defined.

(** Scenario S3: the three returned domains hold the ten slices. *)
Lemma conservation_witness :
  total
    (heap_after
       (placeSlicesOnDomainsBalanced keepOrder fourEqual [0; 1; 2; 3]%nat
          10 0 1 3))
    sliceState [0; 1; 2]%nat = 10 /\
  total
    (heap_after
       (placeSlicesOnDomainsBalanced keepOrder fourEqual [0; 1; 2; 3]%nat
          10 0 1 3))
    leaderState [0; 1; 2]%nat = 0.
Proof.
  exact (conservation_of_slices_and_leaders keepOrder fourEqual fourEqualRoot
           true 10 0 1 3 _ [0; 1; 2]%nat EmptyString
           ltac:(solve_candidates) ltac:(vm_compute; discriminate)
           ltac:(solve_bounds) ltac:(solve_bounds) ltac:(solve_bounds)
           ltac:(vm_compute; reflexivity) ltac:(vm_compute; reflexivity)).
Defined.

(** Scenario S3: the threshold is the floor of ten thirds. *)
Lemma threshold_witness :
  balanceThresholdValue fourEqual fourEqualRoot 10 0 true
  = Returns
      (threshold_spec fourEqual 10
         (simulateGreedy fourEqual [0; 1; 2; 3]%nat 10 0), true) /\
  threshold_spec fourEqual 10 (simulateGreedy fourEqual [0; 1; 2; 3]%nat 10 0)
  = 3.
Proof.
  split; [|vm_compute; reflexivity].
  pose proof (balanceThresholdValue_spec fourEqual fourEqualRoot 10 0 true
                ltac:(solve_typed) ltac:(simpl; solve_bounds)
                ltac:(solve_bounds) ltac:(solve_bounds))
    as (_ & H & _).
  apply H; [lia|split; simpl; lia|vm_compute; reflexivity].
Defined.

(** Scenario S3: three domains are returned, as the simulator counts. *)
Lemma optimal_count_witness :
  Z.of_nat (length [0; 1; 2]%nat)
  = greedy_count (simulateGreedy fourEqual [0; 1; 2; 3]%nat 10 0).
Proof.
  pose proof (placement_length_is_optimal_count keepOrder fourEqual
                [0; 1; 2; 3]%nat 10 0 1 3
                (heap_after
                   (placeSlicesOnDomainsBalanced keepOrder fourEqual
                      [0; 1; 2; 3]%nat 10 0 1 3))
                [0; 1; 2]%nat EmptyString
                ltac:(vm_compute; reflexivity))
    as [_ H].
  exact H.
Defined.

(** A leader placed where no slice fits next to it. *)
Lemma capacity_order_witness :
  capacity_inv_after
    (deref
       (heap_after
          (placeSlicesOnDomainsBalanced keepOrder leaderOnly [0%nat] 0 1 1 0))
       0%nat).
Proof.
  exact (capacity_order_preserved keepOrder leaderOnly [0%nat] 0 1 1 0 _
           (Some [0%nat]) EmptyString
           ltac:(solve_candidates) ltac:(solve_threshold)
           ltac:(solve_bounds) ltac:(solve_bounds) ltac:(solve_bounds)
           ltac:(vm_compute; reflexivity)
           0%nat ltac:(vm_compute; split; discriminate)).
Defined.

(** Scenario S3: the three selected domains are distinct candidates. *)
Lemma selection_witness :
  NoDup [0; 1; 2]%nat /\ [0; 1; 2]%nat ⊆ [0; 1; 2; 3]%nat.
Proof.
  exact (selectOptimalDomainSetToFit_NoDup keepOrder fourEqual
           [0; 1; 2; 3]%nat 10 0 1 false [0; 1; 2]%nat
           ltac:(intros l; reflexivity)
           ltac:(apply (bool_decide_unpack _); vm_compute; exact I)
           ltac:(vm_compute; reflexivity)).
Defined.

(** Scenario S3: the threshold solver does not panic. *)
Lemma no_division_by_zero_witness :
  balanceThresholdValue fourEqual fourEqualRoot 10 0 true <> Panics.
Proof.
  pose proof (balanceThresholdValue_no_division_by_zero fourEqual
                fourEqualRoot 10 0 true
                ltac:(solve_typed) ltac:(solve_bounds) ltac:(solve_bounds))
    as [H _].
  exact H.
Defined.

(** * Further properties *)

(** ** The simulator without leaders *)

Lemma total_perm h f l k : l ≡ₚ k -> total h f l = total h f k.
Proof.
  induction 1 as [|x l k _ IH|x y l|l k m _ IH1 _ IH2]; simpl; lia.
Qed.

Lemma total_nonneg h f l :
  (forall d, 0 <= f d) -> 0 <= total h f l.
Proof.
  intros Hf. induction l as [|p l IH]; simpl; [done|].
  specialize (Hf (deref h p)). lia.
Qed.

Lemma sortedDomains_descending h ds :
  StronglySorted
    (fun p q => sliceState (deref h q) <= sliceState (deref h p))
    (sortedDomains h ds false).
Proof.
  unfold sortedDomains.
  eapply StronglySorted_weaken; [|apply stable_sort_StronglySorted].
  - intros p q. simpl. lia.
  - intros p q. simpl. lia.
  - intros p q r. simpl. lia.
Qed.

(** Behind a domain without positive capacity, a descending slice holds
    no positive capacity at all. *)
Lemma positiveSlices_sorted_tail h p rest :
  StronglySorted
    (fun p q => sliceState (deref h q) <= sliceState (deref h p))
    (p :: rest) ->
  sliceState (deref h p) <= 0 ->
  total h positiveSlices (p :: rest) = 0.
Proof.
  intros Hs Hp. apply StronglySorted_inv in Hs as [_ Hall].
  simpl. unfold positiveSlices at 1.
  assert (total h positiveSlices rest = 0); [|lia].
  induction rest as [|q rest IH]; simpl; [done|].
  apply Forall_cons in Hall as [Hq Hall].
  rewrite IH by done. unfold positiveSlices. lia.
Qed.

(** The slice loop ends with nothing left to place exactly when the
    positive capacities of the slice it walks add up to the demand. *)
Lemma takeSlices_fits_iff h sorted count remS last0 :
  StronglySorted
    (fun p q => sliceState (deref h q) <= sliceState (deref h p)) sorted ->
  typed h sorted -> Int32.in_range remS ->
  (takeSlices h sorted count remS last0).1.2 <= 0 <->
  remS <= total h positiveSlices sorted.
Proof.
  intros Hs Hty. revert count remS last0.
  induction sorted as [|p rest IH]; intros count remS last0 HS; simpl.
  - done.
  - pose proof (total_nonneg h positiveSlices rest
                  ltac:(intros d; unfold positiveSlices; lia)) as Hnn.
    apply Forall_cons in Hty as [Hp Hty].
    destruct (0 <? remS) eqn:E1; simpl.
    + apply Z.ltb_lt in E1.
      destruct (0 <? sliceState (deref h p)) eqn:E2; simpl.
      * apply Z.ltb_lt in E2. destruct Hp as (Hss & _).
        assert (Hsub : Int32.sub remS (sliceState (deref h p))
                       = remS - sliceState (deref h p)).
        { apply wrap_small. unfold Int32.in_range, Int32.min_int,
            Int32.max_int in *. lia. }
        rewrite Hsub, IH.
        -- unfold positiveSlices at 2. lia.
        -- by apply StronglySorted_inv in Hs as [? _].
        -- done.
        -- unfold Int32.in_range, Int32.min_int, Int32.max_int in *. lia.
      * apply Z.ltb_ge in E2.
        pose proof (positiveSlices_sorted_tail h p rest Hs E2) as H0.
        simpl in H0. lia.
    + apply Z.ltb_ge in E1. unfold positiveSlices at 1. lia.
Qed.

Lemma leaderless_fits_iff
  (h : gmap loc domain) (domains : list loc) (sliceCount leaderCount : Z) :
  typed h domains -> Int32.in_range sliceCount -> leaderCount <= 0 ->
  greedy_fits (simulateGreedy h domains sliceCount leaderCount) = true <->
  sliceCount <= total h positiveSlices domains.
Proof.
  intros Hty HS HL. unfold simulateGreedy, greedy_fits.
  destruct (0 <? leaderCount) eqn:EL; [apply Z.ltb_lt in EL; lia|].
  simpl. rewrite EL.
  pose proof (takeSlices_fits_iff h (sortedDomains h domains false) 0
                sliceCount None (sortedDomains_descending h domains)) as Hiff.
  rewrite (total_perm h positiveSlices _ _ (sortedDomains_perm h domains false))
    in Hiff.
  destruct (takeSlices h (sortedDomains h domains false) 0 sliceCount None)
    as [[c r] l]. simpl in Hiff.
  rewrite <- Hiff.
  - destruct (0 <? r) eqn:Er; simpl.
    + apply Z.ltb_lt in Er. split; [done|lia].
    + apply Z.ltb_ge in Er. done.
  - eapply typed_perm; [symmetry; apply sortedDomains_perm|done].
  - done.
Qed.

(** Among the lists drawn from a descending slice, none of a given
    length holds more than the front of that length. *)
Lemma sorted_front_is_largest h (f : domain -> Z) l m :
  StronglySorted (fun p q => f (deref h q) <= f (deref h p)) l ->
  m ⊆+ l ->
  total h f m <= total h f (take (length m) l).
Proof.
  intros Hs. revert m.
  induction l as [|x l IH]; intros m Hm.
  - apply submseteq_nil_r in Hm as ->. done.
  - apply StronglySorted_inv in Hs as [Hs Hx].
    apply submseteq_cons_r in Hm as [Hm|(m' & Hm & Hm')].
    + etrans; [apply IH; done|].
      pose proof (submseteq_length _ _ Hm) as Hlen.
      destruct (length m) as [|n] eqn:En; [done|].
      destruct (lookup_lt_is_Some_2 l n ltac:(lia)) as [y Hy].
      rewrite (take_S_r l n y Hy), total_app. simpl.
      pose proof (proj1 (Forall_forall _ _) Hx y
                    (list_elem_of_lookup_2 _ _ _ Hy)) as Hyx.
      simpl in Hyx. lia.
    + rewrite (total_perm h f _ _ Hm), Hm. simpl.
      specialize (IH Hs m' Hm'). lia.
Qed.

(** A report of no fit carries no count and no domain. *)
Lemma greedy_nofit_shape h domains sliceCount leaderCount :
  greedy_fits (simulateGreedy h domains sliceCount leaderCount) = false ->
  simulateGreedy h domains sliceCount leaderCount = (false, 0, None, None).
Proof.
  unfold simulateGreedy, greedy_fits.
  set (g := if 0 <? leaderCount then _ else _).
  destruct (0 <? g_leaders g); [done|].
  destruct (takeSlices h (g_rest g) (g_count g) (g_slices g) None)
    as [[c r] l].
  by destruct (0 <? r).
Qed.

(** What the simulator takes when no leader is asked for: a list drawn
    from the candidates that covers the demand, and no shorter one does. *)
Lemma leaderless_taken h domains sliceCount leaderCount :
  typed h domains -> Int32.in_range sliceCount -> leaderCount <= 0 ->
  greedy_fits (simulateGreedy h domains sliceCount leaderCount) = true ->
  exists taken,
    taken ⊆+ domains /\
    greedy_count (simulateGreedy h domains sliceCount leaderCount)
      = Int32.wrap (Z.of_nat (length taken)) /\
    Forall (fun p => 0 < sliceState (deref h p)) taken /\
    sliceCount <= total h sliceState taken /\
    (sliceCount <= 0 -> taken = []) /\
    forall m, m ⊆+ domains -> sliceCount <= total h sliceState m ->
              (length taken <= length m)%nat.
Proof.
  intros Hty HS HL. unfold simulateGreedy, greedy_fits, greedy_count.
  destruct (0 <? leaderCount) eqn:EL; [apply Z.ltb_lt in EL; lia|].
  simpl. rewrite EL.
  pose proof (sortedDomains_perm h domains false) as Hperm.
  destruct (takeSlices_spec h (sortedDomains h domains false)
              0 sliceCount None)
    as (taken & rest & Eq & Hel & Hpre & ->).
  { eapply typed_perm; [symmetry; exact Hperm|done]. }
  { unfold Int32.in_range, Int32.min_int, Int32.max_int. lia. }
  { done. }
  destruct (0 <? sliceCount - total h sliceState taken) eqn:Er; [done|].
  apply Z.ltb_ge in Er. intros _. simpl.
  exists taken. repeat split.
  - rewrite <- Hperm, Eq. apply submseteq_inserts_r. done.
  - done.
  - lia.
  - intros Hle. destruct taken as [|p taken']; [done|].
    specialize (Hpre [] p taken' eq_refl). simpl in Hpre. lia.
  - intros m Hm HSm.
    destruct (le_lt_dec (length taken) (length m)) as [|Hlt]; [done|].
    exfalso.
    pose proof (sorted_front_is_largest h sliceState
                  (sortedDomains h domains false) m
                  (sortedDomains_descending h domains)
                  ltac:(by rewrite Hperm)) as Hfront.
    rewrite Eq, take_app_le in Hfront by lia.
    pose proof (take_drop (length m) taken) as Htd.
    destruct (drop (length m) taken) as [|p post] eqn:Ed.
    { apply (f_equal length) in Ed. rewrite length_drop in Ed.
      simpl in Ed. lia. }
    specialize (Hpre (take (length m) taken) p post (eq_sym Htd)). lia.
Qed.

(** X1.  Without leaders to place, [simulateGreedy] reports a fit exactly
    when the slice demand is at most the sum of the positive [sliceState]
    of the candidates. *)
Theorem simulateGreedy_leaderless_fits_iff
  (h : gmap loc domain) (domains : list loc) (sliceCount leaderCount : Z) :
  typed h domains -> Int32.in_range sliceCount -> leaderCount <= 0 ->
  greedy_fits (simulateGreedy h domains sliceCount leaderCount) = true <->
  sliceCount <= total h positiveSlices domains.
Proof. apply leaderless_fits_iff. Qed.

(** X2.  Without leaders to place, the domain count [simulateGreedy]
    reports is the least possible: some candidates, that many, have
    [sliceState] adding up to the demand, and no selection of candidates
    that covers the demand is smaller. *)
Theorem simulateGreedy_leaderless_minimal
  (h : gmap loc domain) (domains : list loc) (sliceCount leaderCount : Z) :
  typed h domains -> Int32.in_range sliceCount -> leaderCount <= 0 ->
  Z.of_nat (length domains) <= Int32.max_int ->
  greedy_fits (simulateGreedy h domains sliceCount leaderCount) = true ->
  let count := greedy_count (simulateGreedy h domains sliceCount leaderCount) in
  (exists taken,
     taken ⊆+ domains /\ Z.of_nat (length taken) = count /\
     sliceCount <= total h sliceState taken) /\
  (forall m, m ⊆+ domains -> sliceCount <= total h sliceState m ->
             count <= Z.of_nat (length m)).
Proof.
  intros Hty HS HL Hlen Hfit count. subst count.
  destruct (leaderless_taken h domains sliceCount leaderCount Hty HS HL Hfit)
    as (taken & Hsub & Hc & _ & Hcover & _ & Hmin).
  pose proof (submseteq_length _ _ Hsub) as Hle.
  assert (Hk : Int32.wrap (Z.of_nat (length taken)) = Z.of_nat (length taken)).
  { apply wrap_small.
    unfold Int32.in_range, Int32.min_int, Int32.max_int in *. lia. }
  rewrite Hc, Hk. split.
  - exists taken. by repeat split.
  - intros m Hm HSm. specialize (Hmin m Hm HSm). lia.
Qed.

(** X3.  Without leaders to place, whether [simulateGreedy] fits a demand
    and how many domains it counts do not depend on the order of the
    candidates. *)
Theorem simulateGreedy_leaderless_order_independent
  (h : gmap loc domain) (domains domains' : list loc)
  (sliceCount leaderCount : Z) :
  domains ≡ₚ domains' ->
  typed h domains -> Int32.in_range sliceCount -> leaderCount <= 0 ->
  greedy_fits (simulateGreedy h domains sliceCount leaderCount)
  = greedy_fits (simulateGreedy h domains' sliceCount leaderCount) /\
  greedy_count (simulateGreedy h domains sliceCount leaderCount)
  = greedy_count (simulateGreedy h domains' sliceCount leaderCount).
Proof.
  intros Hperm Hty HS HL.
  assert (Hty' : typed h domains') by (by eapply typed_perm).
  pose proof (leaderless_fits_iff h domains sliceCount leaderCount Hty HS HL)
    as Hiff.
  pose proof (leaderless_fits_iff h domains' sliceCount leaderCount Hty' HS HL)
    as Hiff'.
  rewrite (total_perm h positiveSlices _ _ Hperm) in Hiff.
  assert (Hfits : greedy_fits (simulateGreedy h domains sliceCount leaderCount)
                  = greedy_fits
                      (simulateGreedy h domains' sliceCount leaderCount)).
  { destruct (greedy_fits (simulateGreedy h domains sliceCount leaderCount));
      destruct (greedy_fits (simulateGreedy h domains' sliceCount leaderCount));
      try done.
    - assert (false = true) by (by apply Hiff', Hiff). done.
    - assert (false = true) by (by apply Hiff, Hiff'). done. }
  split; [done|].
  destruct (greedy_fits (simulateGreedy h domains sliceCount leaderCount))
    eqn:Ef.
  - symmetry in Hfits.
    destruct (leaderless_taken h domains sliceCount leaderCount Hty HS HL Ef)
      as (t & Hsub & -> & _ & Hcov & _ & Hmin).
    destruct (leaderless_taken h domains' sliceCount leaderCount
                Hty' HS HL Hfits)
      as (t' & Hsub' & -> & _ & Hcov' & _ & Hmin').
    assert (length t = length t') as ->; [|done].
    apply Nat.le_antisymm.
    + apply Hmin; [by rewrite Hperm|done].
    + apply Hmin'; [by rewrite <- Hperm|done].
  - symmetry in Hfits.
    pose proof (greedy_nofit_shape h domains sliceCount leaderCount Ef) as ->.
    pose proof (greedy_nofit_shape h domains' sliceCount leaderCount Hfits)
      as ->.
    done.
Qed.

(** ** The two phases of the simulator *)

(** The leader loop does not look at the slice demand: the domains it
    takes are the same for every demand, and the demand only shows in the
    slices left. *)
Lemma takeLeaders_anatomy h sorted count remL last0 :
  typed h sorted -> Int32.in_range count -> Int32.in_range remL ->
  exists taken rest,
    sorted = taken ++ rest /\
    Forall (fun p => 0 < leaderState (deref h p)) taken /\
    (forall pre p post, taken = pre ++ p :: post ->
       0 < remL - total h leaderState pre) /\
    (remL - total h leaderState taken <= 0 \/ rest = [] \/
     exists p r, rest = p :: r /\ leaderState (deref h p) <= 0) /\
    forall remS, Int32.in_range remS ->
      takeLeaders h sorted count remL remS last0 =
        mkGreedy rest (Int32.wrap (count + Z.of_nat (length taken)))
          (remL - total h leaderState taken)
          (Int32.wrap (remS - total h sliceStateWithLeader taken))
          (from_option Some last0 (last taken)).
Proof.
  intros Hty. revert count remL last0.
  assert (Hnil : forall l count remL last0,
    Int32.in_range count ->
    (remL <= 0 \/ l = [] \/
     exists p r, l = p :: r /\ leaderState (deref h p) <= 0) ->
    exists taken rest,
      l = taken ++ rest /\
      Forall (fun p => 0 < leaderState (deref h p)) taken /\
      (forall pre p post, taken = pre ++ p :: post ->
         0 < remL - total h leaderState pre) /\
      (remL - total h leaderState taken <= 0 \/ rest = [] \/
       exists p r, rest = p :: r /\ leaderState (deref h p) <= 0) /\
      forall remS, Int32.in_range remS ->
        mkGreedy l count remL remS last0 =
          mkGreedy rest (Int32.wrap (count + Z.of_nat (length taken)))
            (remL - total h leaderState taken)
            (Int32.wrap (remS - total h sliceStateWithLeader taken))
            (from_option Some last0 (last taken))).
  { intros l count remL last0 Hc Hstop. exists [], l. simpl.
    repeat split; auto.
    - intros pre q post E. by destruct pre.
    - rewrite Z.sub_0_r. done.
    - intros remS HS.
      rewrite Z.add_0_r, !Z.sub_0_r, !wrap_small by done. done. }
  induction sorted as [|p rest IH]; intros count remL last0 Hc HL.
  - destruct (Hnil [] count remL last0 Hc ltac:(auto))
      as (taken & rest & H1 & H2 & H3 & H4 & H5).
    exists taken, rest. repeat split; auto.
  - apply Forall_cons in Hty as [Hp Hty].
    destruct (0 <? remL) eqn:E1.
    + destruct (0 <? leaderState (deref h p)) eqn:E2.
      * apply Z.ltb_lt in E1, E2.
        destruct Hp as (_ & _ & Hls & _).
        assert (Hsub : Int32.sub remL (leaderState (deref h p))
                       = remL - leaderState (deref h p)).
        { apply wrap_small. unfold Int32.in_range, Int32.min_int,
            Int32.max_int in *. lia. }
        destruct (IH Hty (Int32.add count 1)
                    (remL - leaderState (deref h p)) (Some p))
          as (taken & rest' & Eq & Hel & Hpre & Hstop & Hrun).
        { apply wrap_in_range. }
        { unfold Int32.in_range, Int32.min_int, Int32.max_int in *. lia. }
        exists (p :: taken), rest'. simpl. repeat split.
        -- by f_equal.
        -- by constructor.
        -- intros pre q post E. destruct pre as [|x pre]; simpl in *.
           ++ lia.
           ++ injection E as -> ->.
              specialize (Hpre pre q post eq_refl). lia.
        -- destruct Hstop as [?|?]; [left; lia|by right].
        -- intros remS HS. simpl.
           replace (0 <? remL) with true by (symmetry; by apply Z.ltb_lt).
           replace (0 <? leaderState (deref h p)) with true
             by (symmetry; by apply Z.ltb_lt).
           simpl. rewrite Hsub, Hrun by apply wrap_in_range.
           f_equal.
           ++ unfold Int32.add. rewrite wrap_add_wrap_l. f_equal. lia.
           ++ lia.
           ++ unfold Int32.sub. rewrite wrap_sub_wrap_l. f_equal. lia.
           ++ destruct taken as [|q taken']; [done|].
              change (last (p :: q :: taken')) with (last (q :: taken')).
              destruct (last (q :: taken')) eqn:El; [done|].
              by apply last_None in El.
      * pose proof (proj1 (Z.ltb_ge _ _) E2) as E2'.
        destruct (Hnil (p :: rest) count remL last0 Hc)
          as (taken & rest' & H1 & H2 & H3 & H4 & H5).
        { right. right. exists p, rest. by split. }
        exists taken, rest'. repeat split; auto.
        intros remS HS. simpl. rewrite E1, E2. simpl. by apply H5.
    + pose proof (proj1 (Z.ltb_ge _ _) E1) as E1'.
      destruct (Hnil (p :: rest) count remL last0 Hc ltac:(auto))
        as (taken & rest' & H1 & H2 & H3 & H4 & H5).
      exists taken, rest'. repeat split; auto.
      intros remS HS. simpl. rewrite E1. simpl. by apply H5.
Qed.

(** What the slice loop takes from a descending slice: as few domains as
    any selection that covers the demand. *)
Lemma takeSlices_taken h sorted count remS last0 :
  StronglySorted
    (fun p q => sliceState (deref h q) <= sliceState (deref h p)) sorted ->
  typed h sorted -> Int32.in_range count -> Int32.in_range remS ->
  exists taken,
    taken ⊆+ sorted /\
    Forall (fun p => 0 < sliceState (deref h p)) taken /\
    takeSlices h sorted count remS last0 =
      (Int32.wrap (count + Z.of_nat (length taken)),
       remS - total h sliceState taken,
       from_option Some last0 (last taken)) /\
    (remS <= 0 -> taken = []) /\
    Z.of_nat (length taken) <= Z.max remS 0 /\
    forall m, m ⊆+ sorted -> remS <= total h sliceState m ->
              (length taken <= length m)%nat.
Proof.
  intros Hs Hty Hc HS.
  destruct (takeSlices_spec h sorted count remS last0 Hty Hc HS)
    as (taken & rest & Eq & Hel & Hpre & Hrun).
  exists taken. repeat split; auto.
  - rewrite Eq. by apply submseteq_inserts_r.
  - intros Hle. destruct taken as [|p taken']; [done|].
    specialize (Hpre [] p taken' eq_refl). simpl in Hpre. lia.
  - by apply (taken_bound h sliceState).
  - intros m Hm HSm.
    destruct (le_lt_dec (length taken) (length m)) as [|Hlt]; [done|].
    exfalso.
    pose proof (sorted_front_is_largest h sliceState sorted m Hs Hm)
      as Hfront.
    rewrite Eq, take_app_le in Hfront by lia.
    pose proof (take_drop (length m) taken) as Htd.
    destruct (drop (length m) taken) as [|p post] eqn:Ed.
    { apply (f_equal length) in Ed. rewrite length_drop in Ed.
      simpl in Ed. lia. }
    specialize (Hpre (take (length m) taken) p post (eq_sym Htd)). lia.
Qed.

(** [simulateGreedy] in two phases: the domains taken with a leader do
    not depend on the slice demand, which only enters the second loop. *)
Lemma simulateGreedy_phases h domains leaderCount :
  typed h domains -> Int32.in_range leaderCount ->
  exists taken rest,
    taken ++ rest ≡ₚ domains /\
    Forall (fun p => 0 < leaderState (deref h p)) taken /\
    (forall pre p post, taken = pre ++ p :: post ->
       0 < leaderCount - total h leaderState pre) /\
    (leaderCount <= 0 -> taken = []) /\
    forall sliceCount, Int32.in_range sliceCount ->
      simulateGreedy h domains sliceCount leaderCount =
        if 0 <? leaderCount - total h leaderState taken
        then (false, 0, None, None)
        else
          let '(count, remS, lastDomain) :=
            takeSlices h (sortedDomains h rest false)
              (Int32.wrap (Z.of_nat (length taken)))
              (Int32.wrap (sliceCount - total h sliceStateWithLeader taken))
              None in
          if 0 <? remS then (false, 0, None, None)
          else (true, count, last taken, lastDomain).
Proof.
  intros Hty HL.
  assert (H0 : Int32.in_range 0)
    by (unfold Int32.in_range, Int32.min_int, Int32.max_int; lia).
  destruct (0 <? leaderCount) eqn:EL.
  - pose proof (sortedDomainsWithLeader_perm h domains false) as Hperm.
    destruct (takeLeaders_anatomy h (sortedDomainsWithLeader h domains false)
                0 leaderCount None)
      as (taken & rest & Eq & Hel & Hpre & _ & Hrun); auto.
    { by eapply typed_perm. }
    exists taken, rest. repeat split; auto.
    + by rewrite <- Eq.
    + intros Hle. apply Z.ltb_lt in EL. lia.
    + intros sliceCount HS. unfold simulateGreedy, leaderPhase.
      rewrite EL, (Hrun sliceCount HS). simpl.
      destruct (0 <? leaderCount - total h leaderState taken); [done|].
      by destruct (last taken).
  - exists [], domains. simpl. repeat split; auto.
    + intros pre p post E. by destruct pre.
    + intros sliceCount HS. unfold simulateGreedy. rewrite EL. simpl.
      rewrite !Z.sub_0_r, EL, (wrap_small sliceCount) by done. done.
Qed.

(** X4.  What [simulateGreedy] reports.  Without a fit it returns
    [(false, 0, nil, nil)].  With a fit, the last domain taken with a
    leader is a candidate with [leaderState > 0], present exactly when
    [leaderCount > 0]; the last domain taken without one is a candidate
    with [sliceState > 0]; and the count is zero exactly when neither a
    leader nor a slice was asked for. *)
Theorem simulateGreedy_report
  (h : gmap loc domain) (domains : list loc) (sliceCount leaderCount : Z) :
  typed h domains ->
  Int32.in_range sliceCount -> Int32.in_range leaderCount ->
  let r := simulateGreedy h domains sliceCount leaderCount in
  (greedy_fits r = false -> r = (false, 0, None, None)) /\
  (greedy_fits r = true ->
   (forall p, greedy_lastWithLeader r = Some p ->
              p ∈ domains /\ 0 < leaderState (deref h p)) /\
   (forall p, greedy_last r = Some p ->
              p ∈ domains /\ 0 < sliceState (deref h p)) /\
   (greedy_lastWithLeader r = None <-> leaderCount <= 0) /\
   (greedy_count r = 0 <-> leaderCount <= 0 /\ sliceCount <= 0)).
Proof.
  intros Hty HS HL r. subst r. split; [apply greedy_nofit_shape|].
  destruct (simulateGreedy_phases h domains leaderCount Hty HL)
    as (taken1 & rest1 & Hperm & Hel1 & Hpre1 & Hnil1 & Hrun).
  rewrite (Hrun sliceCount HS). clear Hrun.
  destruct (0 <? leaderCount - total h leaderState taken1) eqn:EL; [done|].
  apply Z.ltb_ge in EL.
  assert (Hty1 : typed h rest1).
  { eapply typed_perm in Hty; [|symmetry; exact Hperm].
    by apply typed_app in Hty as [_ ?]. }
  destruct (takeSlices_spec h (sortedDomains h rest1 false)
              (Int32.wrap (Z.of_nat (length taken1)))
              (Int32.wrap (sliceCount - total h sliceStateWithLeader taken1))
              None)
    as (taken2 & rest2 & Eq2 & Hel2 & Hpre2 & ->).
  { eapply typed_perm; [symmetry; apply sortedDomains_perm|done]. }
  { apply wrap_in_range. }
  { apply wrap_in_range. }
  set (rs := Int32.wrap (sliceCount - total h sliceStateWithLeader taken1))
    in *.
  destruct (0 <? rs - total h sliceState taken2) eqn:Er; [done|].
  apply Z.ltb_ge in Er. intros _.
  unfold greedy_lastWithLeader, greedy_last, greedy_count. simpl.
  assert (Hin2 : forall p, p ∈ taken2 -> p ∈ domains).
  { intros p Hp. rewrite <- Hperm. apply elem_of_app. right.
    rewrite <- (sortedDomains_perm h rest1 false), Eq2.
    apply elem_of_app. by left. }
  pose proof (taken_bound h leaderState taken1 leaderCount Hel1 Hpre1) as Hb1.
  pose proof (taken_bound h sliceState taken2 rs Hel2 Hpre2) as Hb2.
  pose proof (wrap_in_range (sliceCount - total h sliceStateWithLeader taken1))
    as Hrs. fold rs in Hrs.
  repeat split.
  - apply last_elem_of in H. rewrite <- Hperm. apply elem_of_app. by left.
  - apply last_elem_of in H.
    exact (proj1 (Forall_forall (fun p => 0 < leaderState (deref h p)) _)
             Hel1 p H).
  - destruct (last taken2) as [q|] eqn:El; [|done]. simpl in H.
    injection H as ->. by apply Hin2, last_elem_of.
  - destruct (last taken2) as [q|] eqn:El; [|done]. simpl in H.
    injection H as ->. apply last_elem_of in El.
    exact (proj1 (Forall_forall (fun p => 0 < sliceState (deref h p)) _)
             Hel2 p El).
  - intros Hnone. apply last_None in Hnone. subst taken1. simpl in EL. lia.
  - intros Hle. by rewrite (Hnil1 Hle).
  - rewrite wrap_add_wrap_l in H. apply wrap_zero_iff in H.
    + destruct taken1; [|simpl in H; lia]. simpl in EL. lia.
    + unfold Int32.in_range, Int32.min_int, Int32.max_int in *. lia.
  - rewrite wrap_add_wrap_l in H. apply wrap_zero_iff in H.
    + destruct taken1; [|simpl in H; lia]. destruct taken2; [|simpl in H; lia].
      subst rs.
      replace (sliceCount - total h sliceStateWithLeader []) with sliceCount
        in Er by (unfold total; simpl; lia).
      rewrite wrap_small in Er by done.
      unfold total in Er, EL. simpl in Er, EL. lia.
    + unfold Int32.in_range, Int32.min_int, Int32.max_int in *. lia.
  - intros [HL0 HS0]. pose proof (Hnil1 HL0) as ->.
    assert (Hrs' : rs = sliceCount).
    { subst rs.
      replace (sliceCount - total h sliceStateWithLeader []) with sliceCount
        by (unfold total; simpl; lia).
      by apply wrap_small. }
    destruct taken2 as [|p taken2']; [done|].
    specialize (Hpre2 [] p taken2' eq_refl). simpl in Hpre2. lia.
Qed.

Lemma total_nonneg_Forall h (f : domain -> Z) l :
  Forall (fun p => 0 <= f (deref h p)) l -> 0 <= total h f l.
Proof. induction 1 as [|p l Hp _ IH]; simpl; lia. Qed.

(** X5.  [simulateGreedy] is monotone in the slice demand: when the
    capacities with a leader are non-negative and add up to an [int32],
    a request that fits still fits with fewer slices, and is counted on
    no more domains. *)
Theorem simulateGreedy_monotone
  (h : gmap loc domain) (domains : list loc)
  (sliceCount sliceCount' leaderCount : Z) :
  typed h domains ->
  Forall (fun p => 0 <= sliceStateWithLeader (deref h p)) domains ->
  total h sliceStateWithLeader domains <= Int32.max_int ->
  Z.of_nat (length domains) <= Int32.max_int ->
  Int32.in_range leaderCount ->
  0 <= sliceCount <= sliceCount' -> sliceCount' <= Int32.max_int ->
  greedy_fits (simulateGreedy h domains sliceCount' leaderCount) = true ->
  greedy_fits (simulateGreedy h domains sliceCount leaderCount) = true /\
  greedy_count (simulateGreedy h domains sliceCount leaderCount)
  <= greedy_count (simulateGreedy h domains sliceCount' leaderCount).
Proof.
  intros Hty Hnn Htot Hlen HL HS HS'.
  destruct (simulateGreedy_phases h domains leaderCount Hty HL)
    as (taken1 & rest1 & Hperm & Hel1 & Hpre1 & Hnil1 & Hrun).
  rewrite !Hrun
    by (unfold Int32.in_range, Int32.min_int, Int32.max_int in *; lia).
  clear Hrun.
  destruct (0 <? leaderCount - total h leaderState taken1); [done|].
  assert (Hty1 : typed h (sortedDomains h rest1 false)).
  { eapply typed_perm; [symmetry; apply sortedDomains_perm|].
    eapply typed_perm in Hty; [|symmetry; exact Hperm].
    by apply typed_app in Hty as [_ ?]. }
  set (A := total h sliceStateWithLeader taken1).
  assert (HA : 0 <= A <= Int32.max_int).
  { rewrite <- (total_perm h sliceStateWithLeader _ _ Hperm), total_app in Htot.
    rewrite <- Hperm in Hnn. apply Forall_app in Hnn as [Hn1 Hn2].
    pose proof (total_nonneg_Forall h sliceStateWithLeader _ Hn1).
    pose proof (total_nonneg_Forall h sliceStateWithLeader _ Hn2).
    subst A. lia. }
  rewrite !(wrap_small (_ - A))
    by (unfold Int32.in_range, Int32.min_int, Int32.max_int in *; lia).
  pose proof (sortedDomains_descending h rest1) as Hs.
  assert (Hk1 : Int32.in_range (Int32.wrap (Z.of_nat (length taken1))))
    by apply wrap_in_range.
  destruct (takeSlices_taken h (sortedDomains h rest1 false)
              (Int32.wrap (Z.of_nat (length taken1))) (sliceCount - A) None
              Hs Hty1 Hk1)
    as (t & Hsub & _ & Hrun & _ & _ & Hmin).
  { unfold Int32.in_range, Int32.min_int, Int32.max_int in *. lia. }
  destruct (takeSlices_taken h (sortedDomains h rest1 false)
              (Int32.wrap (Z.of_nat (length taken1))) (sliceCount' - A) None
              Hs Hty1 Hk1)
    as (t' & Hsub' & _ & Hrun' & _ & _ & _).
  { unfold Int32.in_range, Int32.min_int, Int32.max_int in *. lia. }
  pose proof (takeSlices_fits_iff h (sortedDomains h rest1 false)
                (Int32.wrap (Z.of_nat (length taken1))) (sliceCount - A) None
                Hs Hty1
                ltac:(unfold Int32.in_range, Int32.min_int, Int32.max_int in *;
                      lia)) as Hiff.
  pose proof (takeSlices_fits_iff h (sortedDomains h rest1 false)
                (Int32.wrap (Z.of_nat (length taken1))) (sliceCount' - A) None
                Hs Hty1
                ltac:(unfold Int32.in_range, Int32.min_int, Int32.max_int in *;
                      lia)) as Hiff'.
  rewrite Hrun in *. rewrite Hrun' in *. simpl in Hiff, Hiff'.
  destruct (0 <? sliceCount' - A - total h sliceState t') eqn:Er'; [done|].
  apply Z.ltb_ge in Er'. intros _.
  assert (Er : sliceCount - A - total h sliceState t <= 0).
  { apply Hiff. apply Hiff' in Er'. lia. }
  destruct (0 <? sliceCount - A - total h sliceState t) eqn:Eb;
    [apply Z.ltb_lt in Eb; lia|].
  unfold greedy_fits, greedy_count. simpl. split; [done|].
  specialize (Hmin t' Hsub' ltac:(lia)).
  pose proof (submseteq_length _ _ Hsub') as Hle'.
  rewrite sortedDomains_perm in Hle'.
  assert (Hn : (length taken1 + length rest1 = length domains)%nat).
  { by rewrite <- Hperm, length_app. }
  rewrite !wrap_add_wrap_l.
  rewrite !wrap_small
    by (unfold Int32.in_range, Int32.min_int, Int32.max_int in *; lia).
  lia.
Qed.

(** ** Bounds on the threshold *)

(** X6.  A threshold that [balanceThresholdValue] returns with [true]
    lies between zero and the slice demand; multiplied by the optimal
    domain count it does not exceed the demand; and it is at most the
    capacity of the last domain the simulator took with a leader
    ([sliceStateWithLeader]) and without one ([sliceState]). *)
Theorem balanceThresholdValue_bounds
  (h : gmap loc domain) (startingDomain : domain)
  (sliceCount leaderCount : Z) (balanceOnChildren : bool) (threshold : Z) :
  let candidates := domainsToBalance h startingDomain balanceOnChildren in
  let r := simulateGreedy h candidates sliceCount leaderCount in
  typed h candidates ->
  Forall (fun p => capacity_inv (deref h p)) candidates ->
  Z.of_nat (length candidates) <= Int32.max_int ->
  0 <= sliceCount <= Int32.max_int -> 0 <= leaderCount <= Int32.max_int ->
  balanceThresholdValue h startingDomain sliceCount leaderCount
    balanceOnChildren = Returns (threshold, true) ->
  0 <= threshold <= sliceCount /\
  threshold * greedy_count r <= sliceCount /\
  (forall p, greedy_lastWithLeader r = Some p ->
             threshold <= sliceStateWithLeader (deref h p)) /\
  (forall p, greedy_last r = Some p -> threshold <= sliceState (deref h p)).
Proof.
  intros candidates r Hty Hcap Hlen HS HL Hrun. subst candidates r.
  set (candidates := domainsToBalance h startingDomain balanceOnChildren) in *.
  set (r := simulateGreedy h candidates sliceCount leaderCount).
  assert (Hin : forall p,
            greedy_lastWithLeader r = Some p \/ greedy_last r = Some p ->
            capacity_inv (deref h p)).
  { intros p Hp.
    apply (proj1 (Forall_forall (fun p => capacity_inv (deref h p)) _) Hcap).
    eapply simulateGreedy_last_elem_of; [exact Hty| | |exact Hp];
      unfold Int32.in_range, Int32.min_int, Int32.max_int in *; lia. }
  destruct (balanceThresholdValue_cases h startingDomain sliceCount
              leaderCount balanceOnChildren Hty Hlen HS HL)
    as (Hzero & Hfit & Hnot).
  fold candidates in Hfit, Hnot. fold r in Hfit, Hnot.
  destruct (decide (sliceCount = 0 /\ leaderCount = 0)) as [Hz|Hnz].
  { rewrite (Hzero Hz) in Hrun. injection Hrun as <-.
    destruct Hz as [-> _]. repeat split; try lia.
    - intros p Hp. by destruct (Hin p (or_introl Hp)).
    - intros p Hp. destruct (Hin p (or_intror Hp)). lia. }
  assert (Hpos : 0 < sliceCount \/ 0 < leaderCount) by lia.
  destruct (classic_fits r startingDomain sliceCount leaderCount)
    as [[Hc Hf]|Hno].
  2: { rewrite (Hnot Hpos Hno) in Hrun. done. }
  rewrite (Hfit Hpos Hc Hf) in Hrun. injection Hrun as <-.
  pose proof (simulateGreedy_count_nonzero h candidates sliceCount leaderCount
                Hty HS HL ltac:(lia) Hf) as (k & Hk & Hck & _).
  fold r in Hck.
  assert (Hcnt : 0 < greedy_count r <= Int32.max_int).
  { rewrite Hck, wrap_small;
      unfold Int32.in_range, Int32.min_int, Int32.max_int in *; lia. }
  pose proof (Z.div_pos sliceCount (greedy_count r) ltac:(lia) ltac:(lia))
    as Hdiv0.
  pose proof (Z.mul_div_le sliceCount (greedy_count r) ltac:(lia)) as Hdiv.
  assert (Hdiv1 : sliceCount / greedy_count r <= sliceCount).
  { apply Z.div_le_upper_bound; nia. }
  unfold threshold_spec.
  destruct (greedy_lastWithLeader r) as [p|] eqn:E1;
    destruct (greedy_last r) as [q|] eqn:E2;
    try (pose proof (Hin p (or_introl eq_refl)) as [? ?]);
    try (pose proof (Hin q (or_intror eq_refl)) as [? ?]);
    repeat split; try (intros ? [= <-]); try done; nia.
Qed.

(** ** What the balancer writes *)

Lemma balanceStep_children d sliceSize threshold e l :
  children (balanceStep d sliceSize threshold e l).1.1 = children d.
Proof.
  unfold balanceStep.
  destruct (0 <? l); [done|]. by destruct (0 <? e).
Qed.

(** The loop writes the domains of the slice it walks and no other, and
    leaves the children of every domain alone. *)
Lemma balanceLoop_frame h sel sliceSize threshold e l :
  (forall q, q ∉ sel ->
     (balanceLoop h sel sliceSize threshold e l).1.1 !! q = h !! q) /\
  (forall q,
     children (deref (balanceLoop h sel sliceSize threshold e l).1.1 q)
     = children (deref h q)).
Proof.
  revert h e l. induction sel as [|p rest IH]; intros h e l; simpl; [done|].
  pose proof (balanceStep_children (deref h p) sliceSize threshold e l) as Hch.
  destruct (balanceStep (deref h p) sliceSize threshold e l)
    as [[d1 e1] l1]. simpl in Hch.
  destruct (IH (<[p := d1]> h) e1 l1) as [Hfr Hchn]. split.
  - intros q Hq. apply not_elem_of_cons in Hq as [Hne Hq].
    rewrite Hfr by done. by apply lookup_insert_ne.
  - intros q. rewrite Hchn.
    destruct (decide (p = q)) as [<-|Hne].
    + by rewrite deref_insert_eq.
    + by rewrite deref_insert_ne.
Qed.

(** X7.  Whatever [placeSlicesOnDomainsBalanced] returns, a domain that is
    not among the candidates is as it was before the call; when a
    placement is returned, so is every domain that is not in it. *)
Theorem placeSlicesOnDomainsBalanced_writes_only_selected
  (f : gmap loc domain -> list loc -> list loc) (h : gmap loc domain)
  (domains : list loc) (sliceCount leaderCount sliceSize threshold : Z)
  (h' : gmap loc domain) (res : option (list loc)) (diag : string) :
  placeSlicesOnDomainsBalanced f h domains sliceCount leaderCount sliceSize
    threshold = Returns (h', res, diag) ->
  (forall q, q ∉ domains -> h' !! q = h !! q) /\
  (forall placed, res = Some placed ->
     placed ⊆ domains /\ forall q, q ∉ placed -> h' !! q = h !! q).
Proof.
  intros Hrun.
  apply placeSlicesOnDomainsBalanced_inv in Hrun
    as [(-> & -> & _)|(sel & e' & l' & Hsel & _ & Hloop & Hres)];
    [by split|].
  apply selectOptimalDomainSetToFit_stored in Hsel as (_ & _ & _ & Hsub).
  pose proof (sortedDomainsWithLeader_perm h sel false) as Hperm.
  assert (Hin : sortedDomainsWithLeader h sel false ⊆ domains).
  { intros p Hp. rewrite Hperm in Hp.
    by eapply elem_of_submseteq, sublist_submseteq. }
  destruct (balanceLoop_frame h (sortedDomainsWithLeader h sel false)
              sliceSize threshold
              (Int32.sub sliceCount
                 (Int32.mul
                    (Int32.of_len (sortedDomainsWithLeader h sel false))
                    threshold))
              leaderCount) as [Hfr _].
  rewrite Hloop in Hfr. simpl in Hfr. split.
  - intros q Hq. apply Hfr. intros Hq'. by apply Hq, Hin.
  - intros placed ->. destruct Hres as [([=] & _)|([= ->] & _)]. by split.
Qed.

(** X8.  [placeSlicesOnDomainsBalanced] never changes the children of a
    domain. *)
Theorem placeSlicesOnDomainsBalanced_keeps_children
  (f : gmap loc domain -> list loc -> list loc) (h : gmap loc domain)
  (domains : list loc) (sliceCount leaderCount sliceSize threshold : Z)
  (h' : gmap loc domain) (res : option (list loc)) (diag : string) :
  placeSlicesOnDomainsBalanced f h domains sliceCount leaderCount sliceSize
    threshold = Returns (h', res, diag) ->
  forall q, children (deref h' q) = children (deref h q).
Proof.
  intros Hrun.
  apply placeSlicesOnDomainsBalanced_inv in Hrun
    as [(-> & _)|(sel & e' & l' & _ & _ & Hloop & _)]; [done|].
  destruct (balanceLoop_frame h (sortedDomainsWithLeader h sel false)
              sliceSize threshold
              (Int32.sub sliceCount
                 (Int32.mul
                    (Int32.of_len (sortedDomainsWithLeader h sel false))
                    threshold))
              leaderCount) as [_ Hch].
  by rewrite Hloop in Hch.
Qed.

(** The loop gives the leader to the domains at the front of the slice it
    walks, as long as leaders are left. *)
Lemma balanceLoop_leaders h sel sliceSize threshold e l h' e' l' :
  NoDup sel -> 0 <= l <= Int32.max_int ->
  balanceLoop h sel sliceSize threshold e l = (h', e', l') ->
  l' = Z.max 0 (l - Z.of_nat (length sel)) /\
  forall i p, sel !! i = Some p ->
    leaderState (deref h' p) = if Z.of_nat i <? l then 1 else 0.
Proof.
  intros Hnd. revert h e l.
  induction sel as [|p rest IH]; intros h e l Hl.
  - simpl. intros [= <- <- <-]. split; [lia|]. intros i p Hi. done.
  - apply NoDup_cons in Hnd as [Hp Hnd].
    change (length (p :: rest)) with (S (length rest)).
    rewrite Nat2Z.inj_succ. simpl.
    destruct (balanceStep (deref h p) sliceSize threshold e l)
      as [[d1 e1] l1] eqn:Estep.
    assert (Hd1 : leaderState d1 = (if 0 <? l then 1 else 0) /\
                  l1 = (if 0 <? l then l - 1 else l)).
    { unfold balanceStep in Estep.
      destruct (0 <? l) eqn:El.
      - apply Z.ltb_lt in El. injection Estep as <- _ <-. split; [done|].
        apply wrap_small.
        unfold Int32.in_range, Int32.min_int, Int32.max_int in *. lia.
      - destruct (0 <? e); injection Estep as <- _ <-; by split. }
    destruct Hd1 as [Hls1 Hl1]. intros Hloop.
    pose proof (balanceLoop_frame (<[p := d1]> h) rest sliceSize threshold
                  e1 l1) as [Hfr _].
    rewrite Hloop in Hfr. simpl in Hfr.
    apply IH in Hloop as [Hl' Hall]; [|done|].
    + split.
      * rewrite Hl', Hl1. destruct (0 <? l) eqn:El;
          [apply Z.ltb_lt in El|apply Z.ltb_ge in El]; lia.
      * intros [|j] q Hq; simpl in Hq.
        -- injection Hq as <-.
           rewrite (deref_frame (<[p := d1]> h) h' p) by (by apply Hfr).
           by rewrite deref_insert_eq.
        -- rewrite (Hall j q Hq), Hl1.
           destruct (0 <? l) eqn:El;
             [apply Z.ltb_lt in El|apply Z.ltb_ge in El].
           ++ destruct (Z.of_nat j <? l - 1) eqn:E1;
                destruct (Z.of_nat (S j) <? l) eqn:E2; try done;
                [apply Z.ltb_lt in E1; apply Z.ltb_ge in E2
                |apply Z.ltb_ge in E1; apply Z.ltb_lt in E2]; lia.
           ++ destruct (Z.of_nat j <? l) eqn:E1;
                destruct (Z.of_nat (S j) <? l) eqn:E2; try done;
                [apply Z.ltb_lt in E1|apply Z.ltb_lt in E2]; lia.
    + rewrite Hl1. destruct (0 <? l) eqn:El;
        [apply Z.ltb_lt in El|]; lia.
Qed.

(** X9.  When [placeSlicesOnDomainsBalanced] succeeds on pairwise-distinct
    candidates, the leaders sit at the front of the returned slice: its
    first [leaderCount] domains end with [leaderState = 1], the others
    with [leaderState = 0], and the slice is at least [leaderCount]
    long. *)
Theorem placeSlicesOnDomainsBalanced_leaders_first
  (f : gmap loc domain -> list loc -> list loc) (h : gmap loc domain)
  (domains : list loc) (sliceCount leaderCount sliceSize threshold : Z)
  (h' : gmap loc domain) (placed : list loc) (diag : string) :
  NoDup domains -> 0 <= leaderCount <= Int32.max_int ->
  placeSlicesOnDomainsBalanced f h domains sliceCount leaderCount sliceSize
    threshold = Returns (h', Some placed, diag) ->
  leaderCount <= Z.of_nat (length placed) /\
  forall i p, placed !! i = Some p ->
    leaderState (deref h' p) = if Z.of_nat i <? leaderCount then 1 else 0.
Proof.
  intros Hnd HL Hrun.
  apply placeSlicesOnDomainsBalanced_inv in Hrun
    as [(_ & [=] & _)|(sel & e' & l' & Hsel & _ & Hloop & Hres)].
  destruct Hres as [([=] & _)|([= ->] & _ & _ & Hl')].
  apply selectOptimalDomainSetToFit_stored in Hsel as (_ & _ & _ & Hsub).
  assert (Hnd' : NoDup (sortedDomainsWithLeader h sel false)).
  { rewrite sortedDomainsWithLeader_perm. by eapply sublist_NoDup. }
  apply balanceLoop_leaders in Hloop as [Hl Hall]; [|done|done].
  split; [lia|done].
Qed.

(** Whatever holds of each step of the loop, under the bounds the loop
    keeps, holds of every domain of a duplicate-free slice between the
    heap before and the heap after. *)
Lemma balanceLoop_each (R : domain -> domain -> Prop) sliceSize threshold :
  (forall d e l d' e' l',
     0 <= sliceStateWithLeader d <= Int32.max_int ->
     0 <= sliceState d <= Int32.max_int ->
     0 <= e -> e + threshold <= Int32.max_int -> 0 <= l <= Int32.max_int ->
     balanceStep d sliceSize threshold e l = (d', e', l') -> R d d') ->
  forall h sel e l h' e' l',
    NoDup sel -> 0 <= threshold ->
    Forall (fun p => 0 <= sliceStateWithLeader (deref h p) <= Int32.max_int /\
                     0 <= sliceState (deref h p) <= Int32.max_int) sel ->
    0 <= e -> e + threshold * Z.of_nat (length sel) <= Int32.max_int ->
    0 <= l <= Int32.max_int ->
    balanceLoop h sel sliceSize threshold e l = (h', e', l') ->
    Forall (fun p => R (deref h p) (deref h' p)) sel.
Proof.
  intros HR h sel. revert h.
  induction sel as [|p rest IH]; intros h e l h' e' l' Hnd HT Hcap He HeT Hl.
  - intros _. constructor.
  - change (length (p :: rest)) with (S (length rest)) in *.
    rewrite Nat2Z.inj_succ in *. simpl.
    apply NoDup_cons in Hnd as [Hp Hnd].
    apply Forall_cons in Hcap as [[Hwl Hss] Hcap].
    destruct (balanceStep (deref h p) sliceSize threshold e l)
      as [[d1 e1] l1] eqn:Estep.
    pose proof (HR _ _ _ _ _ _ Hwl Hss He ltac:(nia) Hl Estep) as HRp.
    apply balanceStep_spec in Estep
      as (He1 & _ & _ & _ & Hls1 & Hl1 & _); auto; [|nia].
    intros Hloop.
    pose proof (balanceLoop_frame (<[p := d1]> h) rest sliceSize threshold
                  e1 l1) as [Hfr _].
    rewrite Hloop in Hfr. simpl in Hfr.
    assert (Hl1' : 0 <= l1 <= Int32.max_int).
    { rewrite Hl1, Hls1. destruct (0 <? l) eqn:El; [apply Z.ltb_lt in El|];
        lia. }
    apply IH in Hloop; auto.
    + constructor.
      * rewrite (deref_frame (<[p := d1]> h) h' p) by (by apply Hfr).
        by rewrite deref_insert_eq.
      * eapply Forall_impl; [apply Forall_and; split;
          [exact Hloop|apply Forall_forall; intros q Hq; exact Hq]|].
        intros q [Hb Hq]. simpl in *.
        rewrite deref_insert_ne in Hb by (intros ->; done). done.
    + eapply Forall_impl; [apply Forall_and; split;
        [exact Hcap|apply Forall_forall; intros q Hq; exact Hq]|].
      intros q [Hc Hq]. simpl in *.
      rewrite deref_insert_ne by (intros ->; done). done.
    + lia.
    + nia.
Qed.

Lemma balanceStep_within_capacity d sliceSize threshold e l d' e' l' :
  0 <= sliceStateWithLeader d <= Int32.max_int ->
  0 <= sliceState d <= Int32.max_int ->
  0 <= e -> e + threshold <= Int32.max_int -> 0 <= l <= Int32.max_int ->
  0 <= threshold ->
  balanceStep d sliceSize threshold e l = (d', e', l') ->
  within_capacity threshold d d'.
Proof.
  intros Hwl Hss He HeT Hl HT. unfold balanceStep, within_capacity.
  destruct (0 <? l) eqn:El; [|destruct (0 <? e) eqn:Ee];
    intros [= <- <- <-]; simpl.
  - left. split; [done|].
    assert (E1 : Int32.sub (sliceStateWithLeader d) threshold
                 = sliceStateWithLeader d - threshold) by int32_exact.
    rewrite E1.
    set (t := Z.min (sliceStateWithLeader d - threshold) e).
    assert (Ht : - threshold <= t <= e) by (subst t; lia).
    assert (Ht' : t <= sliceStateWithLeader d - threshold) by (subst t; lia).
    assert (E2 : Int32.add threshold t = threshold + t) by int32_exact.
    rewrite E2. lia.
  - right. split; [done|]. left.
    assert (E1 : Int32.sub (sliceState d) threshold
                 = sliceState d - threshold) by int32_exact.
    rewrite E1.
    set (t := Z.min (sliceState d - threshold) e).
    assert (Ht : - threshold <= t <= e) by (subst t; lia).
    assert (Ht' : t <= sliceState d - threshold) by (subst t; lia).
    assert (E2 : Int32.add threshold t = threshold + t) by int32_exact.
    rewrite E2. lia.
  - right. split; [done|]. right.
    assert (E2 : Int32.add threshold 0 = threshold) by int32_exact.
    by rewrite E2.
Qed.

(** The loop as [placeSlicesOnDomainsBalanced] runs it, with the extra
    slices it starts from. *)
Lemma placeSlicesOnDomainsBalanced_loop
  (f : gmap loc domain -> list loc -> list loc) h domains
  sliceCount leaderCount sliceSize threshold h' res diag :
  candidates_ok h domains ->
  threshold_ok h domains sliceCount leaderCount threshold ->
  0 <= sliceCount <= Int32.max_int -> 0 <= leaderCount <= Int32.max_int ->
  placeSlicesOnDomainsBalanced f h domains sliceCount leaderCount sliceSize
    threshold = Returns (h', res, diag) ->
  (h' = h /\ res = None) \/
  exists placed e' l',
    NoDup placed /\ placed ⊆ domains /\
    Forall (fun p => 0 <= sliceStateWithLeader (deref h p) <= Int32.max_int /\
                     0 <= sliceState (deref h p) <= Int32.max_int) placed /\
    0 <= sliceCount - threshold * Z.of_nat (length placed) /\
    balanceLoop h placed sliceSize threshold
      (sliceCount - threshold * Z.of_nat (length placed)) leaderCount
      = (h', e', l') /\
    (res = None \/ res = Some placed).
Proof.
  intros (Hnd & Hty & Hcap) (HT & HTn) HS HL Hrun.
  apply placeSlicesOnDomainsBalanced_inv in Hrun
    as [(-> & -> & _)|(sel & e' & l' & Hsel & Hguard & Hloop & Hres)];
    [by left|right].
  pose proof Hsel as Hstored.
  apply selectOptimalDomainSetToFit_stored in Hstored
    as (_ & Hopt & Hlen & Hsub).
  pose proof (simulateGreedy_count_in_range h domains sliceCount leaderCount)
    as Hrange.
  set (opt := greedy_count (simulateGreedy h domains sliceCount leaderCount))
    in *.
  pose proof (sortedDomainsWithLeader_perm h sel false) as Hperm.
  set (placed := sortedDomainsWithLeader h sel false) in *.
  assert (Hnd' : NoDup placed).
  { rewrite Hperm. by eapply sublist_NoDup. }
  assert (Hin : placed ⊆ domains).
  { intros p Hp. rewrite Hperm in Hp.
    by eapply elem_of_submseteq, sublist_submseteq. }
  assert (Hlen' : Z.of_nat (length placed) = opt).
  { rewrite Hperm, Hlen. lia. }
  assert (Hmul : Int32.mul (Int32.of_len placed) threshold
                 = threshold * Z.of_nat (length placed)).
  { unfold Int32.mul, Int32.of_len. rewrite Hlen'.
    rewrite (wrap_small opt) by done.
    rewrite Z.mul_comm. apply wrap_small.
    unfold Int32.in_range, Int32.min_int, Int32.max_int in *. nia. }
  assert (Hmul' : Int32.mul (Int32.of_len sel) threshold
                  = threshold * Z.of_nat (length placed)).
  { rewrite <- Hmul. unfold Int32.of_len. by rewrite Hperm. }
  rewrite Hmul in Hloop. rewrite Hmul' in Hguard.
  assert (He0 : Int32.sub sliceCount (threshold * Z.of_nat (length placed))
                = sliceCount - threshold * Z.of_nat (length placed)).
  { apply wrap_small.
    unfold Int32.in_range, Int32.min_int, Int32.max_int in *. nia. }
  rewrite He0 in Hloop.
  exists placed, e', l'. repeat split; auto; try lia.
  - apply Forall_forall. intros p Hp. apply Hin in Hp.
    pose proof (proj1 (Forall_forall _ _) Hty p Hp) as (Hr1 & Hr2 & _).
    pose proof (proj1 (Forall_forall _ _) Hcap p Hp) as Hc.
    unfold capacity_inv, Int32.in_range in *. lia.
  - destruct Hres as [(-> & _)|(-> & _)]; auto.
Qed.

(** X10.  On candidates of the data model, with a threshold that is
    non-negative and fits 32 bits when multiplied by the optimal count:
    when [placeSlicesOnDomainsBalanced] succeeds, a returned domain that
    was made leader holds at most the [sliceStateWithLeader] it had, and
    any other returned domain holds at most the [sliceState] it had, or
    else exactly the threshold. *)
Theorem placeSlicesOnDomainsBalanced_within_capacity
  (f : gmap loc domain -> list loc -> list loc) (h : gmap loc domain)
  (domains : list loc) (sliceCount leaderCount sliceSize threshold : Z)
  (h' : gmap loc domain) (placed : list loc) (diag : string) :
  candidates_ok h domains ->
  threshold_ok h domains sliceCount leaderCount threshold ->
  0 <= sliceCount <= Int32.max_int -> 0 <= leaderCount <= Int32.max_int ->
  placeSlicesOnDomainsBalanced f h domains sliceCount leaderCount sliceSize
    threshold = Returns (h', Some placed, diag) ->
  forall p, p ∈ placed ->
    within_capacity threshold (deref h p) (deref h' p).
Proof.
  intros Hc HT HS HL Hrun p Hp.
  pose proof HT as [HT0 _].
  eapply placeSlicesOnDomainsBalanced_loop in Hrun
    as [(_ & [=])|(placed' & e' & l' & Hnd & _ & Hcap & He0 & Hloop & Hres)];
    eauto.
  destruct Hres as [[=]|[= ->]].
  eapply (balanceLoop_each (within_capacity threshold)) in Hloop; eauto.
  - exact (proj1 (Forall_forall
                    (fun p => within_capacity threshold (deref h p)
                                (deref h' p)) _) Hloop p Hp).
  - intros. by eapply balanceStep_within_capacity.
  - lia.
Qed.

Lemma balanceStep_threshold_floor d sliceSize threshold e l d' e' l' :
  0 <= sliceStateWithLeader d <= Int32.max_int ->
  0 <= sliceState d <= Int32.max_int ->
  0 <= e -> e + threshold <= Int32.max_int -> 0 <= l <= Int32.max_int ->
  0 <= threshold ->
  balanceStep d sliceSize threshold e l = (d', e', l') ->
  threshold_floor threshold d d'.
Proof.
  intros Hwl Hss He HeT Hl HT. unfold balanceStep, threshold_floor.
  destruct (0 <? l) eqn:El; [|destruct (0 <? e) eqn:Ee];
    intros [= <- <- <-]; simpl.
  - left. split; [done|].
    assert (E1 : Int32.sub (sliceStateWithLeader d) threshold
                 = sliceStateWithLeader d - threshold) by int32_exact.
    rewrite E1.
    set (t := Z.min (sliceStateWithLeader d - threshold) e).
    assert (Ht : - threshold <= t <= e) by (subst t; lia).
    assert (Ht' : Z.min 0 (sliceStateWithLeader d - threshold) <= t)
      by (subst t; lia).
    assert (E2 : Int32.add threshold t = threshold + t) by int32_exact.
    rewrite E2. lia.
  - right. split; [done|].
    assert (E1 : Int32.sub (sliceState d) threshold
                 = sliceState d - threshold) by int32_exact.
    rewrite E1.
    set (t := Z.min (sliceState d - threshold) e).
    assert (Ht : - threshold <= t <= e) by (subst t; lia).
    assert (Ht' : Z.min 0 (sliceState d - threshold) <= t) by (subst t; lia).
    assert (E2 : Int32.add threshold t = threshold + t) by int32_exact.
    rewrite E2. lia.
  - right. split; [done|].
    assert (E2 : Int32.add threshold 0 = threshold) by int32_exact.
    rewrite E2. lia.
Qed.

(** C4, amended.  On pairwise-distinct candidates with non-negative
    capacities, for non-negative counts and a non-negative threshold whose
    product with the optimal domain count fits 32 bits: when
    [placeSlicesOnDomainsBalanced] succeeds, every returned domain that was
    made leader has a final [sliceState] of at least the smaller of the
    threshold and the [sliceStateWithLeader] it had before the call, and
    every other returned domain of at least the smaller of the threshold
    and the [sliceState] it had; so the threshold is met by every
    returned domain whose capacity for its role was at least the
    threshold. *)
Theorem threshold_floor_up_to_capacity
  (f : gmap loc domain -> list loc -> list loc) (h : gmap loc domain)
  (domains : list loc) (sliceCount leaderCount sliceSize threshold : Z)
  (h' : gmap loc domain) (placed : list loc) (diag : string) :
  candidates_ok h domains ->
  threshold_ok h domains sliceCount leaderCount threshold ->
  0 <= sliceCount <= Int32.max_int -> 0 <= leaderCount <= Int32.max_int ->
  1 <= sliceSize <= Int32.max_int ->
  placeSlicesOnDomainsBalanced f h domains sliceCount leaderCount sliceSize
    threshold = Returns (h', Some placed, diag) ->
  forall p, p ∈ placed -> threshold_floor threshold (deref h p) (deref h' p).
Proof.
  intros Hc HT HS HL _ Hrun p Hp.
  pose proof HT as [HT0 _].
  eapply placeSlicesOnDomainsBalanced_loop in Hrun
    as [(_ & [=])|(placed' & e' & l' & Hnd & _ & Hcap & He0 & Hloop & Hres)];
    eauto.
  destruct Hres as [[=]|[= ->]].
  eapply (balanceLoop_each (threshold_floor threshold)) in Hloop; eauto.
  - exact (proj1 (Forall_forall
                    (fun p => threshold_floor threshold (deref h p)
                                (deref h' p)) _) Hloop p Hp).
  - intros. by eapply balanceStep_threshold_floor.
  - lia.
Qed.

(** ** The empty request *)

Lemma takeSlices_nothing h sorted count remS last0 :
  remS <= 0 -> takeSlices h sorted count remS last0 = (count, remS, last0).
Proof.
  intros Hle. destruct sorted as [|p rest]; simpl; [done|].
  destruct (0 <? remS) eqn:E; [apply Z.ltb_lt in E; lia|done].
Qed.

Lemma simulateGreedy_nothing h domains sliceCount leaderCount :
  sliceCount <= 0 -> leaderCount <= 0 ->
  simulateGreedy h domains sliceCount leaderCount = (true, 0, None, None).
Proof.
  intros HS HL. unfold simulateGreedy.
  destruct (0 <? leaderCount) eqn:EL; [apply Z.ltb_lt in EL; lia|].
  simpl. rewrite EL, takeSlices_nothing by done.
  destruct (0 <? sliceCount) eqn:ES; [apply Z.ltb_lt in ES; lia|done].
Qed.

Lemma fillTable_zero h domains tbl : fillTable h domains 0 tbl = tbl.
Proof.
  unfold fillTable. induction domains as [|p ds IH]; simpl; [done|].
  exact IH.
Qed.

(** X11.  For a request of no slice and no leader,
    [selectOptimalDomainSetToFit] returns the empty, non-nil selection and
    [placeSlicesOnDomainsBalanced] succeeds with the empty placement and
    leaves every domain as it was, whatever the candidates, the slice
    size and the threshold. *)
Theorem empty_request_places_nothing
  (f : gmap loc domain -> list loc -> list loc) (h : gmap loc domain)
  (domains : list loc) (sliceSize threshold : Z) (priorizeByEntropy : bool) :
  selectOptimalDomainSetToFit f h domains 0 0 sliceSize priorizeByEntropy
    = Returns (Some []) /\
  placeSlicesOnDomainsBalanced f h domains 0 0 sliceSize threshold
    = Returns (h, Some [], EmptyString).
Proof.
  assert (Hsel : forall b,
            selectOptimalDomainSetToFit f h domains 0 0 sliceSize b
            = Returns (Some [])).
  { intros b. unfold selectOptimalDomainSetToFit.
    rewrite simulateGreedy_nothing by lia. simpl.
    unfold placementTable. simpl. rewrite fillTable_zero. reflexivity. }
  split; [apply Hsel|].
  unfold placeSlicesOnDomainsBalanced. rewrite Hsel.
  assert (Hm : Int32.mul (Int32.of_len (@nil loc)) threshold = 0)
    by reflexivity.
  rewrite Hm. reflexivity.
Qed.

(** ** What the keys of the placement table mean *)

Lemma writeIfAbsent_keyed P cur leader st pl :
  cells_keyed P cur -> P leader st pl ->
  cells_keyed P (writeIfAbsent cur leader st pl).
Proof.
  intros Hcur Hpl. unfold writeIfAbsent.
  destruct (cur !! leader) as [inner|] eqn:E.
  - destruct (inner !! st) eqn:E'; [done|].
    intros l' inner' s' pl'. rewrite lookup_insert.
    case_decide as Hl; [|by apply Hcur].
    subst l'. intros [= <-]. rewrite lookup_insert.
    case_decide as Hs; [by intros [= <-]; subst s'|by apply (Hcur leader inner)].
  - intros l' inner' s' pl'. rewrite lookup_insert.
    case_decide as Hl; [|by apply Hcur].
    intros [= <-]. rewrite lookup_singleton_Some. by intros [<- <-]; subst l'.
Qed.

Lemma extendCell_keyed P h p bl bs before cur :
  cells_keyed P cur ->
  (0 < bl -> 0 < leaderState (deref h p) ->
   P (Int32.sub bl (leaderState (deref h p)))
     (Int32.sub bs (stateWithLeader (deref h p))) (before ++ [p])) ->
  (0 < sliceState (deref h p) ->
   P bl (Int32.sub bs (state (deref h p))) (before ++ [p])) ->
  cells_keyed P (extendCell h p bl bs before cur).
Proof.
  intros Hcur Hwith Hwithout. unfold extendCell.
  destruct ((bl <=? 0) && (bs <=? 0)); [done|].
  destruct (0 <? bl) eqn:E1; destruct (0 <? leaderState (deref h p)) eqn:E2;
    destruct (0 <? sliceState (deref h p)) eqn:E3; simpl;
    try apply Z.ltb_lt in E1; try apply Z.ltb_lt in E2;
    try apply Z.ltb_lt in E3; auto using writeIfAbsent_keyed.
Qed.

Lemma extendLayer_keyed P h p prev cur :
  cells_keyed P prev ->
  (forall bl bs pl, P bl bs pl ->
     (0 < bl -> 0 < leaderState (deref h p) ->
      P (Int32.sub bl (leaderState (deref h p)))
        (Int32.sub bs (stateWithLeader (deref h p))) (pl ++ [p])) /\
     (0 < sliceState (deref h p) ->
      P bl (Int32.sub bs (state (deref h p))) (pl ++ [p]))) ->
  cells_keyed P cur -> cells_keyed P (extendLayer h p prev cur).
Proof.
  intros Hprev Hstep Hcur. unfold extendLayer.
  apply foldl_invariant; [done|].
  intros c bl [inner Hinner]%elem_of_sortedKeys Hc. rewrite Hinner. simpl.
  apply foldl_invariant; [done|].
  intros c' bs [pl Hpl]%elem_of_sortedKeys Hc'. rewrite Hpl. simpl.
  destruct (Hstep bl bs pl (Hprev bl inner bs pl Hinner Hpl)) as [H1 H2].
  by apply extendCell_keyed.
Qed.

Lemma forEachCount_keyed P h p k tbl :
  (forall bl bs pl, P bl bs pl ->
     (0 < bl -> 0 < leaderState (deref h p) ->
      P (Int32.sub bl (leaderState (deref h p)))
        (Int32.sub bs (stateWithLeader (deref h p))) (pl ++ [p])) /\
     (0 < sliceState (deref h p) ->
      P bl (Int32.sub bs (state (deref h p))) (pl ++ [p]))) ->
  Forall (cells_keyed P) tbl ->
  Forall (cells_keyed P) (forEachCount h p k tbl).
Proof.
  intros Hstep. revert tbl.
  induction k as [|j IH]; intros tbl Htbl; simpl; [done|].
  assert (Hget : forall i, cells_keyed P (tbl !!! i)).
  { intros i. rewrite list_lookup_total_alt.
    destruct (tbl !! i) as [c|] eqn:E; simpl.
    - by apply (proj1 (Forall_lookup _ _) Htbl i).
    - intros leader inner st pl H. by rewrite lookup_empty in H. }
  apply IH. apply Forall_insert; [done|].
  by apply extendLayer_keyed.
Qed.

Lemma leadersUsed_snoc h roles pb :
  leadersUsed h (roles ++ [pb])
  = leadersUsed h roles + (if pb.2 then leaderState (deref h pb.1) else 0).
Proof. induction roles as [|x l IH]; simpl; [lia|]. rewrite IH. lia. Qed.

Lemma unitsUsed_snoc h roles pb :
  unitsUsed h (roles ++ [pb])
  = unitsUsed h roles
    + (if pb.2 then stateWithLeader (deref h pb.1) else state (deref h pb.1)).
Proof. induction roles as [|x l IH]; simpl; [lia|]. rewrite IH. lia. Qed.

(** Taking a domain, with or without a leader, keeps the meaning of the
    keys. *)
Lemma cell_inv_step h leaderCount units p bl bs pl :
  domain_in_range (deref h p) ->
  cell_inv h leaderCount units bl bs pl ->
  (0 < bl -> 0 < leaderState (deref h p) ->
   cell_inv h leaderCount units
     (Int32.sub bl (leaderState (deref h p)))
     (Int32.sub bs (stateWithLeader (deref h p))) (pl ++ [p])) /\
  (0 < sliceState (deref h p) ->
   cell_inv h leaderCount units bl
     (Int32.sub bs (state (deref h p))) (pl ++ [p])).
Proof.
  intros (_ & _ & Hls & _) (roles & Hpl & Hok & Hr & Hl & Hs). split.
  - intros Hbl Hp. exists (roles ++ [(p, true)]).
    assert (Hsub : Int32.sub bl (leaderState (deref h p))
                   = bl - leaderState (deref h p)).
    { apply wrap_small. unfold Int32.in_range, Int32.min_int,
        Int32.max_int in *. lia. }
    rewrite Hsub, fmap_app, Hpl, leadersUsed_snoc, unitsUsed_snoc. simpl.
    repeat split.
    + apply Forall_app. split; [done|]. by constructor.
    + unfold Int32.in_range, Int32.min_int, Int32.max_int in *. lia.
    + unfold Int32.in_range, Int32.min_int, Int32.max_int in *. lia.
    + lia.
    + rewrite Hs. unfold Int32.sub. rewrite wrap_sub_wrap_l. f_equal. lia.
  - intros Hp. exists (roles ++ [(p, false)]).
    rewrite fmap_app, Hpl, leadersUsed_snoc, unitsUsed_snoc. simpl.
    repeat split.
    + apply Forall_app. split; [done|]. by constructor.
    + apply Hr.
    + apply Hr.
    + lia.
    + rewrite Hs. unfold Int32.sub. rewrite wrap_sub_wrap_l. f_equal. lia.
Qed.

Lemma fillTable_keyed h leaderCount units domains k tbl :
  typed h domains ->
  Forall (cells_keyed (cell_inv h leaderCount units)) tbl ->
  Forall (cells_keyed (cell_inv h leaderCount units))
    (fillTable h domains k tbl).
Proof.
  unfold fillTable. intros Hty. revert tbl.
  induction Hty as [|p ds Hp _ IH]; intros tbl Htbl; simpl; [done|].
  apply IH. apply forEachCount_keyed; [|done].
  intros bl bs pl Hinv. by apply cell_inv_step.
Qed.

Lemma initTable_keyed h k sliceCount leaderCount sliceSize :
  Int32.in_range leaderCount ->
  Forall (cells_keyed
            (cell_inv h leaderCount (Int32.mul sliceCount sliceSize)))
    (initTable k sliceCount leaderCount sliceSize).
Proof.
  intros HL. unfold initTable. apply Forall_insert.
  - apply Forall_replicate. intros leader inner st pl H.
    by rewrite lookup_empty in H.
  - intros leader inner st pl.
    rewrite lookup_singleton_Some. intros [<- <-].
    rewrite lookup_singleton_Some. intros [<- <-].
    exists []. simpl. repeat split; try apply HL; try done; try lia.
    rewrite Z.sub_0_r. symmetry. apply wrap_small, wrap_in_range.
Qed.

(** The loop choosing [bestSlice] returns a list stored under a key that
    is at most zero. *)
Lemma pickSlice_stored_nonpositive (m : gmap Z (list loc)) pl :
  (pickSlice m).2 = Some pl -> exists st, st <= 0 /\ m !! st = Some pl.
Proof.
  unfold pickSlice.
  apply (foldl_invariant
           (fun best : Z * option (list loc) =>
              best.2 = Some pl -> exists st, st <= 0 /\ m !! st = Some pl));
    [done|].
  intros best s _ Hbest.
  destruct (best.1 <? s); simpl; [|done].
  destruct (s <=? 0) eqn:E; simpl; [|done].
  apply Z.leb_le in E. eauto.
Qed.

(** The cell a non-nil result of [selectOptimalDomainSetToFit] is read
    from: no leader left, and no unit left. *)
Lemma selectOptimalDomainSetToFit_cell
  (f : gmap loc domain -> list loc -> list loc) h domains
  sliceCount leaderCount sliceSize (priorizeByEntropy : bool) sel :
  typed h (if priorizeByEntropy then f h domains else domains) ->
  Int32.in_range leaderCount ->
  selectOptimalDomainSetToFit f h domains sliceCount leaderCount sliceSize
    priorizeByEntropy = Returns (Some sel) ->
  exists st,
    st <= 0 /\
    cell_inv h leaderCount (Int32.mul sliceCount sliceSize) 0 st sel.
Proof.
  intros Hty HL. unfold selectOptimalDomainSetToFit.
  destruct (simulateGreedy h domains sliceCount leaderCount)
    as [[[fit opt] lwl] ld].
  destruct fit; simpl; [|done].
  destruct (Int32.add opt 1 <=? 0); [done|].
  intros [= Hsel].
  apply pickSlice_stored_nonpositive in Hsel as (st & Hst & Hsel).
  exists st. split; [done|].
  unfold placementTable in Hsel.
  set (ds := if priorizeByEntropy then f h domains else domains) in *.
  set (tbl := fillTable h ds (Z.to_nat opt)
                (initTable (Z.to_nat opt) sliceCount leaderCount sliceSize))
    in *.
  assert (Htbl : Forall (cells_keyed
                           (cell_inv h leaderCount
                              (Int32.mul sliceCount sliceSize))) tbl).
  { by apply fillTable_keyed, initTable_keyed. }
  rewrite pickLeader_closed_form in Hsel.
  destruct (sortedKeys (tbl !!! Z.to_nat opt)); simpl in Hsel;
    [by rewrite lookup_empty in Hsel|].
  rewrite list_lookup_total_alt in Hsel.
  destruct (tbl !! Z.to_nat opt) as [layer|] eqn:El; simpl in Hsel;
    [|by rewrite lookup_empty in Hsel].
  destruct (layer !! 0) as [inner|] eqn:E0; simpl in Hsel;
    [|by rewrite lookup_empty in Hsel].
  exact (proj1 (Forall_lookup _ _) Htbl _ _ El 0 inner st sel E0 Hsel).
Qed.

Lemma total_sublist_le h (f : domain -> Z) (m l : list loc) :
  m `sublist_of` l ->
  Forall (fun p => 0 <= f (deref h p)) l ->
  total h f m <= total h f l.
Proof.
  induction 1 as [|x m l _ IH|x m l _ IH]; intros Hl; simpl; [lia| |].
  - apply Forall_cons in Hl as [_ Hl]. specialize (IH Hl). lia.
  - apply Forall_cons in Hl as [Hx Hl]. specialize (IH Hl). lia.
Qed.

Lemma unitsUsed_bounds h roles :
  Forall (fun p => 0 <= state (deref h p) /\ 0 <= stateWithLeader (deref h p))
    roles.*1 ->
  0 <= unitsUsed h roles <= total h unitCapacity roles.*1.
Proof.
  induction roles as [|[p b] roles IH]; [by cbn|].
  rewrite fmap_cons. intros [[H1 H2] Hrest]%Forall_cons.
  specialize (IH Hrest). simpl in H1, H2.
  change ((p, b).1) with p.
  change (unitsUsed h ((p, b) :: roles))
    with ((if b then stateWithLeader (deref h p) else state (deref h p))
          + unitsUsed h roles).
  change (total h unitCapacity (p :: roles.*1))
    with (unitCapacity (deref h p) + total h unitCapacity roles.*1).
  assert (Hc : unitCapacity (deref h p)
               = Z.max (state (deref h p)) (stateWithLeader (deref h p)))
    by reflexivity.
  destruct b; lia.
Qed.

(** X12.  The domains [selectOptimalDomainSetToFit] returns cover the
    request.  When the capacities in units of the candidates are
    non-negative and add up to an [int32], and the demand in units
    [sliceCount * sliceSize] is a non-negative [int32], each returned
    domain can be given a
    role, with a leader only where [leaderState] is positive and without
    one only where [sliceState] is positive, such that the leader
    capacities add up to exactly [leaderCount] and the unit capacities to
    at least the demand. *)
Theorem selectOptimalDomainSetToFit_covers_request
  (f : gmap loc domain -> list loc -> list loc) h domains
  sliceCount leaderCount sliceSize (priorizeByEntropy : bool) sel :
  (forall l, f h l ≡ₚ l) ->
  typed h domains ->
  Forall (fun p => 0 <= state (deref h p) /\ 0 <= stateWithLeader (deref h p))
    domains ->
  total h unitCapacity domains <= Int32.max_int ->
  Int32.in_range leaderCount ->
  0 <= sliceCount * sliceSize <= Int32.max_int ->
  selectOptimalDomainSetToFit f h domains sliceCount leaderCount sliceSize
    priorizeByEntropy = Returns (Some sel) ->
  exists roles,
    roles.*1 = sel /\ Forall (role_ok h) roles /\
    leadersUsed h roles = leaderCount /\
    sliceCount * sliceSize <= unitsUsed h roles.
Proof.
  intros Hf Hty Hnn Hcap HL Hdemand Hsel.
  set (ds := if priorizeByEntropy then f h domains else domains).
  assert (Hperm : ds ≡ₚ domains) by (subst ds; by destruct priorizeByEntropy).
  assert (Hty' : typed h ds) by (unfold typed; by rewrite Hperm).
  destruct (selectOptimalDomainSetToFit_stored _ _ _ _ _ _ _ _ Hsel)
    as (_ & _ & _ & Hsub). fold ds in Hsub.
  destruct (selectOptimalDomainSetToFit_cell _ _ _ _ _ _ _ _ Hty' HL Hsel)
    as (st & Hst & roles & Hroles & Hok & _ & Hleft & Hunits).
  exists roles. repeat split; [done|done|lia|].
  assert (Hnn' : Forall (fun p => 0 <= state (deref h p)
                                  /\ 0 <= stateWithLeader (deref h p)) ds)
    by (by rewrite Hperm).
  assert (Hnnsel : Forall (fun p => 0 <= state (deref h p)
                                    /\ 0 <= stateWithLeader (deref h p))
                     roles.*1).
  { rewrite Hroles. apply Forall_forall. intros p Hp.
    apply (proj1 (Forall_forall
                    (fun p => 0 <= state (deref h p)
                              /\ 0 <= stateWithLeader (deref h p)) ds) Hnn').
    by eapply elem_of_sublist. }
  pose proof (unitsUsed_bounds h roles Hnnsel) as [Hlo Hhi].
  assert (Htot : total h unitCapacity roles.*1 <= total h unitCapacity domains).
  { rewrite Hroles, <- (total_perm h unitCapacity ds domains Hperm).
    apply total_sublist_le; [done|].
    eapply Forall_impl; [exact Hnn'|].
    intros p [H1 H2]. unfold unitCapacity. lia. }
  assert (Hmul : Int32.mul sliceCount sliceSize = sliceCount * sliceSize).
  { apply wrap_small. unfold Int32.in_range, Int32.min_int, Int32.max_int in *.
    lia. }
  rewrite Hmul in Hunits.
  rewrite wrap_small in Hunits; [lia|].
  unfold Int32.in_range, Int32.min_int, Int32.max_int in *. lia.
Qed.

(** X13.  [selectOptimalDomainSetToFit] keeps the order of the candidates:
    the returned domains are a subsequence of the list the table was
    filled from, which is the argument itself unless candidates were
    asked to be ordered by entropy first. *)
Theorem selectOptimalDomainSetToFit_keeps_order
  (f : gmap loc domain -> list loc -> list loc) h domains
  sliceCount leaderCount sliceSize (priorizeByEntropy : bool) sel :
  selectOptimalDomainSetToFit f h domains sliceCount leaderCount sliceSize
    priorizeByEntropy = Returns (Some sel) ->
  sel `sublist_of` (if priorizeByEntropy then f h domains else domains).
Proof.
  intros Hsel.
  by destruct (selectOptimalDomainSetToFit_stored _ _ _ _ _ _ _ _ Hsel)
    as (_ & _ & _ & Hsub).
Qed.


(** ** Panics, and the fields the balancer derives *)

(** X14.  With fewer than [2 ^ 31 - 1] candidates the table is never
    allocated with a negative length: neither [selectOptimalDomainSetToFit]
    nor [placeSlicesOnDomainsBalanced] panics. *)
Theorem selectOptimalDomainSetToFit_no_panic
  (f : gmap loc domain -> list loc -> list loc) (h : gmap loc domain)
  (domains : list loc) (sliceCount leaderCount sliceSize threshold : Z)
  (priorizeByEntropy : bool) :
  typed h domains ->
  Int32.in_range sliceCount -> Int32.in_range leaderCount ->
  Z.of_nat (length domains) < Int32.max_int ->
  selectOptimalDomainSetToFit f h domains sliceCount leaderCount sliceSize
    priorizeByEntropy <> Panics /\
  placeSlicesOnDomainsBalanced f h domains sliceCount leaderCount sliceSize
    threshold <> Panics.
Proof.
  intros Hty HS HL Hlen.
  assert (Hsel : forall b,
             selectOptimalDomainSetToFit f h domains sliceCount leaderCount
               sliceSize b <> Panics).
  { intros b. unfold selectOptimalDomainSetToFit.
    pose proof (simulateGreedy_count h domains sliceCount leaderCount
                  Hty HS HL) as Hcount.
    unfold greedy_fits, greedy_count in Hcount.
    destruct (simulateGreedy h domains sliceCount leaderCount)
      as [[[fit opt] lwl] ld]. simpl in Hcount.
    destruct fit; simpl; [|done].
    destruct (Hcount eq_refl) as (k & -> & Hk & _).
    assert (Hwrap : Int32.wrap (Z.of_nat k) = Z.of_nat k).
    { apply wrap_small.
      unfold Int32.in_range, Int32.min_int, Int32.max_int in *. lia. }
    rewrite Hwrap.
    assert (Hadd : Int32.add (Z.of_nat k) 1 = Z.of_nat k + 1).
    { apply wrap_small.
      unfold Int32.in_range, Int32.min_int, Int32.max_int in *. lia. }
    rewrite Hadd.
    destruct (Z.of_nat k + 1 <=? 0) eqn:E; [|done].
    apply Z.leb_le in E. lia. }
  split; [apply Hsel|].
  unfold placeSlicesOnDomainsBalanced.
  specialize (Hsel false).
  destruct (selectOptimalDomainSetToFit f h domains sliceCount leaderCount
              sliceSize false) as [[sel|]|]; [|done|done].
  destruct (sliceCount <? _); [done|].
  destruct (balanceLoop _ _ _ _ _ _) as [[h1 e1] l1].
  by destruct ((0 <? e1) || (0 <? l1)).
Qed.

Lemma balanceLoop_written (R : domain -> Prop) sliceSize threshold :
  (forall d e l, R (balanceStep d sliceSize threshold e l).1.1) ->
  forall sel h e l,
    Forall (fun p => R (deref (balanceLoop h sel sliceSize threshold e l).1.1 p))
      sel.
Proof.
  intros HR. induction sel as [|p rest IH]; intros h e l; [constructor|].
  simpl. pose proof (HR (deref h p) e l) as Hd.
  destruct (balanceStep (deref h p) sliceSize threshold e l)
    as [[d1 e1] l1]. simpl in Hd.
  specialize (IH (<[p := d1]> h) e1 l1).
  constructor; [|done].
  destruct (decide (p ∈ rest)) as [Hin|Hout].
  - exact (proj1 (Forall_forall
                    (fun q => R (deref (balanceLoop (<[p := d1]> h) rest
                                          sliceSize threshold e1 l1).1.1 q))
                    rest) IH p Hin).
  - destruct (balanceLoop_frame (<[p := d1]> h) rest sliceSize threshold e1 l1)
      as [Hfr _].
    rewrite (deref_frame _ _ _ (Hfr p Hout)), deref_insert_eq. done.
Qed.

(** X15.  Every domain [placeSlicesOnDomainsBalanced] returns has its
    capacity fields derived from the slices and the leader it was given:
    [state] is [sliceState * sliceSize], and the two capacities with a
    leader are [sliceState] and [state] less [leaderState], all in
    [int32] arithmetic. *)
Theorem placeSlicesOnDomainsBalanced_derived_fields
  (f : gmap loc domain -> list loc -> list loc) (h : gmap loc domain)
  (domains : list loc) (sliceCount leaderCount sliceSize threshold : Z)
  (h' : gmap loc domain) (placed : list loc) (diag : string) :
  placeSlicesOnDomainsBalanced f h domains sliceCount leaderCount sliceSize
    threshold = Returns (h', Some placed, diag) ->
  forall p, p ∈ placed -> derived_fields sliceSize (deref h' p).
Proof.
  intros Hrun.
  apply placeSlicesOnDomainsBalanced_inv in Hrun
    as [(_ & [=] & _)|(sel & e' & l' & _ & _ & Hloop & Hres)].
  destruct Hres as [([=] & _)|([= ->] & _)].
  pose proof (balanceLoop_written (derived_fields sliceSize) sliceSize
                threshold) as Hw.
  assert (Hstep : forall d e l,
             derived_fields sliceSize
               (balanceStep d sliceSize threshold e l).1.1).
  { intros d e l. unfold balanceStep, derived_fields.
    destruct (0 <? l); [|destruct (0 <? e)]; simpl; done. }
  specialize (Hw Hstep (sortedDomainsWithLeader h sel false) h
                (Int32.sub sliceCount
                   (Int32.mul
                      (Int32.of_len (sortedDomainsWithLeader h sel false))
                      threshold)) leaderCount).
  rewrite Hloop in Hw. simpl in Hw.
  intros p Hp.
  exact (proj1 (Forall_forall
                  (fun p => derived_fields sliceSize (deref h' p)) _) Hw p Hp).
Qed.

(** ** The comparator of the entropy sort *)

(** X16.  The comparator of [sortDomainsByCapacityAndEntropy] puts the
    larger capacity first, whatever the entropies, as long as the
    difference of the two capacities is an [int32]: for domains of
    different [sliceState] it is negative exactly when the first has the
    larger one, and positive exactly when the second has. *)
Theorem compareDomainsWithEntropy_by_capacity {E : Type}
  (greater less : E -> E -> bool) (h : gmap loc domain)
  (a b : @domainWithEntropy E) :
  Int32.in_range (sliceState (deref h (dwe_d b))
                  - sliceState (deref h (dwe_d a))) ->
  sliceState (deref h (dwe_d a)) <> sliceState (deref h (dwe_d b)) ->
  (compareDomainsWithEntropy greater less h a b < 0 <->
   sliceState (deref h (dwe_d b)) < sliceState (deref h (dwe_d a))) /\
  (0 < compareDomainsWithEntropy greater less h a b <->
   sliceState (deref h (dwe_d a)) < sliceState (deref h (dwe_d b))).
Proof.
  intros Hr Hne. unfold compareDomainsWithEntropy.
  assert (Hsub : Int32.sub (sliceState (deref h (dwe_d b)))
                   (sliceState (deref h (dwe_d a)))
                 = sliceState (deref h (dwe_d b))
                   - sliceState (deref h (dwe_d a)))
    by (by apply wrap_small).
  rewrite Hsub.
  destruct (_ =? 0) eqn:E0; simpl.
  - apply Z.eqb_eq in E0. lia.
  - lia.
Qed.

(** ** The winner cell *)













(** ** The further properties on the scenarios *)

(** Scenario S3 without a leader: ten slices fit on four domains of four. *)
Lemma leaderless_fits_witness :
  greedy_fits (simulateGreedy fourEqual [0; 1; 2; 3]%nat 10 0) = true <->
  10 <= total fourEqual positiveSlices [0; 1; 2; 3]%nat.
Proof.
  exact (simulateGreedy_leaderless_fits_iff fourEqual [0; 1; 2; 3]%nat 10 0
           ltac:(solve_typed) ltac:(solve_bounds) ltac:(lia)).
Defined.

(** Scenario S3: three domains are needed for ten slices, and no fewer. *)
Lemma leaderless_minimal_witness :
  (exists taken,
     taken ⊆+ [0; 1; 2; 3]%nat /\
     Z.of_nat (length taken)
     = greedy_count (simulateGreedy fourEqual [0; 1; 2; 3]%nat 10 0) /\
     10 <= total fourEqual sliceState taken) /\
  (forall m, m ⊆+ [0; 1; 2; 3]%nat -> 10 <= total fourEqual sliceState m ->
             greedy_count (simulateGreedy fourEqual [0; 1; 2; 3]%nat 10 0)
             <= Z.of_nat (length m)).
Proof.
  exact (simulateGreedy_leaderless_minimal fourEqual [0; 1; 2; 3]%nat 10 0
           ltac:(solve_typed) ltac:(solve_bounds) ltac:(lia)
           ltac:(vm_compute; discriminate) ltac:(vm_compute; reflexivity)).
Defined.

(** Five slices over capacities one, two and four, read in either order. *)
Lemma order_independent_witness :
  greedy_fits (simulateGreedy oneTwoFour [0; 1; 2]%nat 5 0)
  = greedy_fits (simulateGreedy oneTwoFour [2; 1; 0]%nat 5 0) /\
  greedy_count (simulateGreedy oneTwoFour [0; 1; 2]%nat 5 0)
  = greedy_count (simulateGreedy oneTwoFour [2; 1; 0]%nat 5 0).
Proof.
  exact (simulateGreedy_leaderless_order_independent oneTwoFour
           [0; 1; 2]%nat [2; 1; 0]%nat 5 0
           ltac:(apply (bool_decide_unpack _); vm_compute; exact I)
           ltac:(solve_typed) ltac:(solve_bounds) ltac:(lia)).
Defined.

(** Scenario S4, seven slices and one leader: what the simulator reports. *)
Lemma report_witness :
  let r := simulateGreedy leaderAndFollower [0; 1]%nat 7 1 in
  (greedy_fits r = false -> r = (false, 0, None, None)) /\
  (greedy_fits r = true ->
   (forall p, greedy_lastWithLeader r = Some p ->
              p ∈ [0; 1]%nat /\ 0 < leaderState (deref leaderAndFollower p)) /\
   (forall p, greedy_last r = Some p ->
              p ∈ [0; 1]%nat /\ 0 < sliceState (deref leaderAndFollower p)) /\
   (greedy_lastWithLeader r = None <-> 1 <= 0) /\
   (greedy_count r = 0 <-> 1 <= 0 /\ 7 <= 0)).
Proof.
  exact (simulateGreedy_report leaderAndFollower [0; 1]%nat 7 1
           ltac:(solve_typed) ltac:(solve_bounds) ltac:(solve_bounds)).
Defined.

(** Scenario S3: five slices fit where ten do, on no more domains. *)
Lemma monotone_witness :
  greedy_fits (simulateGreedy fourEqual [0; 1; 2; 3]%nat 5 0) = true /\
  greedy_count (simulateGreedy fourEqual [0; 1; 2; 3]%nat 5 0)
  <= greedy_count (simulateGreedy fourEqual [0; 1; 2; 3]%nat 10 0).
Proof.
  exact (simulateGreedy_monotone fourEqual [0; 1; 2; 3]%nat 5 10 0
           ltac:(solve_typed) ltac:(solve_capacities)
           ltac:(vm_compute; discriminate) ltac:(vm_compute; discriminate)
           ltac:(solve_bounds) ltac:(lia) ltac:(solve_bounds)
           ltac:(vm_compute; reflexivity)).
Defined.

(** Scenario S3: the threshold three is within every bound. *)
Lemma threshold_bounds_witness :
  0 <= 3 <= 10 /\
  3 * greedy_count (simulateGreedy fourEqual [0; 1; 2; 3]%nat 10 0) <= 10 /\
  (forall p,
     greedy_lastWithLeader (simulateGreedy fourEqual [0; 1; 2; 3]%nat 10 0)
     = Some p -> 3 <= sliceStateWithLeader (deref fourEqual p)) /\
  (forall p,
     greedy_last (simulateGreedy fourEqual [0; 1; 2; 3]%nat 10 0) = Some p ->
     3 <= sliceState (deref fourEqual p)).
Proof.
  exact (balanceThresholdValue_bounds fourEqual fourEqualRoot 10 0 true 3
           ltac:(solve_typed) ltac:(solve_capacities)
           ltac:(vm_compute; discriminate)
           ltac:(solve_bounds) ltac:(solve_bounds)
           ltac:(vm_compute; reflexivity)).
Defined.

(** Scenario S3: the fourth domain is not written. *)
Lemma writes_only_selected_witness :
  (forall q, q ∉ [0; 1; 2; 3]%nat ->
     heap_after
       (placeSlicesOnDomainsBalanced keepOrder fourEqual [0; 1; 2; 3]%nat
          10 0 1 3) !! q = fourEqual !! q) /\
  (forall placed, Some [0; 1; 2]%nat = Some placed ->
     placed ⊆ [0; 1; 2; 3]%nat /\
     forall q, q ∉ placed ->
       heap_after
         (placeSlicesOnDomainsBalanced keepOrder fourEqual [0; 1; 2; 3]%nat
            10 0 1 3) !! q = fourEqual !! q).
Proof.
  exact (placeSlicesOnDomainsBalanced_writes_only_selected keepOrder
           fourEqual [0; 1; 2; 3]%nat 10 0 1 3 _ (Some [0; 1; 2]%nat)
           EmptyString ltac:(vm_compute; reflexivity)).
Defined.

(** Scenario S3: the children of the first domain stay as they were. *)
Lemma keeps_children_witness :
  children
    (deref
       (heap_after
          (placeSlicesOnDomainsBalanced keepOrder fourEqual
             [0; 1; 2; 3]%nat 10 0 1 3)) 0%nat)
  = children (deref fourEqual 0%nat).
Proof.
  exact (placeSlicesOnDomainsBalanced_keeps_children keepOrder
           fourEqual [0; 1; 2; 3]%nat 10 0 1 3 _ (Some [0; 1; 2]%nat)
           EmptyString ltac:(vm_compute; reflexivity) 0%nat).
Defined.

(** Scenario S4, seven slices and one leader: the leader goes to the first
    returned domain. *)
Lemma leaders_first_witness :
  1 <= Z.of_nat (length [0; 1]%nat) /\
  forall i p, [0; 1]%nat !! i = Some p ->
    leaderState
      (deref
         (heap_after
            (placeSlicesOnDomainsBalanced keepOrder leaderAndFollower
               [0; 1]%nat 7 1 1 3)) p)
    = if Z.of_nat i <? 1 then 1 else 0.
Proof.
  exact (placeSlicesOnDomainsBalanced_leaders_first keepOrder
           leaderAndFollower [0; 1]%nat 7 1 1 3 _ [0; 1]%nat EmptyString
           ltac:(apply (bool_decide_unpack _); vm_compute; exact I)
           ltac:(solve_bounds) ltac:(vm_compute; reflexivity)).
Defined.

(** Scenario S4, seven slices and one leader: the leader's domain is not
    overfilled. *)
Lemma within_capacity_witness :
  within_capacity 3 (deref leaderAndFollower 0%nat)
    (deref
       (heap_after
          (placeSlicesOnDomainsBalanced keepOrder leaderAndFollower
             [0; 1]%nat 7 1 1 3)) 0%nat).
Proof.
  exact (placeSlicesOnDomainsBalanced_within_capacity keepOrder
           leaderAndFollower [0; 1]%nat 7 1 1 3 _ [0; 1]%nat EmptyString
           ltac:(solve_candidates) ltac:(solve_threshold)
           ltac:(solve_bounds) ltac:(solve_bounds)
           ltac:(vm_compute; reflexivity)
           0%nat ltac:(apply (bool_decide_unpack _); vm_compute; exact I)).
Defined.

(** Scenario S4, seven slices and one leader: the two selected domains
    cover the request. *)
Lemma covers_request_witness :
  exists roles,
    roles.*1 = [0; 1]%nat /\ Forall (role_ok leaderAndFollower) roles /\
    leadersUsed leaderAndFollower roles = 1 /\
    7 * 1 <= unitsUsed leaderAndFollower roles.
Proof.
  exact (selectOptimalDomainSetToFit_covers_request keepOrder
           leaderAndFollower [0; 1]%nat 7 1 1 false [0; 1]%nat
           ltac:(intros l; reflexivity) ltac:(solve_typed)
           ltac:(solve_capacities) ltac:(vm_compute; discriminate)
           ltac:(solve_bounds) ltac:(solve_bounds)
           ltac:(vm_compute; reflexivity)).
Defined.

(** Scenario S3: the selection follows the order of the candidates. *)
Lemma keeps_order_witness :
  [0; 1; 2]%nat `sublist_of` [0; 1; 2; 3]%nat.
Proof.
  exact (selectOptimalDomainSetToFit_keeps_order keepOrder fourEqual
           [0; 1; 2; 3]%nat 10 0 1 false [0; 1; 2]%nat
           ltac:(vm_compute; reflexivity)).
Defined.

(** Scenario S3: neither function panics. *)
Lemma no_panic_witness :
  selectOptimalDomainSetToFit keepOrder fourEqual [0; 1; 2; 3]%nat 10 0 1
    false <> Panics /\
  placeSlicesOnDomainsBalanced keepOrder fourEqual [0; 1; 2; 3]%nat 10 0 1 3
    <> Panics.
Proof.
  exact (selectOptimalDomainSetToFit_no_panic keepOrder fourEqual
           [0; 1; 2; 3]%nat 10 0 1 3 false
           ltac:(solve_typed) ltac:(solve_bounds) ltac:(solve_bounds)
           ltac:(vm_compute; reflexivity)).
Defined.

(** Scenario S4, seven slices and one leader: the fields of the leader's
    domain. *)
Lemma derived_fields_witness :
  derived_fields 1
    (deref
       (heap_after
          (placeSlicesOnDomainsBalanced keepOrder leaderAndFollower
             [0; 1]%nat 7 1 1 3)) 0%nat).
Proof.
  exact (placeSlicesOnDomainsBalanced_derived_fields keepOrder
           leaderAndFollower [0; 1]%nat 7 1 1 3 _ [0; 1]%nat EmptyString
           ltac:(vm_compute; reflexivity)
           0%nat ltac:(apply (bool_decide_unpack _); vm_compute; exact I)).
Defined.

(** Capacities one and four, equal entropies. *)
Lemma by_capacity_witness :
  (compareDomainsWithEntropy (fun x y => Nat.ltb y x) Nat.ltb oneTwoFour
     (mkDomainWithEntropy 0%nat 0%nat) (mkDomainWithEntropy 2%nat 0%nat) < 0
   <-> sliceState (deref oneTwoFour 2%nat) < sliceState (deref oneTwoFour 0%nat))
  /\
  (0 < compareDomainsWithEntropy (fun x y => Nat.ltb y x) Nat.ltb oneTwoFour
         (mkDomainWithEntropy 0%nat 0%nat) (mkDomainWithEntropy 2%nat 0%nat)
   <-> sliceState (deref oneTwoFour 0%nat) < sliceState (deref oneTwoFour 2%nat)).
Proof.
  exact (compareDomainsWithEntropy_by_capacity (fun x y => Nat.ltb y x)
           Nat.ltb oneTwoFour
           (mkDomainWithEntropy 0%nat 0%nat) (mkDomainWithEntropy 2%nat 0%nat)
           ltac:(vm_compute; split; discriminate)
           ltac:(vm_compute; discriminate)).
Defined.


(** Capacities one, two and four, five slices and threshold two: the
    returned domain of capacity one keeps its one slice. *)
Lemma threshold_floor_witness :
  threshold_floor 2 (deref oneTwoFour 0%nat)
    (deref
       (heap_after
          (placeSlicesOnDomainsBalanced keepOrder oneTwoFour
             [0; 1; 2]%nat 5 0 1 2)) 0%nat).
Proof.
  exact (threshold_floor_up_to_capacity keepOrder oneTwoFour
           [0; 1; 2]%nat 5 0 1 2 _ [0; 2]%nat EmptyString
           ltac:(solve_candidates) ltac:(solve_threshold)
           ltac:(solve_bounds) ltac:(solve_bounds) ltac:(solve_bounds)
           ltac:(vm_compute; reflexivity)
           0%nat ltac:(apply (bool_decide_unpack _); vm_compute; exact I)).
Defined.
